(** * DXF processor: the mesh data model and the 3DFACE reader

    A shallow embedding of [MeshData.h] (Point3D, Triangle, BoundingBox,
    MeshData) and of the production path of [DXFReader.cpp]
    (readFile, parseFile, parse3DFaceFromLines, reportProgress), followed by
    the properties of the specification that were checked against them.

    Conventions.
    - A C++ [double] is an IEEE-754 binary64 value: Rocq's primitive [float],
      whose operations round to nearest, ties to even.
    - [size_t] indices and counters are [nat]: every index used by the reader
      is bounded by the number of lines, so no wrap-around can occur.
    - [int] group codes are [Z], range-checked where [std::stoi] checks.
    - A [std::vector] is a [list], read with stdpp's total lookup [!!!] at the
      places where the code has already checked the bound, and updated with
      [alter] and [<[_:=_]>].
    - A thrown exception is the left injection of a sum.
    - The progress callback is a function of the caller. The reader is
      given twice: with calls that return ([readFile]), and with calls that
      may throw ([readFile_calling]), where the [try] block of [parseFile]
      and what leaves it are followed. *)

From Stdlib Require Import ZArith Floats Bool Ascii String Lia.
From stdpp Require Import base list strings.

Local Open Scope Z_scope.
Local Open Scope string_scope.
Local Open Scope list_scope.
Local Open Scope nat_scope.

(** ** Doubles *)

Definition double : Type := float.

(** [std::min(a, b)] is [(b < a) ? b : a] and [std::max(a, b)] is
    [(a < b) ? b : a]. *)
Definition std_min (a b : double) : double := if PrimFloat.ltb b a then b else a.
Definition std_max (a b : double) : double := if PrimFloat.ltb a b then b else a.

(** [std::numeric_limits<double>::max()] and [::lowest()]. *)
Definition DBL_MAX : double := 0x1.fffffffffffffp+1023%float.
Definition DBL_LOWEST : double := (- DBL_MAX)%float.

(** [static_cast<double>(n)] for an unsigned integer [n]: the integer rounded
    to the nearest double. *)
Definition double_of_size_t (n : nat) : double :=
  SF2Prim (binary_normalize prec emax (Z.of_nat n) 0%Z false).

(** ** MeshData.h *)

Module Point3D.
Local Open Scope float_scope.

Record t : Type := mk { x : double; y : double; z : double }.

(** [Point3D()] *)
Definition origin : t := mk 0 0 0.

(** [operator+], [operator-], [operator*(double)] *)
Definition add (a b : t) : t := mk (x a + x b) (y a + y b) (z a + z b).
Definition sub (a b : t) : t := mk (x a - x b) (y a - y b) (z a - z b).
Definition scale (a : t) (scalar : double) : t :=
  mk (x a * scalar) (y a * scalar) (z a * scalar).

(** The literal [1e-9] of [operator==], as the nearest double. *)
Definition epsilon : double := 0x1.12e0be826d695p-30.

(** [operator==] *)
Definition eq (a b : t) : bool :=
  (abs (x a - x b) <? epsilon) &&
  (abs (y a - y b) <? epsilon) &&
  (abs (z a - z b) <? epsilon).

Definition dot (a b : t) : double := x a * x b + y a * y b + z a * z b.

Definition cross (a b : t) : t :=
  mk (y a * z b - z a * y b)
     (z a * x b - x a * z b)
     (x a * y b - y a * x b).

Definition magnitude (a : t) : double :=
  sqrt (x a * x a + y a * y a + z a * z a).

(** field assignments [p.x = v], [p.y = v], [p.z = v] *)
Definition set_x (v : double) (p : t) : t := mk v (y p) (z p).
Definition set_y (v : double) (p : t) : t := mk (x p) v (z p).
Definition set_z (v : double) (p : t) : t := mk (x p) (y p) v.

Definition is_finite (a : t) : bool :=
  is_finite (x a) && is_finite (y a) && is_finite (z a).
End Point3D.

#[global] Instance Point3D_inhabited : Inhabited Point3D.t :=
  populate Point3D.origin.

Module Triangle.
Local Open Scope float_scope.

(** [std::array<Point3D, 3> vertices] *)
Record t : Type := mk { v0 : Point3D.t; v1 : Point3D.t; v2 : Point3D.t }.

(** [Triangle() = default] *)
Definition default : t := mk Point3D.origin Point3D.origin Point3D.origin.

Definition vertices (tr : t) : list Point3D.t := [v0 tr; v1 tr; v2 tr].

Definition normal (tr : t) : Point3D.t :=
  let edge1 := Point3D.sub (v1 tr) (v0 tr) in
  let edge2 := Point3D.sub (v2 tr) (v0 tr) in
  Point3D.cross edge1 edge2.

Definition area (tr : t) : double := Point3D.magnitude (normal tr) * 0.5.

Definition center (tr : t) : Point3D.t :=
  Point3D.scale (Point3D.add (Point3D.add (v0 tr) (v1 tr)) (v2 tr)) (1 / 3).
End Triangle.

Module BoundingBox.
Local Open Scope float_scope.

Record t : Type := mk { min : Point3D.t; max : Point3D.t }.

(** [BoundingBox()] *)
Definition default : t :=
  mk (Point3D.mk DBL_MAX DBL_MAX DBL_MAX)
     (Point3D.mk DBL_LOWEST DBL_LOWEST DBL_LOWEST).

Definition expand (b : t) (point : Point3D.t) : t :=
  mk (Point3D.mk (std_min (Point3D.x (min b)) (Point3D.x point))
                 (std_min (Point3D.y (min b)) (Point3D.y point))
                 (std_min (Point3D.z (min b)) (Point3D.z point)))
     (Point3D.mk (std_max (Point3D.x (max b)) (Point3D.x point))
                 (std_max (Point3D.y (max b)) (Point3D.y point))
                 (std_max (Point3D.z (max b)) (Point3D.z point))).

Definition size (b : t) : Point3D.t := Point3D.sub (max b) (min b).

Definition center (b : t) : Point3D.t :=
  Point3D.scale (Point3D.add (min b) (max b)) 0.5.

Definition volume (b : t) : double :=
  let s := size b in Point3D.x s * Point3D.y s * Point3D.z s.

(** [a > b] on doubles is [b < a]. *)
Definition isEmpty (b : t) : bool :=
  (Point3D.x (max b) <? Point3D.x (min b)) ||
  (Point3D.y (max b) <? Point3D.y (min b)) ||
  (Point3D.z (max b) <? Point3D.z (min b)).
End BoundingBox.

Module MeshData.
Local Open Scope float_scope.

Record t : Type := mk { triangles : list Triangle.t }.

(** [MeshData() = default] *)
Definition empty : t := mk [].

(** [triangles.push_back(triangle)] *)
Definition addTriangle (m : t) (triangle : Triangle.t) : t :=
  mk (triangles m ++ [triangle]).

Definition getTriangleCount (m : t) : nat := length (triangles m).

Definition isEmpty (m : t) : bool :=
  match triangles m with [] => true | _ :: _ => false end.

Definition getBoundingBox (m : t) : BoundingBox.t :=
  fold_left
    (fun bbox triangle => fold_left BoundingBox.expand (Triangle.vertices triangle) bbox)
    (triangles m) BoundingBox.default.

Definition getTotalSurfaceArea (m : t) : double :=
  fold_left (fun totalArea triangle => totalArea + Triangle.area triangle)
    (triangles m) 0.
End MeshData.

(** ** Reading the file into trimmed lines *)

Definition char_in (set : string) (c : ascii) : bool :=
  existsb (Ascii.eqb c) (list_ascii_of_string set).

Definition newline : ascii := ascii_of_nat 10.
Definition tab : ascii := ascii_of_nat 9.
Definition carriage_return : ascii := ascii_of_nat 13.

(** The character sets [" \t\r\n"] and [" \t"] of the two [erase] calls. *)
Definition trailing_set : string :=
  String " " (String tab (String carriage_return (String newline ""))).
Definition leading_set : string := String " " (String tab "").

(** [line.erase(line.find_last_not_of(set) + 1)]: drops the longest suffix
    made of characters of [set] (the whole line when it has no other
    character, since [npos + 1] is 0). *)
Fixpoint erase_trailing (set : string) (line : string) : string :=
  match line with
  | "" => ""
  | String c rest =>
      match erase_trailing set rest with
      | "" => if char_in set c then "" else String c ""
      | kept => String c kept
      end
  end.

(** [line.erase(0, line.find_first_not_of(set))]: drops the longest prefix
    made of characters of [set]. *)
Fixpoint erase_leading (set : string) (line : string) : string :=
  match line with
  | "" => ""
  | String c rest => if char_in set c then erase_leading set rest else line
  end.

Definition trim (line : string) : string :=
  erase_leading leading_set (erase_trailing trailing_set line).

(** The [while (std::getline(file, line))] loop: [line] is the text read so
    far of the current line. A last line without a newline is still
    delivered; after a final newline there is no further line. *)
Fixpoint getlines (content : string) (line : string) : list string :=
  match content with
  | "" => match line with "" => [] | _ => [line] end
  | String c rest =>
      if Ascii.eqb c newline then line :: getlines rest ""
      else getlines rest (String.append line (String c ""))
  end.

Definition read_lines (content : string) : list string :=
  map trim (getlines content "").

(** ** std::stoi *)

(** [isspace] in the "C" locale. *)
Definition is_space (c : ascii) : bool :=
  let n := nat_of_ascii c in
  Nat.eqb n 32 || (Nat.leb 9 n && Nat.leb n 13).

Definition digit_of (c : ascii) : option Z :=
  let n := nat_of_ascii c in
  if Nat.leb 48 n && Nat.leb n 57 then Some (Z.of_nat (n - 48)) else None.

Fixpoint skip_spaces (s : string) : string :=
  match s with
  | String c rest => if is_space c then skip_spaces rest else s
  | "" => ""
  end.

(** The value of the longest prefix of decimal digits, from [acc]. *)
Fixpoint digits_value (s : string) (acc : Z) : Z :=
  match s with
  | String c rest =>
      match digit_of c with
      | Some d => digits_value rest (10 * acc + d)%Z
      | None => acc
      end
  | "" => acc
  end.

Definition INT_MIN : Z := (- 2147483648)%Z.
Definition INT_MAX : Z := 2147483647%Z.

(** [std::stoi(s)]: optional white space, an optional sign, then at least one
    decimal digit; what follows the digits is ignored. [None] stands for
    either exception ([std::invalid_argument] when there is no digit,
    [std::out_of_range] when the value does not fit an [int]). *)
Definition stoi (s : string) : option Z :=
  let s := skip_spaces s in
  let '(negative, s) :=
    match s with
    | String "-" rest => (true, rest)
    | String "+" rest => (false, rest)
    | _ => (false, s)
    end in
  match s with
  | String c _ =>
      match digit_of c with
      | Some _ =>
          let v := digits_value s 0%Z in
          let v := if negative then (- v)%Z else v in
          if (INT_MIN <=? v)%Z && (v <=? INT_MAX)%Z then Some v else None
      | None => None
      end
  | "" => None
  end.

(** ** DXFReader.h and DXFReader.cpp *)

(** [DXFReaderException]. The code has one exception class and tells the
    failures apart by message; the constructors are the error kinds of the
    specification:
    - [FileNotFound]: "File does not exist: ..."
    - [NotARegularFile]: "Path is not a regular file: ..."
    - [CannotOpenFile]: "Cannot open file: ..."
    - [ParseError]: "Parse error: ..." (an exception escaping the scan)
    - [NoEntitiesFound]: "No 3D faces found in DXF file" *)
Inductive DXFReaderException : Type :=
  | FileNotFound
  | NotARegularFile
  | CannotOpenFile
  | ParseError
  | NoEntitiesFound.

(** What the file system answers for a path: nothing there, something that is
    not a regular file, or a regular file with its bytes ([None] when the
    stream cannot be opened). *)
Inductive path_status : Type :=
  | NoSuchPath
  | NotRegular
  | RegularFile (content : option string).

(** The members of [DXFReader]: whether a callback is registered, and the
    counter. The values the callback is called with are collected in call
    order; what the registered function does when called, return or throw,
    is a [ProgressCallback] below. *)
Record DXFReader : Type := mkDXFReader {
  progressCallback_ : bool;
  lastEntityCount_ : nat
}.

Definition newDXFReader : DXFReader := mkDXFReader false 0.
Definition setProgressCallback (r : DXFReader) : DXFReader :=
  mkDXFReader true (lastEntityCount_ r).
Definition getLastEntityCount (r : DXFReader) : nat := lastEntityCount_ r.

(** [reportProgress] when the call of the callback returns: the call it
    makes, appended to the calls so far. [reportProgress_calling] below is
    the same with a callback that may throw. *)
Definition reportProgress (callback : bool) (progress : double)
    (calls : list double) : list double :=
  if callback then calls ++ [std_max 0%float (std_min 1%float progress)] else calls.

(** How an iteration of a [while] loop ends. *)
Variant flow : Type := Break | Continue.

(** The locals of [parse3DFaceFromLines]. *)
Record FaceScan : Type := mkFaceScan {
  index : nat;
  vertices : list Point3D.t;
  hasVertex : list bool
}.

(** The locals of the scanning loop of [parseFile], with the counter of the
    reader and the calls made to the callback. *)
Record Scan : Type := mkScan {
  scan_i : nat;
  inEntitiesSection : bool;
  meshData : MeshData.t;
  entityCount : nat;
  calls : list double
}.

(** What a call of [readFile] leaves behind: the reader, the values the
    callback was called with, and the mesh or the exception. *)
Record Outcome : Type := mkOutcome {
  reader_after : DXFReader;
  progress_calls : list double;
  result : DXFReaderException + MeshData.t
}.

Section Reader.
(** [std::stod]: the double a value line converts to, [None] when it
    throws. The reader uses nothing else of it. *)
Variable stod : string -> option double.

(** The [switch (code)] of [parse3DFaceFromLines]: three groups of case
    labels, and no default. In each group [vertexIndex] is [code] minus the
    first label, so the test [vertexIndex < 3] always holds; it is kept as
    written. *)
Definition code_in (code a b c : Z) : bool :=
  (code =? a)%Z || (code =? b)%Z || (code =? c)%Z.

Definition switch_code (code : Z) (value : string)
    (vertices : list Point3D.t) (hasVertex : list bool)
    : list Point3D.t * list bool :=
  if code_in code 10 11 12 then
    let vertexIndex := (code - 10)%Z in
    if (vertexIndex <? 3)%Z then
      match stod value with
      | Some d => (alter (Point3D.set_x d) (Z.to_nat vertexIndex) vertices,
                   <[Z.to_nat vertexIndex := true]> hasVertex)
      | None => (alter (Point3D.set_x 0%float) (Z.to_nat vertexIndex) vertices,
                 hasVertex)
      end
    else (vertices, hasVertex)
  else if code_in code 20 21 22 then
    let vertexIndex := (code - 20)%Z in
    if (vertexIndex <? 3)%Z then
      match stod value with
      | Some d => (alter (Point3D.set_y d) (Z.to_nat vertexIndex) vertices, hasVertex)
      | None => (alter (Point3D.set_y 0%float) (Z.to_nat vertexIndex) vertices, hasVertex)
      end
    else (vertices, hasVertex)
  else if code_in code 30 31 32 then
    let vertexIndex := (code - 30)%Z in
    if (vertexIndex <? 3)%Z then
      match stod value with
      | Some d => (alter (Point3D.set_z d) (Z.to_nat vertexIndex) vertices, hasVertex)
      | None => (alter (Point3D.set_z 0%float) (Z.to_nat vertexIndex) vertices, hasVertex)
      end
    else (vertices, hasVertex)
  else (vertices, hasVertex).

(** One iteration of [while (index < lines.size())] in
    [parse3DFaceFromLines], entered with [index < lines.size()]. *)
Definition face_body (lines : list string) (st : FaceScan) : flow * FaceScan :=
  if String.eqb (lines !!! index st) "0" then (Break, st)
  else
    match stoi (lines !!! index st) with
    | Some code =>
        if length lines <=? index st + 1 then (Break, st)
        else
          let value := lines !!! (index st + 1) in
          let '(vertices, hasVertex) :=
            switch_code code value (vertices st) (hasVertex st) in
          (Continue, mkFaceScan (index st + 2) vertices hasVertex)
    | None => (Continue, mkFaceScan (index st + 1) (vertices st) (hasVertex st))
    end.

Fixpoint face_loop (fuel : nat) (lines : list string) (st : FaceScan) : FaceScan :=
  match fuel with
  | 0 => st
  | S fuel =>
      if index st <? length lines then
        match face_body lines st with
        | (Break, st) => st
        | (Continue, st) => face_loop fuel lines st
        end
      else st
  end.

(** The end of [parse3DFaceFromLines]: the triangle when all three flags
    are set. *)
Definition face_result (vertices : list Point3D.t) (hasVertex : list bool)
    : option Triangle.t :=
  if (hasVertex !!! 0) && (hasVertex !!! 1) && (hasVertex !!! 2)
  then Some (Triangle.mk (vertices !!! 0) (vertices !!! 1) (vertices !!! 2))
  else None.

Definition face_init (index : nat) : FaceScan :=
  mkFaceScan index
    [Point3D.origin; Point3D.origin; Point3D.origin] [false; false; false].

(** [parse3DFaceFromLines(lines, index, triangle)]: the index it leaves and,
    when it returns true, the triangle it assigns. Every iteration that
    continues moves the index forward, so [lines.size() - index] iterations
    are enough. *)
Definition parse3DFaceFromLines (lines : list string) (index0 : nat)
    : nat * option Triangle.t :=
  let st := face_loop (length lines - index0) lines (face_init index0) in
  (index st, face_result (vertices st) (hasVertex st)).

(** The (group code, value) pairs that [parse3DFaceFromLines] passes to
    its [switch], in order: the same walk over the lines as [face_loop],
    keeping only the pairs. *)
Fixpoint face_pairs (fuel : nat) (lines : list string) (index : nat)
    : list (Z * string) :=
  match fuel with
  | 0 => []
  | S fuel =>
      if index <? length lines then
        if String.eqb (lines !!! index) "0" then []
        else
          match stoi (lines !!! index) with
          | Some code =>
              if length lines <=? index + 1 then []
              else (code, lines !!! (index + 1))
                     :: face_pairs fuel lines (index + 2)
          | None => face_pairs fuel lines (index + 1)
          end
      else []
  end.

Definition consumed_pairs (lines : list string) (index0 : nat) : list (Z * string) :=
  face_pairs (length lines - index0) lines index0.

(** The vertex buffer and the flags after the [switch] has seen the given
    pairs. *)
Definition switch_all (pairs : list (Z * string))
    (buffer : list Point3D.t * list bool) : list Point3D.t * list bool :=
  fold_left (fun buffer pair => switch_code pair.1 pair.2 buffer.1 buffer.2)
    pairs buffer.

Definition scan_goto (st : Scan) (i : nat) : Scan :=
  mkScan i (inEntitiesSection st) (meshData st) (entityCount st) (calls st).

Definition scan_section (st : Scan) (inside : bool) (i : nat) : Scan :=
  mkScan i inside (meshData st) (entityCount st) (calls st).

(** One iteration of [while (i < lines.size())] in [parseFile], entered
    with [i < lines.size()]. *)
Definition scan_body (callback : bool) (fileSize : nat) (lines : list string)
    (st : Scan) : Scan :=
  let i := scan_i st in
  if String.eqb (lines !!! i) "0" && (i + 1 <? length lines) then
    let entityType := lines !!! (i + 1) in
    if String.eqb entityType "SECTION" && (i + 3 <? length lines) then
      if String.eqb (lines !!! (i + 2)) "2"
         && String.eqb (lines !!! (i + 3)) "ENTITIES"
      then scan_section st true (i + 4)
      else scan_goto st (i + 1)
    else if String.eqb entityType "ENDSEC" then scan_section st false (i + 2)
    else if inEntitiesSection st && String.eqb entityType "3DFACE" then
      match parse3DFaceFromLines lines (i + 2) with
      | (nextEntityIndex, Some triangle) =>
          let count := S (entityCount st) in
          mkScan nextEntityIndex (inEntitiesSection st)
            (MeshData.addTriangle (meshData st) triangle)
            count
            (if Nat.eqb (count mod 100) 0 && (0 <? fileSize) then
               reportProgress callback
                 (double_of_size_t nextEntityIndex / double_of_size_t (length lines))%float
                 (calls st)
             else calls st)
      | (nextEntityIndex, None) => scan_goto st nextEntityIndex
      end
    else scan_goto st (i + 1)
  else scan_goto st (i + 1).

Fixpoint scan_loop (fuel : nat) (callback : bool) (fileSize : nat)
    (lines : list string) (st : Scan) : Scan :=
  match fuel with
  | 0 => st
  | S fuel =>
      if scan_i st <? length lines then
        scan_loop fuel callback fileSize lines (scan_body callback fileSize lines st)
      else st
  end.

Definition scan_init : Scan := mkScan 0 false MeshData.empty 0 [].

(** The face loop has ended: the index is past the last line, or the
    iteration at the index breaks. *)
Definition face_done (lines : list string) (st : FaceScan) : Prop :=
  length lines <= index st \/ (face_body lines st).1 = Break.

(** The locals of [parseFile] when its scanning loop ends. *)
Definition final_scan (callback : bool) (content : string) : Scan :=
  scan_loop (length (read_lines content)) callback (String.length content)
    (read_lines content) scan_init.

(** [parseFile], from the opening of the stream on, when every call of
    the callback returns: nothing is thrown in the [try] block then, and
    its [catch] is not entered. [parseFile_calling] below is the same
    with a callback that may throw. The cursor moves forward in every
    iteration, so [lines.size()] iterations are enough. *)
Definition parseFile (reader : DXFReader) (file : option string) : Outcome :=
  match file with
  | None => mkOutcome reader [] (inl CannotOpenFile)
  | Some content =>
      let callback := progressCallback_ reader in
      let fileSize := String.length content in
      let lines := read_lines content in
      let st := scan_loop (length lines) callback fileSize lines scan_init in
      let calls := reportProgress callback 1%float (calls st) in
      mkOutcome (mkDXFReader callback (entityCount st)) calls
        (if MeshData.isEmpty (meshData st) then inl NoEntitiesFound
         else inr (meshData st))
  end.

Definition readFile (reader : DXFReader) (path : path_status) : Outcome :=
  match path with
  | NoSuchPath => mkOutcome reader [] (inl FileNotFound)
  | NotRegular => mkOutcome reader [] (inl NotARegularFile)
  | RegularFile file => parseFile reader file
  end.
End Reader.

(** ** Notions used in the statements *)

(** The group codes of the fourth vertex of a 3DFACE, and those of the three
    vertices the reader keeps. *)
Definition fourth_vertex_code (code : Z) : bool := code_in code 13 23 33.

Definition vertex_code (code : Z) : bool :=
  code_in code 10 11 12 || code_in code 20 21 22 || code_in code 30 31 32.

(** The four lines [0], [SECTION], [2], [ENTITIES] at the cursor. *)
Definition at_entities_start (lines : list string) (i : nat) : Prop :=
  i + 3 < length lines
  /\ lines !!! i = "0" /\ lines !!! (i + 1) = "SECTION"
  /\ lines !!! (i + 2) = "2" /\ lines !!! (i + 3) = "ENTITIES".

(** The two lines [0], [ENDSEC] at the cursor. *)
Definition at_endsec (lines : list string) (i : nat) : Prop :=
  i + 1 < length lines /\ lines !!! i = "0" /\ lines !!! (i + 1) = "ENDSEC".

(** The quotient [static_cast<double>(index) / lines.size()] of [parseFile]. *)
Definition progress_fraction (lines_count index : nat) : double :=
  (double_of_size_t index / double_of_size_t lines_count)%float.

(** [values[i] <= values[j]] whenever [i <= j]. *)
Definition nondecreasing (values : list double) : Prop :=
  forall i j a b,
    i <= j -> values !! i = Some a -> values !! j = Some b -> (a <=? b)%float = true.

Definition in_unit_interval (v : double) : Prop :=
  (0 <=? v)%float = true /\ (v <=? 1)%float = true.

(** An invariant of the scanning loop: the calls made so far are the clamped
    fractions of cursor positions already passed, in the order in which they
    were passed. *)
Definition calls_invariant (lines : list string) (st : Scan) : Prop :=
  scan_i st <= length lines
  /\ exists positions : list nat,
       calls st
       = map (fun i => std_max 0%float (std_min 1%float (progress_fraction (length lines) i)))
           positions
       /\ (forall i, i ∈ positions -> i <= scan_i st)
       /\ (forall i j a b,
             i <= j -> positions !! i = Some a -> positions !! j = Some b -> a <= b).

(** A decision procedure for [nondecreasing]. *)
Fixpoint pairwise_leb (values : list double) : bool :=
  match values with
  | [] => true
  | v :: rest =>
      (v <=? v)%float && forallb (PrimFloat.leb v) rest && pairwise_leb rest
  end.

(** A key that orders the binary64 values that are not NaN as [SFcompare]
    does: class and sign first, then the exponent, then the mantissa. *)
Definition SF_key (f : spec_float) : Z * Z * Z :=
  match f with
  | S754_nan => (0, 0, 0)
  | S754_infinity true => (-2, 0, 0)
  | S754_finite true m e => (-1, - e, Z.neg m)
  | S754_zero _ => (0, 0, 0)
  | S754_finite false m e => (1, e, Z.pos m)
  | S754_infinity false => (2, 0, 0)
  end%Z.

Definition key_lt (a b : Z * Z * Z) : Prop :=
  (a.1.1 < b.1.1
   \/ (a.1.1 = b.1.1 /\ (a.1.2 < b.1.2 \/ (a.1.2 = b.1.2 /\ a.2 < b.2))))%Z.

Definition key_le (a b : Z * Z * Z) : Prop := key_lt a b \/ a = b.

Definition SF_is_zero (f : spec_float) : bool :=
  match f with S754_zero _ => true | _ => false end.

(** ** Sample inputs *)

(** A reading of [std::stod] on plain decimal literals (optional white space,
    optional sign, digits with an optional fraction; what follows is
    ignored), enough to run the reader on sample files. With at most 15
    digits the single rounding of the division gives the nearest double. The
    theorems below hold for every [stod]. *)
Fixpoint count_digits (s : string) : nat :=
  match s with
  | String c rest => match digit_of c with Some _ => S (count_digits rest) | None => 0 end
  | "" => 0
  end.

Fixpoint drop_digits (s : string) : string :=
  match s with
  | String c rest => match digit_of c with Some _ => drop_digits rest | None => s end
  | "" => ""
  end.

Definition stod_decimal (s : string) : option double :=
  let s := skip_spaces s in
  let '(negative, s) :=
    match s with
    | String "-" rest => (true, rest)
    | String "+" rest => (false, rest)
    | _ => (false, s)
    end in
  let whole := digits_value s 0%Z in
  let '(mantissa, fraction_digits) :=
    match drop_digits s with
    | String "." fraction => (digits_value fraction whole, count_digits fraction)
    | _ => (whole, 0)
    end in
  if Nat.eqb (count_digits s + fraction_digits) 0 then None
  else
    let v := (double_of_size_t (Z.to_nat mantissa)
              / double_of_size_t (10 ^ fraction_digits))%float in
    Some (if negative then (- v)%float else v).

(** The file made of the given lines, each ended by a newline. *)
Definition file_of_lines (lines : list string) : string :=
  fold_right (fun line content => String.append line (String newline content)) "" lines.

Definition face_lines (x0 y0 z0 x1 y1 z1 x2 y2 z2 : string) : list string :=
  ["0"; "3DFACE"; "8"; "0";
   "10"; x0; "20"; y0; "30"; z0;
   "11"; x1; "21"; y1; "31"; z1;
   "12"; x2; "22"; y2; "32"; z2;
   "13"; x2; "23"; y2; "33"; z2].

Definition entities_header : list string := ["0"; "SECTION"; "2"; "ENTITIES"].
Definition entities_footer : list string := ["0"; "ENDSEC"; "0"; "EOF"].

(** One equilateral triangle of side 10, as in the unit tests. *)
Definition single_triangle_dxf : string :=
  file_of_lines
    (entities_header
     ++ face_lines "0.0" "0.0" "0.0" "10.0" "0.0" "0.0" "5.0" "8.660254" "0.0"
     ++ entities_footer).

Definition two_triangles_dxf : string :=
  file_of_lines
    (entities_header
     ++ face_lines "0.0" "0.0" "0.0" "1.0" "0.0" "0.0" "0.0" "1.0" "0.0"
     ++ face_lines "2.0" "0.0" "0.0" "3.0" "0.0" "0.0" "2.0" "1.0" "0.0"
     ++ entities_footer).

(** [n] copies of one face inside an ENTITIES section. *)
Definition many_faces_dxf (n : nat) : string :=
  file_of_lines
    (entities_header
     ++ concat (replicate n (face_lines "0" "0" "0" "1" "0" "0" "0" "1" "0"))
     ++ entities_footer).

(** [n] faces of three x codes each, the least a face needs. *)
Definition compact_faces_dxf (n : nat) : string :=
  file_of_lines
    (entities_header
     ++ concat (replicate n ["0"; "3DFACE"; "10"; "0"; "11"; "1"; "12"; "0"])
     ++ entities_footer).

(** ** Notions used in the further properties *)

(** [min <= p <= max] in each coordinate. *)
Definition box_contains (b : BoundingBox.t) (p : Point3D.t) : bool :=
  ((Point3D.x (BoundingBox.min b) <=? Point3D.x p)
   && (Point3D.x p <=? Point3D.x (BoundingBox.max b))
   && (Point3D.y (BoundingBox.min b) <=? Point3D.y p)
   && (Point3D.y p <=? Point3D.y (BoundingBox.max b))
   && (Point3D.z (BoundingBox.min b) <=? Point3D.z p)
   && (Point3D.z p <=? Point3D.z (BoundingBox.max b)))%float.

(** No coordinate is NaN. *)
Definition point_has_no_nan (p : Point3D.t) : bool :=
  negb (is_nan (Point3D.x p)) && negb (is_nan (Point3D.y p))
  && negb (is_nan (Point3D.z p)).

Definition box_has_no_nan (b : BoundingBox.t) : bool :=
  point_has_no_nan (BoundingBox.min b) && point_has_no_nan (BoundingBox.max b).

(** A binary64 value that is NaN or not below zero. *)
Definition SF_nan_or_nonneg (f : spec_float) : Prop :=
  match f with
  | S754_nan | S754_zero _ => True
  | S754_infinity s | S754_finite s _ _ => s = false
  end.

(** The file made of the given lines, each ended by CR LF. *)
Definition file_of_lines_crlf (lines : list string) : string :=
  fold_right
    (fun line content =>
       String.append line (String carriage_return (String newline content)))
    "" lines.

(** Every character of [w] is in [set]. *)
Definition all_in (set w : string) : bool :=
  forallb (char_in set) (list_ascii_of_string w).

(** The locals of the scanning loop without the calls made to the callback. *)
Definition scan_outcome (st : Scan) : nat * bool * MeshData.t * nat :=
  (scan_i st, inEntitiesSection st, meshData st, entityCount st).

(** The value of the last pair with the given group code, if any. *)
Definition last_value (code : Z) (pairs : list (Z * string)) : option string :=
  fold_left (fun found pair => if (pair.1 =? code)%Z then Some pair.2 else found)
    pairs None.

(** The coordinate a value leaves in the vertex buffer: the converted number,
    or 0.0 when there was no value or it did not convert. *)
Definition coordinate (stod : string -> option double) (value : option string)
    : double :=
  match value with
  | Some value => match stod value with Some d => d | None => 0%float end
  | None => 0%float
  end.

(** Vertex [k] as the last pairs of its three group codes give it. *)
Definition last_vertex (stod : string -> option double)
    (pairs : list (Z * string)) (k : Z) : Point3D.t :=
  Point3D.mk (coordinate stod (last_value (10 + k) pairs))
             (coordinate stod (last_value (20 + k) pairs))
             (coordinate stod (last_value (30 + k) pairs)).

(** Some pair carries the x code of vertex [k] with a value that converts. *)
Definition valid_x (stod : string -> option double)
    (pairs : list (Z * string)) (k : Z) : bool :=
  existsb (fun pair => (pair.1 =? 10 + k)%Z
                       && match stod pair.2 with Some _ => true | None => false end)
    pairs.

(** ** DetailedMeshSummarizer (MeshSummarizer.cpp): the statistics computed
    from the triangles *)

Module DetailedMeshSummarizer.
Local Open Scope float_scope.

Definition calculateVolume (meshData : MeshData.t) : double :=
  if MeshData.isEmpty meshData then 0
  else
    abs (fold_left
           (fun volume triangle =>
              volume
              + Point3D.dot (Triangle.v0 triangle)
                  (Point3D.cross (Triangle.v1 triangle) (Triangle.v2 triangle))
                / 6)
           (MeshData.triangles meshData) 0).

Definition getTriangleAreaRange (meshData : MeshData.t) : double * double :=
  if MeshData.isEmpty meshData then (0, 0)
  else
    fold_left
      (fun range triangle =>
         let area := Triangle.area triangle in
         (std_min range.1 area, std_max range.2 area))
      (MeshData.triangles meshData) (DBL_MAX, DBL_LOWEST).
End DetailedMeshSummarizer.

(** The locals of the two loops with the cursor moved [n] lines further. *)
Definition shift_face (n : nat) (st : FaceScan) : FaceScan :=
  mkFaceScan (n + index st) (vertices st) (hasVertex st).

Definition shift_scan (n : nat) (st : Scan) : Scan :=
  mkScan (n + scan_i st) (inEntitiesSection st) (meshData st) (entityCount st) (calls st).

(** A face as text: the three coordinates of each of its three vertices, and
    the lines of its 3DFACE entity. *)
Definition vertex_text : Type := string * string * string.
Definition face_text : Type := vertex_text * vertex_text * vertex_text.

Definition face_text_lines (f : face_text) : list string :=
  let '((a0, b0, c0), (a1, b1, c1), (a2, b2, c2)) := f in
  face_lines a0 b0 c0 a1 b1 c1 a2 b2 c2.

Definition vertex_of (stod : string -> option double) (v : vertex_text) : Point3D.t :=
  Point3D.mk (coordinate stod (Some v.1.1)) (coordinate stod (Some v.1.2))
    (coordinate stod (Some v.2)).

Definition triangle_of (stod : string -> option double) (f : face_text) : Triangle.t :=
  Triangle.mk (vertex_of stod f.1.1) (vertex_of stod f.1.2) (vertex_of stod f.2).

(** The x coordinates of the three vertices convert. *)
Definition face_converts (stod : string -> option double) (f : face_text) : bool :=
  let converts (s : string) := match stod s with Some _ => true | None => false end in
  converts f.1.1.1.1 && converts f.1.2.1.1 && converts f.2.1.1.

(** The triangles of the faces that convert, in order. *)
Definition triangles_of (stod : string -> option double) (faces : list face_text)
    : list Triangle.t :=
  map (triangle_of stod) (filter (fun f => face_converts stod f = true) faces).

(** The index at which [parse3DFaceFromLines] stops: the same walk over the
    lines as [face_loop], keeping only the index. *)
Fixpoint face_stop (fuel : nat) (lines : list string) (index : nat) : nat :=
  match fuel with
  | 0 => index
  | S fuel =>
      if index <? length lines then
        if String.eqb (lines !!! index) "0" then index
        else
          match stoi (lines !!! index) with
          | Some code =>
              if length lines <=? index + 1 then index
              else face_stop fuel lines (index + 2)
          | None => face_stop fuel lines (index + 1)
          end
      else index
  end.

(** ** Rounding to nearest, ties to even

    The notions below state, in integer arithmetic, what the operations of
    [SpecFloat] on binary64 compute: they are used to show that the quotient
    of [parseFile] does not decrease with the index, and how far the square
    of [Point3D.magnitude] can be from [Point3D.dot]. *)

(** Twice the distance of a value from the integer below it, rounded down
    and rounded up, as a [location] records it. *)
Definition loc_floor (l : location) : Z :=
  match l with loc_Exact | loc_Inexact Lt => 0 | _ => 1 end.

Definition loc_ceil (l : location) : Z :=
  match l with loc_Exact => 0 | loc_Inexact Gt => 2 | _ => 1 end.

(** Twice the value held by a [shr_record], rounded down and rounded up:
    the round bit counts for one half, the sticky bit for less. *)
Definition shr_floor (mrs : shr_record) : Z :=
  (2 * shr_m mrs + (if shr_r mrs then 1 else 0))%Z.

Definition shr_ceil (mrs : shr_record) : Z :=
  (shr_floor mrs + (if shr_s mrs then 1 else 0))%Z.

(** [M * 2 ^ k], with a mantissa [M] of 53 bits, is a value whose double
    lies between [F] and [C] rounded to nearest, ties to even: the value is
    within half a unit of [M], within a quarter of a unit from below when
    [M] is a power of two, and [M] is even when the value is half-way. *)
Definition Rounds (F C M k : Z) : Prop :=
  (2 ^ 52 <= M < 2 ^ 53
   /\ (2 * M - 1) * 2 ^ k <= F
   /\ (M = 2 ^ 52 -> (4 * M - 1) * 2 ^ k <= 2 * F)
   /\ C <= (2 * M + 1) * 2 ^ k
   /\ (F = C -> F = (2 * M + 1) * 2 ^ k -> Z.even M = true)
   /\ (F = C -> F = (2 * M - 1) * 2 ^ k -> Z.even M = true))%Z.

(** The same for the value [P / Q]. *)
Definition RoundsQ (P Q M k : Z) : Prop :=
  (2 ^ 52 <= M < 2 ^ 53
   /\ (2 * M - 1) * 2 ^ k * Q <= 2 * P
   /\ (M = 2 ^ 52 -> (4 * M - 1) * 2 ^ k * Q <= 4 * P)
   /\ 2 * P <= (2 * M + 1) * 2 ^ k * Q
   /\ (2 * P = (2 * M + 1) * 2 ^ k * Q -> Z.even M = true)
   /\ (2 * P = (2 * M - 1) * 2 ^ k * Q -> Z.even M = true))%Z.


(** ** The reader with a callback that may throw

    [reportProgress], [scan_body], [parseFile] and [readFile] above follow a
    read in which every call of the progress callback returns. The callback
    is a [std::function<void(double)>] of the caller and may throw instead;
    the definitions below follow the same code with such a callback: the
    [try] block of [parseFile] around the scanning loop, its
    [catch (const std::exception&)], and the last call
    [reportProgress(1.0)], which is outside of the [try]. *)

(** What a call of the callback does: it returns, it throws an exception
    derived from [std::exception], or it throws something else. *)
Variant call_outcome : Type := Returns | ThrowsStdException | ThrowsOther.

(** The registered function: what its call with [progress] does, after the
    calls with the values [earlier]. *)
Definition ProgressCallback : Type := list double -> double -> call_outcome.

(** [reportProgress] with the function [behaviour] registered when
    [callback] is set: the calls so far with the call it makes, and how that
    call ends. *)
Definition reportProgress_calling (behaviour : ProgressCallback) (callback : bool)
    (progress : double) (calls : list double) : list double * call_outcome :=
  if callback then
    let value := std_max 0%float (std_min 1%float progress) in
    (calls ++ [value], behaviour calls value)
  else (calls, Returns).

(** How a call of [readFile] ends: it returns the mesh, it throws a
    [DXFReaderException], or an exception of the callback leaves it. *)
Variant Ending : Type :=
  | Returned (mesh : MeshData.t)
  | Failed (error : DXFReaderException)
  | Escaped.

(** What a call of [readFile] leaves behind, as [Outcome]. *)
Record Run : Type := mkRun {
  run_reader : DXFReader;
  run_calls : list double;
  run_ending : Ending
}.

Section ReaderCalling.
Variable stod : string -> option double.
Variable behaviour : ProgressCallback.

(** One iteration of the scanning loop, as [scan_body]. When the call of
    the callback throws, the triangle is in the mesh and counted, and the
    assignment [i = nextEntityIndex] is not reached. *)
Definition scan_body_calling (callback : bool) (fileSize : nat)
    (lines : list string) (st : Scan) : Scan * call_outcome :=
  let i := scan_i st in
  if String.eqb (lines !!! i) "0" && (i + 1 <? length lines) then
    let entityType := lines !!! (i + 1) in
    if String.eqb entityType "SECTION" && (i + 3 <? length lines) then
      if String.eqb (lines !!! (i + 2)) "2"
         && String.eqb (lines !!! (i + 3)) "ENTITIES"
      then (scan_section st true (i + 4), Returns)
      else (scan_goto st (i + 1), Returns)
    else if String.eqb entityType "ENDSEC" then (scan_section st false (i + 2), Returns)
    else if inEntitiesSection st && String.eqb entityType "3DFACE" then
      match parse3DFaceFromLines stod lines (i + 2) with
      | (nextEntityIndex, Some triangle) =>
          let mesh := MeshData.addTriangle (meshData st) triangle in
          let count := S (entityCount st) in
          if Nat.eqb (count mod 100) 0 && (0 <? fileSize) then
            let progress :=
              (double_of_size_t nextEntityIndex
               / double_of_size_t (length lines))%float in
            match reportProgress_calling behaviour callback progress (calls st) with
            | (calls, Returns) =>
                (mkScan nextEntityIndex (inEntitiesSection st) mesh count calls,
                 Returns)
            | (calls, thrown) =>
                (mkScan i (inEntitiesSection st) mesh count calls, thrown)
            end
          else
            (mkScan nextEntityIndex (inEntitiesSection st) mesh count (calls st),
             Returns)
      | (nextEntityIndex, None) => (scan_goto st nextEntityIndex, Returns)
      end
    else (scan_goto st (i + 1), Returns)
  else (scan_goto st (i + 1), Returns).

(** The scanning loop: it ends when the cursor is past the lines, or with
    the first call that throws. *)
Fixpoint scan_loop_calling (fuel : nat) (callback : bool) (fileSize : nat)
    (lines : list string) (st : Scan) : Scan * call_outcome :=
  match fuel with
  | 0 => (st, Returns)
  | S fuel =>
      if scan_i st <? length lines then
        match scan_body_calling callback fileSize lines st with
        | (st, Returns) => scan_loop_calling fuel callback fileSize lines st
        | thrown => thrown
        end
      else (st, Returns)
  end.

(** [parseFile]. An exception thrown in the loop is caught when it derives
    from [std::exception], and replaced by the parse error; the call with
    1.0 comes after the [try] block, so that what it throws leaves
    [parseFile] as it is, before the mesh is looked at. *)
Definition parseFile_calling (reader : DXFReader) (file : option string) : Run :=
  match file with
  | None => mkRun reader [] (Failed CannotOpenFile)
  | Some content =>
      let callback := progressCallback_ reader in
      let fileSize := String.length content in
      let lines := read_lines content in
      let '(st, thrown) :=
        scan_loop_calling (length lines) callback fileSize lines scan_init in
      let reader := mkDXFReader callback (entityCount st) in
      match thrown with
      | ThrowsStdException => mkRun reader (calls st) (Failed ParseError)
      | ThrowsOther => mkRun reader (calls st) Escaped
      | Returns =>
          match reportProgress_calling behaviour callback 1%float (calls st) with
          | (calls, Returns) =>
              mkRun reader calls
                (if MeshData.isEmpty (meshData st) then Failed NoEntitiesFound
                 else Returned (meshData st))
          | (calls, _) => mkRun reader calls Escaped
          end
      end
  end.

Definition readFile_calling (reader : DXFReader) (path : path_status) : Run :=
  match path with
  | NoSuchPath => mkRun reader [] (Failed FileNotFound)
  | NotRegular => mkRun reader [] (Failed NotARegularFile)
  | RegularFile file => parseFile_calling reader file
  end.
End ReaderCalling.

(** A callback all of whose calls return. *)
Definition always_returns (behaviour : ProgressCallback) : Prop :=
  forall earlier progress, behaviour earlier progress = Returns.

(** The ending of a read whose callback calls return, as [Ending]. *)
Definition ending_of (result : DXFReaderException + MeshData.t) : Ending :=
  match result with inl error => Failed error | inr mesh => Returned mesh end.

(** A callback that throws at its call number [n] (from 0) and returns
    otherwise. *)
Definition throws_at (n : nat) (thrown : call_outcome) : ProgressCallback :=
  fun earlier _ => if Nat.eqb (length earlier) n then thrown else Returns.

(** The scanning loop of [parseFile] reaches the end of the lines: no call
    of the callback throws in it. *)
Definition scans_entire_file (stod : string -> option double)
    (behaviour : ProgressCallback) (reader : DXFReader) (content : string) : Prop :=
  (scan_loop_calling stod behaviour (length (read_lines content))
     (progressCallback_ reader) (String.length content) (read_lines content)
     scan_init).2 = Returns.

(** Each of the calls returned. *)
Definition all_returned (behaviour : ProgressCallback) (calls : list double) : Prop :=
  forall k value, calls !! k = Some value -> behaviour (take k calls) value = Returns.

(** An invariant of the scanning loop: the section is entered four lines
    into the file at the earliest, every face counted took eight lines, the
    counter is the size of the mesh, [calls_invariant], and a call was made
    for every hundredth face. *)
Definition scan_invariant (callback : bool) (lines : list string) (st : Scan) : Prop :=
  (inEntitiesSection st = true -> 4 <= scan_i st)
  /\ (entityCount st = 0 \/ 8 * entityCount st + 4 <= scan_i st)
  /\ entityCount st = MeshData.getTriangleCount (meshData st)
  /\ calls_invariant lines st
  /\ length (calls st) = if callback then entityCount st / 100 else 0.

(** * Properties *)

Local Open Scope Z_scope.
(** ** Facts about binary64 comparisons *)

Lemma SFcompare_refl_not_Lt (f : spec_float) : SFcompare f f <> Some Lt.
Proof.
  destruct f as [s|s| |s m e]; simpl; try destruct s; try discriminate;
    rewrite (Z.compare_refl e); fold (Pos.compare m m);
    rewrite (Pos.compare_refl m); discriminate.
Qed.

Lemma ltb_irrefl (a : float) : PrimFloat.ltb a a = false.
Proof.
  rewrite FloatAxioms.ltb_spec. unfold SFltb.
  pose proof (SFcompare_refl_not_Lt (Prim2SF a)) as H.
  destruct (SFcompare (Prim2SF a) (Prim2SF a)) as [[]|]; congruence.
Qed.

Lemma ltb_leb (a b : float) : PrimFloat.ltb a b = true -> PrimFloat.leb a b = true.
Proof.
  rewrite FloatAxioms.ltb_spec, FloatAxioms.leb_spec. unfold SFltb, SFleb.
  destruct (SFcompare (Prim2SF a) (Prim2SF b)) as [[]|]; congruence.
Qed.

Lemma SFcompare_refl (f : spec_float) : f <> S754_nan -> SFcompare f f = Some Eq.
Proof.
  destruct f as [s|s| |s m e]; simpl; intros H; try destruct s;
    try congruence; try reflexivity;
    rewrite (Z.compare_refl e); fold (Pos.compare m m);
    now rewrite (Pos.compare_refl m).
Qed.

Lemma is_nan_SF (a : float) : is_nan a = false -> Prim2SF a <> S754_nan.
Proof.
  unfold is_nan. rewrite FloatAxioms.eqb_spec. intros H E. rewrite E in H. discriminate.
Qed.

Lemma leb_refl (a : float) : is_nan a = false -> PrimFloat.leb a a = true.
Proof.
  intros H. rewrite FloatAxioms.leb_spec. unfold SFleb.
  now rewrite SFcompare_refl by now apply is_nan_SF.
Qed.

(** A finite double is a zero or a mantissa with an exponent. *)
Lemma is_finite_SF (a : float) :
  is_finite a = true ->
  (exists s, Prim2SF a = S754_zero s) \/ (exists s m e, Prim2SF a = S754_finite s m e).
Proof.
  unfold is_finite, is_nan, is_infinity.
  rewrite !FloatAxioms.eqb_spec, abs_spec.
  change (Prim2SF infinity) with (S754_infinity false).
  destruct (Prim2SF a) as [s|s| |s m e]; simpl; intros H.
  - left; eauto.
  - destruct s; discriminate.
  - discriminate.
  - right; eauto.
Qed.











(** ** Facts about binary64 arithmetic *)

Lemma SFopp_involutive (f : spec_float) : SFopp (SFopp f) = f.
Proof. destruct f as [s|s| |s m e]; simpl; now rewrite ?negb_involutive. Qed.

Lemma SFmul_comm (f g : spec_float) : SF64mul f g = SF64mul g f.
Proof.
  unfold SF64mul, SFmul.
  destruct f as [s|s| |s m e], g as [s'|s'| |s' m' e'];
    try reflexivity; try (now rewrite (xorb_comm s s')).
  now rewrite (xorb_comm s s'), (Pos.mul_comm m m'), (Z.add_comm e e').
Qed.

Lemma mul_comm (a b : float) : (a * b)%float = (b * a)%float.
Proof. apply Prim2SF_inj. rewrite !mul_spec. apply SFmul_comm. Qed.

Lemma binary_round_aux_negb (s : bool) (m e : Z) (l : location) :
  binary_round_aux prec emax (negb s) m e l
  = SFopp (binary_round_aux prec emax s m e l).
Proof.
  unfold binary_round_aux.
  destruct (shr_fexp prec emax m e l) as [mrs e1].
  destruct (shr_fexp prec emax _ e1 loc_Exact) as [mrs' e2].
  destruct (shr_m mrs'); [reflexivity| |reflexivity].
  now destruct (e2 <=? emax - prec)%Z.
Qed.

Lemma binary_normalize_opp (m e : Z) :
  m <> 0%Z ->
  binary_normalize prec emax (- m) e false
  = SFopp (binary_normalize prec emax m e false).
Proof.
  destruct m as [|p|p]; [congruence| |]; intros _; simpl; unfold binary_round;
    destruct (shl_align p e _) as [mz ez].
  - apply (binary_round_aux_negb false).
  - now rewrite (binary_round_aux_negb false), SFopp_involutive.
Qed.

(** [a - b] is the opposite of [b - a], except that both are zeros (of any
    signs) when the difference vanishes. *)
Lemma SFsub_antisym (f g : spec_float) :
  SF64sub f g = SFopp (SF64sub g f)
  \/ (SF_is_zero (SF64sub f g) = true /\ SF_is_zero (SF64sub g f) = true).
Proof.
  unfold SF64sub, SFsub.
  destruct f as [s|s| |s m e], g as [s'|s'| |s' m' e'];
    try (left; reflexivity);
    try (destruct s, s'; simpl; auto; fail);
    try (left; simpl; now rewrite ?negb_involutive).
  rewrite (Z.min_comm e' e).
  set (X := cond_Zopp s (Z.pos (fst (shl_align m e (Z.min e e'))))).
  set (Y := cond_Zopp s' (Z.pos (fst (shl_align m' e' (Z.min e e'))))).
  destruct (Z.eq_dec (X - Y) 0) as [E|E].
  - right. replace (Y - X)%Z with 0%Z by lia. rewrite E. simpl. auto.
  - left. replace (X - Y)%Z with (- (Y - X))%Z by lia.
    apply binary_normalize_opp. lia.
Qed.

Lemma SFsub_diag_zero (f : spec_float) :
  match f with S754_zero _ | S754_finite _ _ _ => True | _ => False end ->
  SF_is_zero (SF64sub f f) = true.
Proof.
  unfold SF64sub, SFsub. destruct f as [s|s| |s m e]; intros H; try easy.
  - now destruct s.
  - now rewrite Z.sub_diag.
Qed.


Lemma Prim2SF_epsilon :
  Prim2SF Point3D.epsilon = S754_finite false 4835703278458517 (-82).
Proof. vm_compute. reflexivity. Qed.

Lemma abs_zero_below_epsilon (a : float) :
  SF_is_zero (Prim2SF a) = true -> (abs a <? Point3D.epsilon)%float = true.
Proof.
  rewrite FloatAxioms.ltb_spec, abs_spec, Prim2SF_epsilon.
  now destruct (Prim2SF a).
Qed.









(** ** The order of binary64 values *)

Lemma SFcompare_key (f g : spec_float) :
  f <> S754_nan -> g <> S754_nan ->
  match SFcompare f g with
  | Some Lt => key_lt (SF_key f) (SF_key g)
  | Some Eq => SF_key f = SF_key g
  | Some Gt => key_lt (SF_key g) (SF_key f)
  | None => False
  end.
Proof.
  intros Hf Hg.
  destruct f as [s|s| |s m e], g as [s'|s'| |s' m' e']; try congruence;
    try (destruct s; try destruct s'; cbn; unfold key_lt; cbn; auto; lia);
    try (destruct s'; cbn; unfold key_lt; cbn; auto; lia).
  destruct s, s'; cbn; unfold key_lt; cbn [fst snd]; try lia.
  - destruct (Z.compare_spec e e') as [->|?|?]; try lia.
    rewrite Pos.compare_cont_spec. unfold Pos.switch_Eq.
    destruct (Pos.compare_spec m m') as [->|?|?]; cbn; try reflexivity; lia.
  - destruct (Z.compare_spec e e') as [->|?|?]; try lia.
    rewrite Pos.compare_cont_spec. unfold Pos.switch_Eq.
    destruct (Pos.compare_spec m m') as [->|?|?]; cbn; try reflexivity; lia.
Qed.

Lemma ltb_key (a b : float) :
  (a <? b)%float = true ->
  Prim2SF a <> S754_nan /\ Prim2SF b <> S754_nan
  /\ key_lt (SF_key (Prim2SF a)) (SF_key (Prim2SF b)).
Proof.
  rewrite FloatAxioms.ltb_spec. unfold SFltb. intros H.
  assert (Prim2SF a <> S754_nan /\ Prim2SF b <> S754_nan) as [Ha Hb].
  { split; intros E; rewrite E in H; [|destruct (Prim2SF a) as [|[]| |[]]]; discriminate. }
  pose proof (SFcompare_key _ _ Ha Hb) as Hk.
  destruct (SFcompare (Prim2SF a) (Prim2SF b)) as [[]|]; try discriminate. auto.
Qed.

Lemma leb_key (a b : float) :
  (a <=? b)%float = true ->
  Prim2SF a <> S754_nan /\ Prim2SF b <> S754_nan
  /\ key_le (SF_key (Prim2SF a)) (SF_key (Prim2SF b)).
Proof.
  rewrite FloatAxioms.leb_spec. unfold SFleb. intros H.
  assert (Prim2SF a <> S754_nan /\ Prim2SF b <> S754_nan) as [Ha Hb].
  { split; intros E; rewrite E in H; [|destruct (Prim2SF a) as [|[]| |[]]]; discriminate. }
  pose proof (SFcompare_key _ _ Ha Hb) as Hk. unfold key_le.
  destruct (SFcompare (Prim2SF a) (Prim2SF b)) as [[]|]; try discriminate; auto.
Qed.

Lemma key_ltb (a b : float) :
  Prim2SF a <> S754_nan -> Prim2SF b <> S754_nan ->
  key_lt (SF_key (Prim2SF a)) (SF_key (Prim2SF b)) -> (a <? b)%float = true.
Proof.
  intros Ha Hb Hlt. rewrite FloatAxioms.ltb_spec. unfold SFltb.
  pose proof (SFcompare_key _ _ Ha Hb) as Hk.
  destruct (SFcompare (Prim2SF a) (Prim2SF b)) as [[]|]; try reflexivity;
    try contradiction; exfalso; unfold key_lt in *;
    destruct (SF_key (Prim2SF a)) as [[? ?] ?], (SF_key (Prim2SF b)) as [[? ?] ?];
    cbn [fst snd] in *; try (injection Hk as -> -> ->); lia.
Qed.

Lemma leb_ltb_trans (a b c : float) :
  (a <=? b)%float = true -> (b <? c)%float = true -> (a <? c)%float = true.
Proof.
  intros H1 H2. apply leb_key in H1 as (Ha & Hb & H1).
  apply ltb_key in H2 as (_ & Hc & H2). apply key_ltb; auto.
  unfold key_le, key_lt in *.
  destruct (SF_key (Prim2SF a)) as [[? ?] ?], (SF_key (Prim2SF b)) as [[? ?] ?],
    (SF_key (Prim2SF c)) as [[? ?] ?]; cbn [fst snd] in *.
  destruct H1 as [H1|[= -> -> ->]]; lia.
Qed.

Lemma ltb_leb_trans (a b c : float) :
  (a <? b)%float = true -> (b <=? c)%float = true -> (a <? c)%float = true.
Proof.
  intros H1 H2. apply ltb_key in H1 as (Ha & Hb & H1).
  apply leb_key in H2 as (_ & Hc & H2). apply key_ltb; auto.
  unfold key_le, key_lt in *.
  destruct (SF_key (Prim2SF a)) as [[? ?] ?], (SF_key (Prim2SF b)) as [[? ?] ?],
    (SF_key (Prim2SF c)) as [[? ?] ?]; cbn [fst snd] in *.
  destruct H2 as [H2|[= -> -> ->]]; lia.
Qed.

(** The clamp of [reportProgress]. *)
Lemma clamp_range (p : float) :
  (0 <=? std_max 0 (std_min 1 p))%float = true
  /\ (std_max 0 (std_min 1 p) <=? 1)%float = true.
Proof.
  unfold std_min, std_max.
  destruct (p <? 1)%float eqn:E1.
  - destruct (0 <? p)%float eqn:E0; [|split; reflexivity].
    split; now apply ltb_leb.
  - change (0 <? 1)%float with true. cbn. split; reflexivity.
Qed.

Lemma clamp_monotone (p q : float) :
  (p <=? q)%float = true ->
  (std_max 0 (std_min 1 p) <=? std_max 0 (std_min 1 q))%float = true.
Proof.
  intros Hpq.
  pose proof (clamp_range p) as [Hp0 Hp1]. pose proof (clamp_range q) as [Hq0 Hq1].
  unfold std_min, std_max in *.
  destruct (p <? 1)%float eqn:P1, (q <? 1)%float eqn:Q1;
    change (0 <? 1)%float with true in *; cbv iota in *; try assumption.
  - destruct (0 <? p)%float eqn:P0, (0 <? q)%float eqn:Q0; try assumption.
    rewrite (ltb_leb_trans _ _ _ P0 Hpq) in Q0. discriminate.
  - rewrite (leb_ltb_trans _ _ _ Hpq Q1) in P1. discriminate.
Qed.

(** ** Rounding of the binary64 operations

    What [binary_round_aux], the division, the conversion of a [size_t],
    the square root and the square of [SpecFloat] compute, in integer
    arithmetic. *)

Local Open Scope Z_scope.

Lemma digits2_pos_size (p : positive) : digits2_pos p = Pos.size p.
Proof. induction p; cbn; congruence. Qed.

Lemma Zdigits2_bounds (p : positive) :
  2 ^ (Zdigits2 (Z.pos p) - 1) <= Z.pos p < 2 ^ Zdigits2 (Z.pos p).
Proof.
  cbn [Zdigits2]. rewrite digits2_pos_size. split.
  - pose proof (Pos.size_le p) as H.
    assert (Z.pos (2 ^ Pos.size p) <= Z.pos p~0) as H' by exact H.
    rewrite Pos2Z.inj_pow in H'.
    replace (Z.pos (Pos.size p)) with (Z.pos (Pos.size p) - 1 + 1) in H' by lia.
    rewrite Z.pow_add_r in H' by lia. lia.
  - pose proof (Pos.size_gt p) as H.
    assert (Z.pos p < Z.pos (2 ^ Pos.size p)) as H' by exact H.
    now rewrite Pos2Z.inj_pow in H'.
Qed.

Lemma Zdigits2_unique (p : positive) (d : Z) :
  2 ^ (d - 1) <= Z.pos p < 2 ^ d -> Zdigits2 (Z.pos p) = d.
Proof.
  intros [H1 H2]. pose proof (Zdigits2_bounds p) as [B1 B2].
  set (k := Zdigits2 (Z.pos p)) in *.
  assert (0 < k) by (subst k; cbn; lia).
  assert (0 < d).
  { destruct (Z.lt_ge_cases 0 d); [assumption|].
    rewrite Z.pow_neg_r in H1 by lia.
    destruct (Z.eq_dec d 0) as [->|]; [cbn in H2; lia|].
    rewrite Z.pow_neg_r in H2 by lia. lia. }
  destruct (Z.lt_trichotomy k d) as [Hlt|[Heq|Hgt]]; [|assumption|].
  - assert (2 ^ k <= 2 ^ (d - 1)) by (apply Z.pow_le_mono_r; lia). lia.
  - assert (2 ^ d <= 2 ^ (k - 1)) by (apply Z.pow_le_mono_r; lia). lia.
Qed.

Lemma shr_1_spec (mrs : shr_record) :
  0 <= shr_m mrs ->
  0 <= shr_m (shr_1 mrs)
  /\ 2 * shr_floor (shr_1 mrs) <= shr_floor mrs <= 2 * shr_floor (shr_1 mrs) + 1
  /\ 2 * shr_ceil (shr_1 mrs) - 1 <= shr_ceil mrs <= 2 * shr_ceil (shr_1 mrs).
Proof.
  destruct mrs as [m r s]. unfold shr_ceil, shr_floor. cbn [shr_m shr_r shr_s].
  intros Hm. destruct m as [|[p|p|]|p]; try lia; destruct r, s; cbn; lia.
Qed.

Lemma iter_pos_nat {A : Type} (f : A -> A) (p : positive) (x : A) :
  SpecFloat.iter_pos f p x = Nat.iter (Pos.to_nat p) f x.
Proof.
  revert x. induction p as [p IH|p IH|]; intros x; cbn [SpecFloat.iter_pos].
  - rewrite !IH, Pos2Nat.inj_xI.
    change (Nat.iter (S (2 * Pos.to_nat p)) f x)
      with (f (Nat.iter (2 * Pos.to_nat p) f x)).
    rewrite <- Nat.iter_add.
    replace (Pos.to_nat p + Pos.to_nat p)%nat with (2 * Pos.to_nat p)%nat by lia.
    now rewrite Nat.iter_swap.
  - rewrite !IH, Pos2Nat.inj_xO, <- Nat.iter_add.
    now replace (Pos.to_nat p + Pos.to_nat p)%nat with (2 * Pos.to_nat p)%nat by lia.
  - reflexivity.
Qed.

Lemma shr_iter_spec (n : nat) (mrs : shr_record) :
  0 <= shr_m mrs ->
  let mrs' := Nat.iter n shr_1 mrs in
  0 <= shr_m mrs'
  /\ shr_floor mrs' * 2 ^ Z.of_nat n <= shr_floor mrs
     < (shr_floor mrs' + 1) * 2 ^ Z.of_nat n
  /\ (shr_ceil mrs' - 1) * 2 ^ Z.of_nat n < shr_ceil mrs
     <= shr_ceil mrs' * 2 ^ Z.of_nat n.
Proof.
  intros Hm. induction n as [|n IH]; cbv zeta.
  - change (Nat.iter 0 shr_1 mrs) with mrs. change (2 ^ Z.of_nat 0) with 1. lia.
  - change (Nat.iter (S n) shr_1 mrs) with (shr_1 (Nat.iter n shr_1 mrs)).
    cbv zeta in IH. destruct IH as (H0 & HF & HC).
    set (prev := Nat.iter n shr_1 mrs) in *.
    destruct (shr_1_spec prev H0) as (H0' & HF' & HC').
    rewrite Nat2Z.inj_succ, Z.pow_succ_r by lia.
    assert (0 < 2 ^ Z.of_nat n) as Hp by (apply Z.pow_pos_nonneg; lia).
    set (p := 2 ^ Z.of_nat n) in *. clearbody p prev.
    repeat apply conj; try assumption; nia.
Qed.

Lemma fexp_normal (x : Z) : -1074 <= x - 53 -> fexp prec emax x = x - 53.
Proof. unfold fexp, emin, prec, emax. lia. Qed.

Lemma shr_nat (mrs : shr_record) (e s : Z) :
  0 <= s -> shr mrs e s = (Nat.iter (Z.to_nat s) shr_1 mrs, e + s).
Proof.
  intros Hs. destruct s as [|p|p]; [|..|lia].
  - cbn. now rewrite Z.add_0_r.
  - cbn [shr]. now rewrite iter_pos_nat, Z2Nat.inj_pos.
Qed.

Lemma shr_record_of_loc_floor (m : Z) (l : location) :
  shr_m (shr_record_of_loc m l) = m
  /\ shr_floor (shr_record_of_loc m l) = 2 * m + loc_floor l
  /\ shr_ceil (shr_record_of_loc m l) = 2 * m + loc_ceil l.
Proof. destruct l as [|[]]; unfold shr_ceil, shr_floor; cbn; lia. Qed.

Lemma round_nearest_even_spec (mrs : shr_record) :
  let t := shr_m mrs in
  let t' := round_nearest_even t (loc_of_shr_record mrs) in
  t <= t' <= t + 1
  /\ 2 * t' - 1 <= shr_floor mrs
  /\ shr_ceil mrs <= 2 * t' + 1
  /\ (t' = t + 1 -> shr_floor mrs = 2 * t + 1)
  /\ (shr_floor mrs = shr_ceil mrs -> shr_floor mrs = 2 * t' + 1 -> Z.even t' = true)
  /\ (shr_floor mrs = shr_ceil mrs -> shr_floor mrs = 2 * t' - 1 -> Z.even t' = true).
Proof.
  destruct mrs as [t r st]. unfold shr_ceil, shr_floor. cbn [shr_m shr_r shr_s].
  destruct r, st; cbn [loc_of_shr_record round_nearest_even]; cbv zeta;
    try destruct (Z.even t) eqn:E; repeat apply conj; try lia; intros;
    try assumption; try lia.
  all: replace (t + 1) with (Z.succ t) by lia; rewrite Z.even_succ, <- Z.negb_even, E;
    reflexivity.
Qed.

Lemma Zdigits2_53 (t : Z) : 2 ^ 52 <= t < 2 ^ 53 -> Zdigits2 t = 53.
Proof.
  intros H. destruct t as [|p|p]; [lia| |lia]. now apply Zdigits2_unique.
Qed.

Lemma mul_le_cancel (p a b : Z) : 0 < p -> a * p <= b * p -> a <= b.
Proof. intros Hp H. now apply Z.mul_le_mono_pos_r in H. Qed.

Lemma mul_lt_cancel (p a b : Z) : 0 < p -> a * p < b * p -> a < b.
Proof. intros Hp H. now apply Z.mul_lt_mono_pos_r in H. Qed.

(** From the shifted record to the value: the bounds and the ties of the
    rounded mantissa [t'] at the scale [p = 2 ^ k]. *)
Lemma shifted_bounds (F0 C0 F C t' p : Z) :
  0 < p ->
  F * p <= F0 < (F + 1) * p ->
  (C - 1) * p < C0 <= C * p ->
  2 * t' - 1 <= F -> C <= 2 * t' + 1 ->
  (F = C -> F = 2 * t' + 1 -> Z.even t' = true) ->
  (F = C -> F = 2 * t' - 1 -> Z.even t' = true) ->
  (2 * t' - 1) * p <= F0
  /\ C0 <= (2 * t' + 1) * p
  /\ (F0 = C0 -> F0 = (2 * t' + 1) * p -> Z.even t' = true)
  /\ (F0 = C0 -> F0 = (2 * t' - 1) * p -> Z.even t' = true).
Proof.
  intros Hp [HF1 HF2] [HC1 HC2] Hlow Hup Htu Htl.
  assert ((2 * t' - 1) * p <= F * p) by (apply Z.mul_le_mono_nonneg_r; lia).
  assert (C * p <= (2 * t' + 1) * p) by (apply Z.mul_le_mono_nonneg_r; lia).
  repeat apply conj; [lia|lia| |].
  - intros E0 E1. rewrite <- E0 in HC1, HC2. rewrite E1 in HF1, HF2, HC1, HC2.
    apply (mul_le_cancel p) in HF1, HC2; try exact Hp.
    apply (mul_lt_cancel p) in HF2, HC1; try exact Hp.
    apply Htu; lia.
  - intros E0 E1. rewrite <- E0 in HC1, HC2. rewrite E1 in HF1, HF2, HC1, HC2.
    apply (mul_le_cancel p) in HF1, HC2; try exact Hp.
    apply (mul_lt_cancel p) in HF2, HC1; try exact Hp.
    apply Htl; lia.
Qed.

(** Rounding a positive mantissa of at least 53 bits in the range of the
    normal numbers: the result is the 53-bit mantissa nearest to the value,
    ties going to the even one; [F] and [C] are the floor and the ceiling of
    twice the value. *)
Lemma binary_round_aux_spec (sx : bool) (m : positive) (e : Z) (l : location) :
  let s := Zdigits2 (Z.pos m) - 53 in
  0 <= s -> -1074 <= e + s -> e + s + 1 <= 971 ->
  exists (M : positive) (k : Z),
    binary_round_aux prec emax sx (Z.pos m) e l = S754_finite sx M (e + k)
    /\ (k = s \/ k = s + 1)
    /\ Rounds (2 * Z.pos m + loc_floor l) (2 * Z.pos m + loc_ceil l) (Z.pos M) k.
Proof.
  intros s Hs Hlo Hhi.
  pose proof (Zdigits2_bounds m) as [Hd1 Hd2].
  replace (Zdigits2 (Z.pos m)) with (53 + s) in Hd1, Hd2 by (unfold s; lia).
  replace (53 + s - 1) with (52 + s) in Hd1 by lia.
  rewrite Z.pow_add_r in Hd1, Hd2 by lia.
  unfold binary_round_aux, shr_fexp.
  rewrite (fexp_normal (Zdigits2 (Z.pos m) + e)) by (fold s; lia).
  replace (Zdigits2 (Z.pos m) + e - 53 - e) with s by (unfold s; lia).
  rewrite shr_nat by exact Hs.
  destruct (shr_record_of_loc_floor (Z.pos m) l) as (Hm0 & HF0 & HC0).
  destruct (shr_iter_spec (Z.to_nat s) (shr_record_of_loc (Z.pos m) l)) as (Ht0 & HF & HC);
    [rewrite Hm0; lia|].
  rewrite Z2Nat.id in HF, HC by exact Hs. rewrite HF0 in HF. rewrite HC0 in HC.
  clear Hm0 HF0 HC0.
  set (mrs := Nat.iter (Z.to_nat s) shr_1 (shr_record_of_loc (Z.pos m) l)) in *.
  destruct (round_nearest_even_spec mrs) as (Ht' & Hlow & Hup & Hcarry & Htu & Htl).
  assert (shr_floor mrs = 2 * shr_m mrs + (if shr_r mrs then 1 else 0)) as HFt
      by reflexivity.
  assert (0 <= (if shr_r mrs then 1 else 0) <= 1) as Hr by (destruct (shr_r mrs); lia).
  set (t := shr_m mrs) in *.
  set (t' := round_nearest_even t (loc_of_shr_record mrs)) in *.
  set (F := shr_floor mrs) in *. set (C := shr_ceil mrs) in *.
  set (r := if shr_r mrs then 1 else 0) in *.
  assert (0 < 2 ^ s) as Hp by (apply Z.pow_pos_nonneg; lia).
  assert (0 <= loc_floor l <= 1 /\ loc_floor l <= loc_ceil l <= loc_floor l + 1) as Hl
      by (destruct l as [|[]]; cbn; lia).
  set (F0 := 2 * Z.pos m + loc_floor l) in *.
  set (C0 := 2 * Z.pos m + loc_ceil l) in *.
  assert (2 * (2 ^ 52 * 2 ^ s) <= F0 < 2 * (2 ^ 53 * 2 ^ s)) as HF0 by (unfold F0; lia).
  destruct (shifted_bounds F0 C0 F C t' (2 ^ s) Hp HF HC Hlow Hup Htu Htl)
    as (B1 & B2 & B3 & B4).
  assert (2 ^ 52 <= t < 2 ^ 53) as Ht.
  { destruct HF as [HF1 HF2].
    assert (F * 2 ^ s < 2 ^ 54 * 2 ^ s) as H1 by lia.
    assert (2 ^ 53 * 2 ^ s < (F + 1) * 2 ^ s) as H2 by lia.
    apply (mul_lt_cancel (2 ^ s)) in H1, H2; try exact Hp. lia. }
  destruct (Z.eq_dec t' (2 ^ 53)) as [Ec|Ec].
  - (* the rounded mantissa has 54 bits *)
    rewrite Ec. change (Zdigits2 (2 ^ 53)) with 54.
    rewrite (fexp_normal (54 + (e + s))) by lia.
    replace (54 + (e + s) - 53 - (e + s)) with 1 by lia.
    assert (forall e1, shr (shr_record_of_loc (2 ^ 53) loc_Exact) e1 1
                       = (Build_shr_record (Z.pos 4503599627370496) false false, e1 + 1))
      as -> by (intros; reflexivity).
    cbn [shr_m].
    assert ((e + s + 1 <=? emax - prec) = true) as -> by (apply Z.leb_le; unfold emax, prec; lia).
    exists 4503599627370496%positive, (s + 1). rewrite Z.add_assoc.
    split; [reflexivity|]. split; [now right|].
    assert (Hts : t' = t + 1) by lia. specialize (Hcarry Hts).
    unfold Rounds. rewrite Z.pow_add_r, Z.pow_1_r by lia.
    change (Z.pos 4503599627370496) with (2 ^ 52).
    rewrite Ec in B1, B2.
    set (p := 2 ^ s) in *. clearbody p F0 C0 F C t t' r. clear -B1 B2 Hp.
    repeat apply conj; try lia; intros; reflexivity.
  - assert (2 ^ 52 <= t' < 2 ^ 53) as Ht'' by lia.
    rewrite (Zdigits2_53 t' Ht'').
    rewrite (fexp_normal (53 + (e + s))) by lia.
    replace (53 + (e + s) - 53 - (e + s)) with 0 by lia.
    cbn [shr]. destruct (shr_record_of_loc_floor t' loc_Exact) as (-> & _ & _).
    destruct t' as [|M|M] eqn:EM; [lia| |lia].
    assert ((e + s <=? emax - prec) = true) as -> by (apply Z.leb_le; unfold emax, prec; lia).
    exists M, s. split; [reflexivity|]. split; [now left|].
    unfold Rounds. repeat apply conj; try lia; assumption.
Qed.

Lemma new_location_spec (Q r : Z) :
  0 < Q -> 0 <= r < Q ->
  let l := new_location Q r in
  loc_floor l * Q <= 2 * r <= loc_ceil l * Q
  /\ (loc_floor l <> loc_ceil l -> loc_floor l * Q < 2 * r < loc_ceil l * Q).
Proof.
  intros HQ Hr. unfold new_location, new_location_even, new_location_odd.
  destruct (Z.even Q) eqn:E.
  - destruct (Z.eqb_spec r 0) as [->|Hne]; [cbn; lia|].
    destruct (Z.compare_spec (2 * r) Q); cbn; lia.
  - destruct (Z.eqb_spec r 0) as [->|Hne]; [cbn; lia|].
    assert (2 * r <> Q).
    { intros <-. rewrite Z.even_mul in E. discriminate E. }
    destruct (Z.compare_spec (2 * r + 1) Q); cbn; lia.
Qed.

Lemma Rounds_to_Q (q r Q M k : Z) (l : location) :
  0 < Q -> 0 <= k ->
  loc_floor l * Q <= 2 * r <= loc_ceil l * Q ->
  (loc_floor l <> loc_ceil l -> loc_floor l * Q < 2 * r < loc_ceil l * Q) ->
  Rounds (2 * q + loc_floor l) (2 * q + loc_ceil l) M k ->
  RoundsQ (q * Q + r) Q M k.
Proof.
  intros HQ Hk [Hr1 Hr2] Hstrict (HM & Hlow & Htight & Hup & Htu & Htl).
  assert (0 < 2 ^ k) as Hp by (apply Z.pow_pos_nonneg; lia).
  unfold RoundsQ. set (p := 2 ^ k) in *. clearbody p.
  set (lf := loc_floor l) in *. set (lc := loc_ceil l) in *. clearbody lf lc.
  assert ((2 * M - 1) * p * Q <= (2 * q + lf) * Q) as H1
      by (apply Z.mul_le_mono_nonneg_r; lia).
  assert ((2 * q + lc) * Q <= (2 * M + 1) * p * Q) as H2
      by (apply Z.mul_le_mono_nonneg_r; lia).
  repeat apply conj; try lia.
  - intros E52. specialize (Htight E52).
    assert ((4 * M - 1) * p * Q <= 2 * (2 * q + lf) * Q)
      by (apply Z.mul_le_mono_nonneg_r; lia).
    lia.
  - intros E.
    assert (lf = lc) as Elc.
    { destruct (Z.eq_dec lf lc) as [|Hne]; [assumption|]. specialize (Hstrict Hne). lia. }
    apply Htu; [lia|].
    apply (mul_le_cancel Q) in H2 as H2'; [|exact HQ].
    assert ((2 * M + 1) * p * Q <= (2 * q + lf) * Q) as H3 by lia.
    apply (mul_le_cancel Q) in H3; [lia|exact HQ].
  - intros E.
    assert (lf = lc) as Elc.
    { destruct (Z.eq_dec lf lc) as [|Hne]; [assumption|]. specialize (Hstrict Hne). lia. }
    apply Htl; [lia|].
    apply (mul_le_cancel Q) in H1 as H1'; [|exact HQ].
    assert ((2 * q + lf) * Q <= (2 * M - 1) * p * Q) as H3 by lia.
    apply (mul_le_cancel Q) in H3; [lia|exact HQ].
Qed.

Lemma RoundsQ_scale (P Q M k d : Z) :
  0 <= k -> 0 <= d -> RoundsQ P Q M k -> RoundsQ (P * 2 ^ d) Q M (k + d).
Proof.
  intros Hk Hd (HM & Hlow & Htight & Hup & Htu & Htl).
  assert (0 < 2 ^ d) as Hp by (apply Z.pow_pos_nonneg; lia).
  unfold RoundsQ. rewrite Z.pow_add_r by lia.
  set (p := 2 ^ k) in *. set (w := 2 ^ d) in *. clearbody p w.
  repeat apply conj; try lia.
  - apply (Z.mul_le_mono_nonneg_r _ _ w) in Hlow; lia.
  - intros E. specialize (Htight E).
    apply (Z.mul_le_mono_nonneg_r _ _ w) in Htight; lia.
  - apply (Z.mul_le_mono_nonneg_r _ _ w) in Hup; lia.
  - intros E. apply Htu.
    apply (Z.mul_cancel_r _ _ w); [lia|]. lia.
  - intros E. apply Htl.
    apply (Z.mul_cancel_r _ _ w); [lia|]. lia.
Qed.

(** Rounding to nearest, ties to even, is monotone: of two values with the
    same denominator the smaller one has the smaller (exponent, mantissa). *)
Lemma RoundsQ_monotone (P P' Q M M' k k' : Z) :
  0 < Q -> 0 <= k -> 0 <= k' -> P <= P' ->
  RoundsQ P Q M k -> RoundsQ P' Q M' k' ->
  k < k' \/ (k = k' /\ M <= M').
Proof.
  intros HQ Hk Hk' HP (HM & Hlow & Htight & _ & _ & Htl)
    (HM' & _ & _ & Hup' & Htu' & _).
  assert (0 < 2 ^ k') as Hp' by (apply Z.pow_pos_nonneg; lia).
  destruct (Z.lt_trichotomy k k') as [Hlt|[Heq|Hgt]]; [now left| |].
  - (* the same exponent *)
    subst k'. destruct (Z.le_gt_cases M M') as [Hle|Hgt]; [now right|]. exfalso.
    set (w := 2 ^ k * Q) in *.
    assert (0 < w) as Hw by (unfold w; lia).
    rewrite <- !Z.mul_assoc in Hlow, Hup', Htl, Htu'. fold w in Hlow, Hup', Htl, Htu'.
    assert ((2 * M' + 1) * w <= (2 * M - 1) * w) as Hmid
        by (apply Z.mul_le_mono_nonneg_r; lia).
    assert ((2 * M - 1) * w <= (2 * M' + 1) * w) as Hmid' by lia.
    apply (mul_le_cancel w) in Hmid'; [|exact Hw].
    assert (M = M' + 1) as -> by lia.
    assert (Z.even M' = true) as E1 by (apply Htu'; lia).
    assert (Z.even (M' + 1) = true) as E2.
    { apply Htl. replace (2 * (M' + 1) - 1) with (2 * M' + 1) by lia. lia. }
    replace (M' + 1) with (Z.succ M') in E2 by lia.
    rewrite Z.even_succ, <- Z.negb_even, E1 in E2. discriminate E2.
  - (* the smaller value in the higher binade *)
    exfalso.
    replace k with (k' + (k - k')) in Hlow, Htight by lia.
    rewrite Z.pow_add_r in Hlow, Htight by lia.
    assert (2 <= 2 ^ (k - k')) as Hd.
    { change 2 with (2 ^ 1) at 1. apply Z.pow_le_mono_r; lia. }
    set (d := 2 ^ (k - k')) in *. set (w := 2 ^ k' * Q) in *.
    assert (0 < w) as Hw by (unfold w; lia).
    rewrite <- !Z.mul_assoc in Hup', Htu'. fold w in Hup', Htu'.
    assert (forall x, x * (2 ^ k' * d) * Q = x * d * w) as Hre by (intros; unfold w; ring).
    rewrite Hre in Hlow. rewrite Hre in Htight. clearbody d w.
    assert ((2 * M' + 1) * w <= (2 ^ 54 - 1) * w) as H1
        by (apply Z.mul_le_mono_nonneg_r; lia).
    destruct (Z.eq_dec M (2 ^ 52)) as [E52|N52].
    + specialize (Htight E52). subst M.
      assert ((4 * 2 ^ 52 - 1) * 2 * w <= (4 * 2 ^ 52 - 1) * d * w) as H2.
      { apply Z.mul_le_mono_nonneg_r; [lia|]. apply Z.mul_le_mono_nonneg_l; lia. }
      assert ((2 * M' + 1) * w = (2 ^ 54 - 1) * w) as H3 by lia.
      apply Z.mul_cancel_r in H3; [|lia].
      assert (M' = 2 ^ 53 - 1) as -> by lia.
      assert (Z.even (2 ^ 53 - 1) = true) as E by (apply Htu'; lia).
      discriminate E.
    + assert ((2 ^ 53 + 1) * 2 * w <= (2 * M - 1) * d * w) as H2.
      { apply Z.mul_le_mono_nonneg_r; [lia|]. apply Z.mul_le_mono_nonneg; lia. }
      lia.
Qed.

(** Division of two positive normal numbers, in the range of the normal
    numbers. *)
Lemma SFdiv_normal_spec (mx my : positive) (ex ey : Z) :
  2 ^ 52 <= Z.pos mx < 2 ^ 53 -> 2 ^ 52 <= Z.pos my < 2 ^ 53 ->
  -1020 <= ex - ey <= 1020 ->
  exists (M : positive) (k : Z),
    SF64div (S754_finite false mx ex) (S754_finite false my ey)
    = S754_finite false M (ex - ey - 53 + k)
    /\ 0 <= k <= 2
    /\ RoundsQ (Z.pos mx * 2 ^ 53) (Z.pos my) (Z.pos M) k.
Proof.
  intros Hx Hy He. unfold SF64div, SFdiv, SFdiv_core_binary.
  rewrite (Zdigits2_53 _ Hx), (Zdigits2_53 _ Hy).
  rewrite (fexp_normal (53 + ex - (53 + ey))) by lia.
  replace (Z.min (53 + ex - (53 + ey) - 53) (ex - ey)) with (ex - ey - 53) by lia.
  replace (ex - ey - (ex - ey - 53)) with 53 by lia.
  rewrite Z.shiftl_mul_pow2 by lia.
  pose proof (Z_div_mod (Z.pos mx * 2 ^ 53) (Z.pos my) ltac:(lia)) as Hdiv.
  destruct (Z.div_eucl (Z.pos mx * 2 ^ 53) (Z.pos my)) as [q r].
  destruct Hdiv as [Hq Hr].
  assert (2 ^ 52 <= q < 2 ^ 54) as Hqb.
  { assert (q * Z.pos my <= Z.pos mx * 2 ^ 53) as H1 by lia.
    assert (Z.pos mx * 2 ^ 53 < (q + 1) * Z.pos my) as H2 by lia.
    split.
    - assert (2 ^ 52 * Z.pos my < (q + 1) * Z.pos my) as H3 by nia.
      apply (mul_lt_cancel (Z.pos my)) in H3; lia.
    - assert (q * 2 ^ 52 <= q * Z.pos my) as H3 by (apply Z.mul_le_mono_nonneg_l; lia).
      assert (q * 2 ^ 52 < 2 ^ 54 * 2 ^ 52) as H4 by nia.
      apply (mul_lt_cancel (2 ^ 52)) in H4; lia. }
  destruct q as [|q|q]; [lia| |lia].
  assert (Zdigits2 (Z.pos q) - 53 = 0 \/ Zdigits2 (Z.pos q) - 53 = 1) as Hs.
  { destruct (Z.lt_ge_cases (Z.pos q) (2 ^ 53)).
    - left. rewrite (Zdigits2_53 (Z.pos q)); lia.
    - right. rewrite (Zdigits2_unique q 54); lia. }
  destruct (binary_round_aux_spec (xorb false false) q (ex - ey - 53)
              (new_location (Z.pos my) r)) as (M & k & E & Hk & HR); try lia.
  exists M, k. split; [exact E|]. split; [lia|].
  destruct (new_location_spec (Z.pos my) r ltac:(lia) Hr) as [Hl1 Hl2].
  replace (Z.pos mx * 2 ^ 53) with (Z.pos q * Z.pos my + r) by lia.
  apply (Rounds_to_Q _ _ _ _ _ (new_location (Z.pos my) r)); try assumption; lia.
Qed.

Lemma pos_iter_xO (p d : positive) : Z.pos (Pos.iter xO p d) = Z.pos p * 2 ^ Z.pos d.
Proof.
  rewrite <- Z.shiftl_mul_pow2 by lia. cbn [Z.shiftl].
  now apply Pos.iter_swap_gen.
Qed.

Lemma bounded_53 (M : positive) (E : Z) :
  2 ^ 52 <= Z.pos M < 2 ^ 53 -> -1074 <= E <= 971 -> bounded prec emax M E = true.
Proof.
  intros HM HE. unfold bounded, canonical_mantissa.
  change (Z.pos (digits2_pos M)) with (Zdigits2 (Z.pos M)).
  rewrite (Zdigits2_53 _ HM), fexp_normal by lia.
  apply andb_true_intro. split; [apply Z.eqb_eq; lia|apply Z.leb_le; unfold emax, prec; lia].
Qed.

(** The conversion of a positive [size_t] to [double]: the value is
    [n * 2^53] in units of [2^-53]. *)
Lemma binary_normalize_spec (n : Z) :
  0 < n < 2 ^ 64 ->
  exists (M : positive) (K : Z),
    binary_normalize prec emax n 0 false = S754_finite false M (K - 53)
    /\ 0 <= K <= 65
    /\ RoundsQ (n * 2 ^ 53) 1 (Z.pos M) K.
Proof.
  intros Hn. destruct n as [|p|p]; [lia| |lia].
  pose proof (Zdigits2_bounds p) as [Hd1 Hd2].
  set (d := Zdigits2 (Z.pos p)) in *.
  assert (1 <= d <= 64) as Hd.
  { assert (0 < d) by (unfold d; cbn; lia). split; [lia|].
    destruct (Z.le_gt_cases d 64); [assumption|].
    assert (2 ^ 64 <= 2 ^ (d - 1)) by (apply Z.pow_le_mono_r; lia). lia. }
  cbn [binary_normalize]. unfold binary_round.
  change (Z.pos (digits2_pos p)) with d.
  rewrite (fexp_normal (d + 0)) by lia. unfold shl_align.
  destruct (d + 0 - 53 - 0) as [|δ|δ] eqn:Eδ.
  - destruct (binary_round_aux_spec false p 0 loc_Exact) as (M & k & E & Hk & HR);
      try (fold d; lia).
    fold d in Hk. exists M, (k + 53). replace (k + 53 - 53) with (0 + k) by lia.
    split; [exact E|]. split; [lia|].
    apply RoundsQ_scale; [lia|lia|].
    replace (Z.pos p) with (Z.pos p * 1 + 0) by lia.
    apply (Rounds_to_Q _ _ _ _ _ loc_Exact); cbn [loc_floor loc_ceil]; try lia.
    now rewrite !Z.add_0_r in HR.
  - destruct (binary_round_aux_spec false p 0 loc_Exact) as (M & k & E & Hk & HR);
      try (fold d; lia).
    fold d in Hk. exists M, (k + 53). replace (k + 53 - 53) with (0 + k) by lia.
    split; [exact E|]. split; [lia|].
    apply RoundsQ_scale; [lia|lia|].
    replace (Z.pos p) with (Z.pos p * 1 + 0) by lia.
    apply (Rounds_to_Q _ _ _ _ _ loc_Exact); cbn [loc_floor loc_ceil]; try lia.
    now rewrite !Z.add_0_r in HR.
  - assert (Z.pos δ = 53 - d) as Hδ by lia.
    assert (2 ^ 52 <= Z.pos (Pos.iter xO p δ) < 2 ^ 53) as Hmz.
    { rewrite pos_iter_xO, Hδ.
      assert (2 ^ 52 = 2 ^ (d - 1) * 2 ^ (53 - d)) as ->
          by (rewrite <- Z.pow_add_r by lia; f_equal; lia).
      assert (2 ^ 53 = 2 ^ d * 2 ^ (53 - d)) as ->
          by (rewrite <- Z.pow_add_r by lia; f_equal; lia).
      assert (0 < 2 ^ (53 - d)) by (apply Z.pow_pos_nonneg; lia).
      split; [apply Z.mul_le_mono_nonneg_r; lia|apply Z.mul_lt_mono_pos_r; lia]. }
    destruct (binary_round_aux_spec false (Pos.iter xO p δ) (d + 0 - 53) loc_Exact)
      as (M & k & E & Hk & HR); try (rewrite (Zdigits2_53 _ Hmz); lia).
    rewrite (Zdigits2_53 _ Hmz) in Hk.
    exists M, (k + d). replace (k + d - 53) with (d + 0 - 53 + k) by lia.
    split; [exact E|]. split; [lia|].
    replace (Z.pos p * 2 ^ 53) with (Z.pos (Pos.iter xO p δ) * 2 ^ d).
    2:{ rewrite pos_iter_xO, Hδ, <- Z.mul_assoc, <- Z.pow_add_r by lia.
        do 2 f_equal. lia. }
    apply RoundsQ_scale; [lia|lia|].
    replace (Z.pos (Pos.iter xO p δ)) with (Z.pos (Pos.iter xO p δ) * 1 + 0) at 1 by lia.
    apply (Rounds_to_Q _ _ _ _ _ loc_Exact); cbn [loc_floor loc_ceil]; try lia.
    now rewrite !Z.add_0_r in HR.
Qed.

Lemma double_of_size_t_spec (n : nat) :
  0 < Z.of_nat n < 2 ^ 64 ->
  exists (M : positive) (K : Z),
    Prim2SF (double_of_size_t n) = S754_finite false M (K - 53)
    /\ 0 <= K <= 65
    /\ RoundsQ (Z.of_nat n * 2 ^ 53) 1 (Z.pos M) K.
Proof.
  intros Hn. destruct (binary_normalize_spec _ Hn) as (M & K & E & HK & HR).
  exists M, K. split; [|split; assumption].
  unfold double_of_size_t. rewrite E. apply Prim2SF_SF2Prim.
  cbn [valid_binary]. apply bounded_53; [apply HR|lia].
Qed.









(** ** Point3D and BoundingBox *)






Local Open Scope string_scope.
Local Open Scope list_scope.
Local Open Scope nat_scope.

(** ** The reader *)

Section ReaderProperties.
Variable stod : string -> option double.

(** *** The face loop *)

Lemma switch_code_length (code : Z) (value : string)
    (vs : list Point3D.t) (hv : list bool) :
  length (switch_code stod code value vs hv).1 = length vs
  /\ length (switch_code stod code value vs hv).2 = length hv.
Proof.
  unfold switch_code.
  repeat match goal with
         | |- context [if ?b then _ else _] => destruct b
         | |- context [match stod ?v with _ => _ end] => destruct (stod v)
         end; cbn [fst snd]; rewrite ?length_alter, ?length_insert; auto.
Qed.

(** What one iteration does to the index: it ends the loop and leaves the
    index alone, or it goes on one line further (no group code on the line)
    or two lines further (a pair, whose value line exists). *)
Lemma face_body_cases (lines : list string) (st : FaceScan) :
  (face_body stod lines st = (Break, st))
  \/ (stoi (lines !!! index st) = None
      /\ face_body stod lines st
         = (Continue, mkFaceScan (index st + 1) (vertices st) (hasVertex st)))
  \/ (exists code,
        stoi (lines !!! index st) = Some code
        /\ index st + 1 < length lines
        /\ face_body stod lines st
           = (Continue,
              mkFaceScan (index st + 2)
                (switch_code stod code (lines !!! (index st + 1))
                   (vertices st) (hasVertex st)).1
                (switch_code stod code (lines !!! (index st + 1))
                   (vertices st) (hasVertex st)).2)).
Proof.
  unfold face_body.
  destruct (String.eqb (lines !!! index st) "0"); [now left|].
  destruct (stoi (lines !!! index st)) as [code|]; [|right; left; auto].
  destruct (Nat.leb_spec (length lines) (index st + 1)); [now left|].
  right; right. exists code. repeat split; [lia|].
  now destruct (switch_code stod code _ _ _).
Qed.

Lemma face_body_index (lines : list string) (st : FaceScan) :
  match face_body stod lines st with
  | (Break, st') => st' = st
  | (Continue, st') =>
      index st' = index st + 1
      \/ (index st' = index st + 2 /\ index st + 2 <= length lines)
  end.
Proof.
  destruct (face_body_cases lines st) as [E|[[_ E]|(code & _ & Hlt & E)]];
    rewrite E; cbn [index]; auto. right. lia.
Qed.

Lemma face_loop_index (fuel : nat) (lines : list string) (st : FaceScan) :
  index st <= index (face_loop stod fuel lines st)
  /\ (index st <= length lines ->
      index (face_loop stod fuel lines st) <= length lines).
Proof.
  revert st. induction fuel as [|fuel IH]; intros st; cbn [face_loop]; [lia|].
  destruct (Nat.ltb_spec (index st) (length lines)) as [Hlt|Hge]; [|lia].
  pose proof (face_body_index lines st) as Hb.
  destruct (face_body stod lines st) as [[|] st'].
  - subst st'. lia.
  - destruct (IH st') as [H1 H2]. lia.
Qed.

Lemma face_loop_done (fuel : nat) (lines : list string) (st : FaceScan) :
  length lines - index st <= fuel ->
  face_done stod lines (face_loop stod fuel lines st).
Proof.
  revert st. induction fuel as [|fuel IH]; intros st Hfuel; cbn [face_loop].
  - left. lia.
  - destruct (Nat.ltb_spec (index st) (length lines)) as [Hlt|Hge]; [|now left].
    pose proof (face_body_index lines st) as Hb.
    destruct (face_body stod lines st) as [[|] st'] eqn:E.
    + subst st'. right. now rewrite E.
    + apply IH. lia.
Qed.

(** More iterations than [lines.size() - index] change nothing. *)
Lemma face_loop_fuel (fuel fuel' : nat) (lines : list string) (st : FaceScan) :
  length lines - index st <= fuel ->
  length lines - index st <= fuel' ->
  face_loop stod fuel lines st = face_loop stod fuel' lines st.
Proof.
  revert fuel' st. induction fuel as [|fuel IH]; intros [|fuel'] st H H';
    cbn [face_loop]; try reflexivity;
    destruct (Nat.ltb_spec (index st) (length lines)) as [Hlt|Hge];
    try reflexivity; try lia.
  pose proof (face_body_index lines st) as Hb.
  destruct (face_body stod lines st) as [[|] st']; [reflexivity|].
  apply IH; lia.
Qed.

(** The loop and the walk that collects the pairs take the same path. *)
Lemma face_loop_pairs (fuel : nat) (lines : list string) (st : FaceScan) :
  let st' := face_loop stod fuel lines st in
  (vertices st', hasVertex st')
  = switch_all stod (face_pairs fuel lines (index st)) (vertices st, hasVertex st).
Proof.
  revert st. induction fuel as [|fuel IH]; intros st; cbn [face_loop face_pairs];
    [reflexivity|].
  destruct (index st <? length lines); [|reflexivity].
  unfold face_body.
  destruct (String.eqb (lines !!! index st) "0"); [reflexivity|].
  destruct (stoi (lines !!! index st)) as [code|].
  - destruct (length lines <=? index st + 1); [reflexivity|].
    destruct (switch_code stod code _ _ _) as [vs hv] eqn:E.
    cbv zeta in IH. rewrite IH. cbn [index vertices hasVertex switch_all fold_left fst snd].
    now rewrite E.
  - cbv zeta in IH. now rewrite IH.
Qed.

Ltac case_code code :=
  unfold switch_code, code_in;
  repeat match goal with
         | |- context [(code =? ?n)%Z] => destruct (Z.eqb_spec code n) as [->|]
         end;
  cbn [orb].

(** A flag is set by the [switch] exactly when the pair is the x code of
    that vertex with a value that converts; flags are never cleared. *)
Lemma switch_code_flag (code : Z) (value : string)
    (vs : list Point3D.t) (hv : list bool) (k : nat) :
  length hv = 3 -> k < 3 ->
  (switch_code stod code value vs hv).2 !!! k = true
  <-> hv !!! k = true \/ (code = (10 + Z.of_nat k)%Z /\ is_Some (stod value)).
Proof.
  intros Hlen Hk.
  destruct hv as [|h0 [|h1 [|h2 [|]]]]; try discriminate Hlen.
  assert (k = 0 \/ k = 1 \/ k = 2) as [->|[->| ->]] by lia;
    case_code code; cbn;
    try (destruct (stod value) as [d|]; cbn);
    rewrite ?is_Some_alt; intuition (try lia; try discriminate; eauto).
Qed.

Lemma switch_all_flag (pairs : list (Z * string))
    (vs : list Point3D.t) (hv : list bool) (k : nat) :
  length hv = 3 -> k < 3 ->
  (switch_all stod pairs (vs, hv)).2 !!! k = true
  <-> hv !!! k = true
      \/ (exists value, ((10 + Z.of_nat k)%Z, value) ∈ pairs /\ is_Some (stod value)).
Proof.
  revert vs hv. induction pairs as [|[code value] pairs IH]; intros vs hv Hlen Hk.
  - cbn. split; [auto|]. intros [H|(v & H & _)]; [auto|]. now apply elem_of_nil in H.
  - unfold switch_all. cbn [fold_left fst snd].
    destruct (switch_code stod code value vs hv) as [vs' hv'] eqn:E.
    pose proof (switch_code_length code value vs hv) as [_ Hlen'].
    pose proof (switch_code_flag code value vs hv k Hlen Hk) as Hflag.
    rewrite E in Hlen', Hflag. cbn [fst snd] in Hlen', Hflag.
    fold (switch_all stod pairs (vs', hv')).
    rewrite IH by congruence. rewrite Hflag. split.
    + intros [[H|[-> H]]|(v & H & Hv)]; [auto| |].
      * right. exists value. split; [apply elem_of_cons; auto|auto].
      * right. exists v. split; [apply elem_of_cons; auto|auto].
    + intros [H|(v & H & Hv)]; [auto|].
      apply elem_of_cons in H as [H|H].
      * injection H as <- <-. auto.
      * right. eauto.
Qed.

Lemma parse3DFaceFromLines_buffer (lines : list string) (index0 : nat) :
  let buffer := switch_all stod (consumed_pairs lines index0)
                  (vertices (face_init index0), hasVertex (face_init index0)) in
  (parse3DFaceFromLines stod lines index0).2 = face_result buffer.1 buffer.2.
Proof.
  cbv zeta. unfold parse3DFaceFromLines, consumed_pairs. cbn [snd].
  pose proof (face_loop_pairs (length lines - index0) lines (face_init index0)) as H.
  cbv zeta in H. change (index (face_init index0)) with index0 in H.
  now rewrite <- H.
Qed.

(** What an iteration of the scanning loop does to the mesh: nothing, or it
    appends the triangle of a successful [parse3DFaceFromLines] and counts
    it. *)
Lemma scan_body_mesh (callback : bool) (fileSize : nat) (lines : list string)
    (st : Scan) :
  let st' := scan_body stod callback fileSize lines st in
  (meshData st' = meshData st /\ entityCount st' = entityCount st
   /\ calls st' = calls st)
  \/ (exists triangle,
        inEntitiesSection st = true
        /\ lines !!! scan_i st = "0" /\ lines !!! (scan_i st + 1) = "3DFACE"
        /\ scan_i st + 1 < length lines
        /\ parse3DFaceFromLines stod lines (scan_i st + 2) = (scan_i st', Some triangle)
        /\ meshData st' = MeshData.addTriangle (meshData st) triangle
        /\ entityCount st' = S (entityCount st)
        /\ inEntitiesSection st' = true).
Proof.
  cbv zeta. unfold scan_body.
  destruct (String.eqb_spec (lines !!! scan_i st) "0") as [E0|]; cbn [andb]; [|now left].
  destruct (Nat.ltb_spec (scan_i st + 1) (length lines)); [|now left].
  destruct (String.eqb (lines !!! (scan_i st + 1)) "SECTION" && _).
  { destruct (_ && _); now left. }
  destruct (String.eqb (lines !!! (scan_i st + 1)) "ENDSEC"); [now left|].
  destruct (inEntitiesSection st) eqn:Ein; cbn [andb]; [|now left].
  destruct (String.eqb_spec (lines !!! (scan_i st + 1)) "3DFACE") as [E1|]; [|now left].
  destruct (parse3DFaceFromLines stod lines (scan_i st + 2)) as [next [triangle|]] eqn:Ep;
    [|now left].
  right. exists triangle. cbn. repeat split; auto.
Qed.

(** C1. [parse3DFaceFromLines] returns true exactly when each of the three
    vertex slots was marked, a slot being marked exactly when some consumed
    pair has its x code (10, 11 or 12) and a value that converts to a
    double; the triangle is then made of the three buffered vertices in
    the order 0, 1, 2. The scanning loop appends a triangle only when the
    subroutine returned one, so a face that fails adds nothing. *)
Theorem parse3DFace_succeeds_iff_populated (lines : list string) (index0 : nat) :
  let pairs := consumed_pairs lines index0 in
  let buffer :=
    switch_all stod pairs
      ([Point3D.origin; Point3D.origin; Point3D.origin], [false; false; false]) in
  let populated (k : nat) :=
    exists value, ((10 + Z.of_nat k)%Z, value) ∈ pairs /\ is_Some (stod value) in
  (forall k, k < 3 -> buffer.2 !!! k = true <-> populated k)
  /\ (is_Some (parse3DFaceFromLines stod lines index0).2
      <-> populated 0 /\ populated 1 /\ populated 2)
  /\ (forall triangle,
        (parse3DFaceFromLines stod lines index0).2 = Some triangle ->
        triangle = Triangle.mk (buffer.1 !!! 0) (buffer.1 !!! 1) (buffer.1 !!! 2))
  /\ (forall callback fileSize st,
        (parse3DFaceFromLines stod lines (scan_i st + 2)).2 = None ->
        meshData (scan_body stod callback fileSize lines st) = meshData st
        /\ entityCount (scan_body stod callback fileSize lines st) = entityCount st).
Proof.
  intros pairs buffer populated.
  assert (forall k, k < 3 -> buffer.2 !!! k = true <-> populated k) as Hflag.
  { intros k Hk. unfold buffer. rewrite switch_all_flag by (auto; lia).
    split; [|auto]. intros [H|H]; [|exact H].
    destruct k as [|[|[|]]]; try discriminate H; lia. }
  pose proof (parse3DFaceFromLines_buffer lines index0) as Hp.
  cbv zeta in Hp. change (vertices (face_init index0), hasVertex (face_init index0))
    with ([Point3D.origin; Point3D.origin; Point3D.origin], [false; false; false]) in Hp.
  fold pairs in Hp. fold buffer in Hp.
  split; [exact Hflag|]. split; [|split].
  - rewrite Hp, <- !Hflag by lia. unfold face_result.
    destruct (buffer.2 !!! 0), (buffer.2 !!! 1), (buffer.2 !!! 2); cbn;
      rewrite is_Some_alt; intuition discriminate.
  - intros triangle. rewrite Hp. unfold face_result.
    destruct (_ && _); [congruence|discriminate].
  - intros callback fileSize st Hnone.
    destruct (scan_body_mesh callback fileSize lines st)
      as [(Hm & Hc & _)|(t & _ & _ & _ & _ & Hsome & _)]; [auto|].
    rewrite Hsome in Hnone. discriminate.
Qed.

(** *** Malformed lines and the fourth vertex *)

(** C4. Inside [parse3DFaceFromLines], a line that is no integer moves the
    index one line further and leaves the buffer alone; a value line that
    is no number, after the x, y or z code of a vertex, stores 0.0 in that
    coordinate, sets no flag and moves the index two lines further. In both
    cases the loop goes on with the next iteration. *)
Theorem face_body_recovers (lines : list string) (st : FaceScan) :
  (lines !!! index st <> "0" ->
   stoi (lines !!! index st) = None ->
   face_body stod lines st
   = (Continue, mkFaceScan (index st + 1) (vertices st) (hasVertex st)))
  /\ (forall (k : nat) (setter : double -> Point3D.t -> Point3D.t) (first : Z),
        (first = 10%Z /\ setter = Point3D.set_x)
        \/ (first = 20%Z /\ setter = Point3D.set_y)
        \/ (first = 30%Z /\ setter = Point3D.set_z) ->
        k < 3 ->
        stoi (lines !!! index st) = Some (first + Z.of_nat k)%Z ->
        lines !!! index st <> "0" ->
        index st + 1 < length lines ->
        stod (lines !!! (index st + 1)) = None ->
        face_body stod lines st
        = (Continue,
           mkFaceScan (index st + 2) (alter (setter 0%float) k (vertices st))
             (hasVertex st)))
  /\ (forall fuel st',
        index st < length lines ->
        face_body stod lines st = (Continue, st') ->
        face_loop stod (S fuel) lines st = face_loop stod fuel lines st').
Proof.
  split; [|split].
  - intros H0 Hi. unfold face_body.
    destruct (String.eqb_spec (lines !!! index st) "0"); [contradiction|].
    now rewrite Hi.
  - intros k setter first Hc Hk Hi H0 Hlt Hd. unfold face_body.
    destruct (String.eqb_spec (lines !!! index st) "0"); [contradiction|].
    rewrite Hi. destruct (Nat.leb_spec (length lines) (index st + 1)); [lia|].
    assert (k = 0 \/ k = 1 \/ k = 2) as Hk' by lia.
    unfold switch_code. rewrite Hd.
    destruct Hc as [[-> ->]|[[-> ->]|[-> ->]]];
      destruct Hk' as [->|[->| ->]]; reflexivity.
  - intros fuel st' Hlt Hb. cbn [face_loop].
    destruct (Nat.ltb_spec (index st) (length lines)); [|lia].
    now rewrite Hb.
Qed.

(** The [switch] has no case for a code outside the nine vertex codes. *)
Lemma switch_code_other (code : Z) (value : string)
    (vs : list Point3D.t) (hv : list bool) :
  vertex_code code = false -> switch_code stod code value vs hv = (vs, hv).
Proof.
  unfold vertex_code, switch_code. intros H.
  apply orb_false_iff in H as [H H3]. apply orb_false_iff in H as [H1 H2].
  now rewrite H1, H2, H3.
Qed.

Lemma switch_all_filter (keep : Z -> bool) (pairs : list (Z * string))
    (buffer : list Point3D.t * list bool) :
  (forall code, keep code = false -> vertex_code code = false) ->
  switch_all stod (List.filter (fun pair => keep pair.1) pairs) buffer
  = switch_all stod pairs buffer.
Proof.
  intros Hkeep. revert buffer.
  induction pairs as [|[code value] pairs IH]; intros [vs hv]; [reflexivity|].
  cbn [List.filter fst]. destruct (keep code) eqn:E.
  - unfold switch_all. cbn [fold_left]. apply IH.
  - rewrite IH. unfold switch_all. cbn [fold_left fst snd].
    rewrite switch_code_other by auto. reflexivity.
Qed.

(** C6. In a 3DFACE, a group code 13, 23 or 33 with its value line is
    consumed as a pair (the index moves two lines further) and the switch
    does nothing with it: the buffer and the flags are unchanged, and the
    result of [parse3DFaceFromLines] is the one obtained from the consumed
    pairs with the fourth-vertex pairs removed. *)
Theorem fourth_vertex_ignored (lines : list string) :
  (forall (st : FaceScan) (code : Z),
     fourth_vertex_code code = true ->
     lines !!! index st <> "0" ->
     stoi (lines !!! index st) = Some code ->
     index st + 1 < length lines ->
     face_body stod lines st
     = (Continue, mkFaceScan (index st + 2) (vertices st) (hasVertex st)))
  /\ (forall index0 : nat,
        let kept :=
          List.filter (fun pair => negb (fourth_vertex_code pair.1))
            (consumed_pairs lines index0) in
        let buffer :=
          switch_all stod kept
            ([Point3D.origin; Point3D.origin; Point3D.origin], [false; false; false]) in
        (parse3DFaceFromLines stod lines index0).2 = face_result buffer.1 buffer.2).
Proof.
  assert (forall code, fourth_vertex_code code = true -> vertex_code code = false) as H4.
  { intros code. unfold fourth_vertex_code, vertex_code, code_in.
    repeat match goal with
           | |- context [(code =? ?n)%Z] => destruct (Z.eqb_spec code n) as [->|]
           end; cbn; congruence. }
  split.
  - intros st code Hc H0 Hi Hlt. unfold face_body.
    destruct (String.eqb_spec (lines !!! index st) "0"); [contradiction|].
    rewrite Hi. destruct (Nat.leb_spec (length lines) (index st + 1)); [lia|].
    now rewrite switch_code_other by auto.
  - intros index0 kept buffer. unfold buffer, kept.
    rewrite (switch_all_filter (fun code => negb (fourth_vertex_code code))).
    + apply parse3DFaceFromLines_buffer.
    + intros code Hc. apply H4. now apply negb_false_iff.
Qed.

(** *** The scanning loop *)

Lemma parse3DFaceFromLines_index (lines : list string) (index0 : nat) :
  index0 <= (parse3DFaceFromLines stod lines index0).1
  /\ (index0 <= length lines ->
      (parse3DFaceFromLines stod lines index0).1 <= length lines).
Proof.
  unfold parse3DFaceFromLines. cbn [fst].
  apply (face_loop_index _ lines (face_init index0)).
Qed.

(** The cursor and the section flag after one iteration. *)
Lemma scan_body_cursor (callback : bool) (fileSize : nat) (lines : list string)
    (st : Scan) :
  let st' := scan_body stod callback fileSize lines st in
  (at_entities_start lines (scan_i st)
   /\ scan_i st' = scan_i st + 4 /\ inEntitiesSection st' = true)
  \/ (at_endsec lines (scan_i st)
      /\ scan_i st' = scan_i st + 2 /\ inEntitiesSection st' = false)
  \/ (~ at_entities_start lines (scan_i st) /\ ~ at_endsec lines (scan_i st)
      /\ inEntitiesSection st' = inEntitiesSection st
      /\ (scan_i st' = scan_i st + 1
          \/ (inEntitiesSection st = true
              /\ lines !!! scan_i st = "0" /\ lines !!! (scan_i st + 1) = "3DFACE"
              /\ scan_i st + 1 < length lines
              /\ scan_i st' = (parse3DFaceFromLines stod lines (scan_i st + 2)).1))).
Proof.
  cbv zeta. unfold scan_body, at_entities_start, at_endsec.
  destruct (String.eqb_spec (lines !!! scan_i st) "0") as [E0|N0]; cbn [andb];
    [|right; right; cbn; intuition congruence].
  destruct (Nat.ltb_spec (scan_i st + 1) (length lines)) as [H1|H1];
    [|right; right; cbn; intuition lia].
  destruct (String.eqb_spec (lines !!! (scan_i st + 1)) "SECTION") as [Es|Ns];
    destruct (Nat.ltb_spec (scan_i st + 3) (length lines)) as [H3|H3];
    cbn [andb];
    try (destruct (String.eqb_spec (lines !!! (scan_i st + 2)) "2") as [E2|N2];
         destruct (String.eqb_spec (lines !!! (scan_i st + 3)) "ENTITIES") as [E3|N3];
         cbn [andb]; [left; cbn; intuition congruence| | |];
         right; right; cbn; intuition congruence);
    (destruct (String.eqb_spec (lines !!! (scan_i st + 1)) "ENDSEC") as [Ee|Ne];
     [try congruence; right; left; cbn; intuition congruence|]);
    right; right;
    (destruct (inEntitiesSection st) eqn:Ein; cbn [andb];
     [|cbn; rewrite Ein; intuition (try lia; congruence)]);
    (destruct (String.eqb_spec (lines !!! (scan_i st + 1)) "3DFACE") as [Ef|Nf];
     [|cbn; rewrite Ein; intuition (try lia; congruence)]);
    destruct (parse3DFaceFromLines stod lines (scan_i st + 2)) as [next [t|]];
    cbn; rewrite ?Ein; intuition (try lia; congruence).
Qed.

Lemma scan_body_advances (callback : bool) (fileSize : nat) (lines : list string)
    (st : Scan) :
  scan_i st < length lines ->
  scan_i st < scan_i (scan_body stod callback fileSize lines st) <= length lines.
Proof.
  intros Hlt.
  destruct (scan_body_cursor callback fileSize lines st)
    as [((H3 & _) & -> & _)|[((H1 & _) & -> & _)|(_ & _ & _ & [->|(_ & _ & _ & H1 & ->)])]];
    try lia.
  pose proof (parse3DFaceFromLines_index lines (scan_i st + 2)). lia.
Qed.

Lemma scan_loop_fuel (fuel fuel' : nat) (callback : bool) (fileSize : nat)
    (lines : list string) (st : Scan) :
  length lines - scan_i st <= fuel ->
  length lines - scan_i st <= fuel' ->
  scan_loop stod fuel callback fileSize lines st
  = scan_loop stod fuel' callback fileSize lines st.
Proof.
  revert fuel' st. induction fuel as [|fuel IH]; intros [|fuel'] st H H';
    cbn [scan_loop]; try reflexivity;
    destruct (Nat.ltb_spec (scan_i st) (length lines)) as [Hlt|Hge];
    try reflexivity; try lia.
  pose proof (scan_body_advances callback fileSize lines st Hlt).
  apply IH; lia.
Qed.

Lemma scan_loop_exhausts (fuel : nat) (callback : bool) (fileSize : nat)
    (lines : list string) (st : Scan) :
  length lines - scan_i st <= fuel ->
  scan_i st <= length lines ->
  scan_i (scan_loop stod fuel callback fileSize lines st) = length lines.
Proof.
  revert st. induction fuel as [|fuel IH]; intros st H Hle; cbn [scan_loop]; [lia|].
  destruct (Nat.ltb_spec (scan_i st) (length lines)) as [Hlt|Hge]; [|lia].
  pose proof (scan_body_advances callback fileSize lines st Hlt).
  apply IH; lia.
Qed.

(** A property kept by every iteration holds when the loop ends. *)
Lemma scan_loop_invariant (P : Scan -> Prop) (callback : bool) (fileSize : nat)
    (lines : list string) :
  (forall st, scan_i st < length lines -> P st ->
              P (scan_body stod callback fileSize lines st)) ->
  forall fuel st, P st -> P (scan_loop stod fuel callback fileSize lines st).
Proof.
  intros Hstep fuel. induction fuel as [|fuel IH]; intros st HP; cbn [scan_loop]; [auto|].
  destruct (Nat.ltb_spec (scan_i st) (length lines)); auto.
Qed.

(** C2. The section flag starts false. An iteration sets it exactly when
    the cursor is on the four lines 0, SECTION, 2, ENTITIES, and clears it
    exactly when the cursor is on 0, ENDSEC. The mesh changes only in an
    iteration that starts with the flag set and the cursor on 0, 3DFACE;
    with the flag false nothing is appended, counted or reported, and a
    3DFACE marker is stepped over one line at a time. *)
Theorem entities_flag_gates_faces (callback : bool) (fileSize : nat)
    (lines : list string) (st : Scan) :
  let st' := scan_body stod callback fileSize lines st in
  inEntitiesSection scan_init = false
  /\ (at_entities_start lines (scan_i st) -> inEntitiesSection st' = true)
  /\ (inEntitiesSection st = false -> inEntitiesSection st' = true ->
      at_entities_start lines (scan_i st))
  /\ (at_endsec lines (scan_i st) -> inEntitiesSection st' = false)
  /\ (inEntitiesSection st = true -> inEntitiesSection st' = false ->
      at_endsec lines (scan_i st))
  /\ (inEntitiesSection st = false ->
      meshData st' = meshData st /\ entityCount st' = entityCount st
      /\ calls st' = calls st
      /\ (lines !!! (scan_i st + 1) = "3DFACE" -> scan_i st' = scan_i st + 1))
  /\ (meshData st' <> meshData st ->
      inEntitiesSection st = true
      /\ lines !!! scan_i st = "0" /\ lines !!! (scan_i st + 1) = "3DFACE").
Proof.
  intros st'.
  pose proof (scan_body_cursor callback fileSize lines st) as Hc.
  pose proof (scan_body_mesh callback fileSize lines st) as Hm.
  cbv zeta in Hc, Hm. fold st' in Hc, Hm.
  split; [reflexivity|]. repeat apply conj.
  - intros Hs. destruct Hc as [(_ & _ & H)|[((_ & _ & He) & _)|(Hn & _)]];
      [exact H| |contradiction].
    destruct Hs as (_ & _ & Hs & _). congruence.
  - intros H0 H1. destruct Hc as [(H & _)|[(_ & _ & H)|(_ & _ & H & _)]];
      [exact H|congruence|congruence].
  - intros He. destruct Hc as [((_ & _ & Hs & _) & _)|[(_ & _ & H)|(_ & Hn & _)]];
      [|exact H|contradiction].
    destruct He as (_ & _ & He). congruence.
  - intros H1 H0. destruct Hc as [(_ & _ & H)|[(H & _)|(_ & _ & H & _)]];
      [congruence|exact H|congruence].
  - intros H0. destruct Hm as [(Hmesh & Hcount & Hcalls)|(t & H & _)]; [|congruence].
    repeat apply conj; try assumption. intros Hf.
    destruct Hc as [((_ & _ & Hs & _) & _)|[((_ & _ & He) & _)|(_ & _ & _ & [H|(H & _)])]];
      congruence.
  - intros Hne. destruct Hm as [(H & _)|(t & Hin & E0 & Ef & _)]; [congruence|].
    auto.
Qed.

(** *** Whole parses *)

Lemma parseFile_unfold (reader : DXFReader) (content : string) :
  parseFile stod reader (Some content)
  = let st := final_scan stod (progressCallback_ reader) content in
    mkOutcome (mkDXFReader (progressCallback_ reader) (entityCount st))
      (reportProgress (progressCallback_ reader) 1%float (calls st))
      (if MeshData.isEmpty (meshData st) then inl NoEntitiesFound
       else inr (meshData st)).
Proof. reflexivity. Qed.

(** The counter is the number of triangles, all along the scan. *)
Lemma final_scan_count (callback : bool) (content : string) :
  entityCount (final_scan stod callback content)
  = MeshData.getTriangleCount (meshData (final_scan stod callback content)).
Proof.
  unfold final_scan.
  apply (scan_loop_invariant
           (fun st => entityCount st = MeshData.getTriangleCount (meshData st)));
    [|reflexivity].
  intros st _ Hinv.
  destruct (scan_body_mesh callback (String.length content) (read_lines content) st)
    as [(Hm & Hc & _)|(t & _ & _ & _ & _ & _ & Hm & Hc & _)]; rewrite Hm, Hc; [exact Hinv|].
  unfold MeshData.getTriangleCount, MeshData.addTriangle in *. cbn [MeshData.triangles].
  rewrite length_app. cbn. lia.
Qed.

(** Without a line [3DFACE], or without the lines 0, SECTION, 2, ENTITIES,
    the scan leaves the mesh empty. *)
Lemma final_scan_no_face (callback : bool) (content : string) :
  "3DFACE" ∉ read_lines content ->
  meshData (final_scan stod callback content) = MeshData.empty.
Proof.
  intros Hno. unfold final_scan.
  apply (scan_loop_invariant (fun st => meshData st = MeshData.empty));
    [|reflexivity].
  intros st _ Hinv.
  destruct (scan_body_mesh callback (String.length content) (read_lines content) st)
    as [(Hm & _)|(t & _ & _ & Hf & Hlt & _)]; [congruence|].
  exfalso. apply Hno. rewrite <- Hf. now apply list_elem_of_lookup_total_2.
Qed.

Lemma final_scan_no_section (callback : bool) (content : string) :
  (forall i, ~ at_entities_start (read_lines content) i) ->
  meshData (final_scan stod callback content) = MeshData.empty.
Proof.
  intros Hno. unfold final_scan.
  apply (scan_loop_invariant
           (fun st => inEntitiesSection st = false /\ meshData st = MeshData.empty));
    [|split; reflexivity].
  intros st _ [Hflag Hinv].
  pose proof (scan_body_cursor callback (String.length content) (read_lines content) st)
    as Hc.
  pose proof (scan_body_mesh callback (String.length content) (read_lines content) st)
    as Hm.
  cbv zeta in Hc, Hm. split.
  - destruct Hc as [(H & _)|[(_ & _ & H)|(_ & _ & H & _)]];
      [now apply Hno in H|exact H|congruence].
  - destruct Hm as [(H & _)|(t & H & _)]; congruence.
Qed.

(** C3. When the scan ends with no triangle in the mesh, the read fails
    with NoEntitiesFound; a mesh that is returned has at least one
    triangle. An empty file, a file without a 3DFACE line and a file
    without the lines 0, SECTION, 2, ENTITIES all end that way. *)
Theorem empty_mesh_is_NoEntitiesFound (reader : DXFReader) (content : string) :
  let o := readFile stod reader (RegularFile (Some content)) in
  (MeshData.isEmpty (meshData (final_scan stod (progressCallback_ reader) content)) = true ->
   result o = inl NoEntitiesFound)
  /\ (forall mesh, result o = inr mesh ->
                   MeshData.isEmpty mesh = false /\ 0 < MeshData.getTriangleCount mesh)
  /\ (content = "" -> result o = inl NoEntitiesFound)
  /\ ("3DFACE" ∉ read_lines content -> result o = inl NoEntitiesFound)
  /\ ((forall i, ~ at_entities_start (read_lines content) i) ->
      result o = inl NoEntitiesFound).
Proof.
  cbv zeta. cbn [readFile]. rewrite parseFile_unfold. cbv zeta. cbn [result].
  set (st := final_scan stod (progressCallback_ reader) content).
  assert (meshData st = MeshData.empty -> 
          (if MeshData.isEmpty (meshData st) then inl NoEntitiesFound
           else inr (meshData st)) = inl NoEntitiesFound :> DXFReaderException + MeshData.t)
    as Hempty by (now intros ->).
  repeat apply conj.
  - now intros ->.
  - intros mesh. destruct (MeshData.isEmpty (meshData st)) eqn:E; [discriminate|].
    intros [= <-]. split; [exact E|].
    unfold MeshData.isEmpty, MeshData.getTriangleCount in *.
    destruct (MeshData.triangles (meshData st)); [discriminate|cbn; lia].
  - intros ->. reflexivity.
  - intros H. apply Hempty. now apply final_scan_no_face.
  - intros H. apply Hempty. now apply final_scan_no_section.
Qed.

(** C8. [parseFile] starts the counter at zero whatever the reader held,
    and an iteration adds one to it exactly when it appends a triangle; so
    after a read that returns a mesh, [getLastEntityCount] is the number
    of triangles of that mesh. *)
Theorem entity_count_is_triangle_count (reader : DXFReader) (path : path_status)
    (mesh : MeshData.t) :
  result (readFile stod reader path) = inr mesh ->
  getLastEntityCount (reader_after (readFile stod reader path))
  = MeshData.getTriangleCount mesh
  /\ entityCount scan_init = 0
  /\ (forall callback fileSize lines st,
        let st' := scan_body stod callback fileSize lines st in
        (meshData st' = meshData st /\ entityCount st' = entityCount st)
        \/ (exists triangle,
              meshData st' = MeshData.addTriangle (meshData st) triangle
              /\ entityCount st' = S (entityCount st))).
Proof.
  intros Hres. repeat apply conj.
  - destruct path as [| |[content|]]; try discriminate Hres.
    cbn [readFile] in *. rewrite parseFile_unfold in *. cbv zeta in *.
    cbn [result reader_after] in *. unfold getLastEntityCount. cbn [lastEntityCount_].
    destruct (MeshData.isEmpty _); [discriminate|]. injection Hres as <-.
    apply final_scan_count.
  - reflexivity.
  - intros callback fileSize lines st.
    destruct (scan_body_mesh callback fileSize lines st)
      as [(Hm & Hc & _)|(t & _ & _ & _ & _ & _ & Hm & Hc & _)]; [left|right]; eauto.
Qed.

(** C7. The scan ends. An iteration of the face loop either ends the loop
    with the index unchanged or moves the index one or two lines forward,
    so the index never goes back and the [lines.size() - index] iterations
    [parse3DFaceFromLines] is given suffice. An iteration of the scanning
    loop moves the cursor strictly forward, never past the end, so the
    loop ends with the cursor on [lines.size()]. *)
Theorem scanning_terminates (lines : list string) :
  (forall st,
     match face_body stod lines st with
     | (Break, st') => st' = st
     | (Continue, st') => index st' = index st + 1 \/ index st' = index st + 2
     end)
  /\ (forall fuel st, index st <= index (face_loop stod fuel lines st))
  /\ (forall index0 fuel,
        length lines - index0 <= fuel ->
        face_loop stod fuel lines (face_init index0)
        = face_loop stod (length lines - index0) lines (face_init index0)
        /\ face_done stod lines (face_loop stod fuel lines (face_init index0)))
  /\ (forall callback fileSize st,
        scan_i st < length lines ->
        scan_i st < scan_i (scan_body stod callback fileSize lines st) <= length lines)
  /\ (forall callback fileSize fuel,
        length lines <= fuel ->
        scan_loop stod fuel callback fileSize lines scan_init
        = scan_loop stod (length lines) callback fileSize lines scan_init
        /\ scan_i (scan_loop stod fuel callback fileSize lines scan_init)
           = length lines).
Proof.
  repeat apply conj.
  - intros st. pose proof (face_body_index lines st) as H.
    destruct (face_body stod lines st) as [[|] st']; [exact H|]. tauto.
  - intros fuel st. apply face_loop_index.
  - intros index0 fuel H. split.
    + apply face_loop_fuel; cbn [face_init index]; lia.
    + apply face_loop_done. cbn [face_init index]. lia.
  - intros callback fileSize st. apply scan_body_advances.
  - intros callback fileSize fuel H. split.
    + apply scan_loop_fuel; cbn [scan_init scan_i]; lia.
    + apply scan_loop_exhausts; cbn [scan_init scan_i]; lia.
Qed.

Lemma scan_body_calls (callback : bool) (fileSize : nat) (lines : list string)
    (st : Scan) :
  let st' := scan_body stod callback fileSize lines st in
  calls st' = calls st
  \/ calls st'
     = reportProgress callback (progress_fraction (length lines) (scan_i st')) (calls st).
Proof.
  cbv zeta. unfold scan_body.
  repeat match goal with
         | |- context [if ?b then _ else _] => destruct b; cbn [calls scan_i scan_goto scan_section]; auto
         | |- context [match parse3DFaceFromLines ?s ?l ?i with _ => _ end] =>
             destruct (parse3DFaceFromLines s l i) as [next [t|]];
             cbn [calls scan_i scan_goto scan_section]; auto
         end.
Qed.

Lemma calls_invariant_step (callback : bool) (fileSize : nat) (lines : list string)
    (st : Scan) :
  scan_i st < length lines ->
  calls_invariant lines st ->
  calls_invariant lines (scan_body stod callback fileSize lines st).
Proof.
  intros Hlt (Hle & positions & Hcalls & Hbound & Hsorted).
  pose proof (scan_body_advances callback fileSize lines st Hlt) as Hadv.
  split; [lia|].
  destruct (scan_body_calls callback fileSize lines st) as [E|E];
    [|destruct callback; cbn [reportProgress] in E].
  - exists positions. rewrite E. repeat apply conj; auto.
    intros i Hi. apply Hbound in Hi. lia.
  - exists (positions ++ [scan_i (scan_body stod true fileSize lines st)]).
    rewrite E, Hcalls, map_app. repeat apply conj; [reflexivity| |].
    + intros i Hi. apply elem_of_app in Hi as [Hi|Hi].
      * apply Hbound in Hi. lia.
      * apply list_elem_of_singleton in Hi. lia.
    + intros i j a b Hij Ha Hb.
      destruct (Nat.lt_ge_cases j (length positions)) as [Hj|Hj].
      * rewrite lookup_app_l in Ha, Hb by lia. eauto.
      * rewrite lookup_app_r in Hb by lia.
        apply list_lookup_singleton_Some in Hb as [_ <-].
        destruct (Nat.lt_ge_cases i (length positions)) as [Hi|Hi].
        -- rewrite lookup_app_l in Ha by lia.
           apply list_elem_of_lookup_2 in Ha. apply Hbound in Ha. lia.
        -- rewrite lookup_app_r in Ha by lia.
           apply list_lookup_singleton_Some in Ha as [_ <-]. lia.
  - exists positions. rewrite E. repeat apply conj; auto.
    intros i Hi. apply Hbound in Hi. lia.
Qed.

Lemma final_scan_calls (callback : bool) (content : string) :
  calls_invariant (read_lines content) (final_scan stod callback content).
Proof.
  unfold final_scan.
  apply (scan_loop_invariant (calls_invariant (read_lines content))).
  - intros st Hlt. now apply calls_invariant_step.
  - split; [cbn; lia|]. exists []. repeat apply conj; [reflexivity| |].
    + intros i Hi. now apply elem_of_nil in Hi.
    + intros i j a b _ Ha. now rewrite lookup_nil in Ha.
Qed.

End ReaderProperties.

(** ** The reader on sample files *)

Lemma pairwise_leb_nondecreasing (values : list double) :
  pairwise_leb values = true -> nondecreasing values.
Proof.
  induction values as [|v rest IH]; intros H i j a b Hij Ha Hb.
  - now rewrite lookup_nil in Ha.
  - cbn [pairwise_leb] in H. apply andb_true_iff in H as [H Hrest].
    apply andb_true_iff in H as [Hv Hall].
    destruct i as [|i], j as [|j]; cbn in Ha, Hb.
    + now injection Ha as <-; injection Hb as <-.
    + injection Ha as <-. rewrite forallb_forall in Hall. apply Hall.
      apply list_elem_of_In. now apply list_elem_of_lookup_2 in Hb.
    + lia.
    + apply (IH Hrest i j); [lia|assumption|assumption].
Qed.

Lemma entity_count_is_triangle_count_witness :
  let o := readFile stod_decimal newDXFReader (RegularFile (Some two_triangles_dxf)) in
  exists mesh,
    result o = inr mesh
    /\ MeshData.getTriangleCount mesh = 2
    /\ getLastEntityCount (reader_after o) = 2.
Proof.
  cbv zeta.
  destruct (result (readFile stod_decimal newDXFReader (RegularFile (Some two_triangles_dxf))))
    as [e|mesh] eqn:E; [vm_compute in E; discriminate E|].
  exists mesh. split; [reflexivity|].
  destruct (entity_count_is_triangle_count stod_decimal newDXFReader _ mesh E) as [Hc _].
  rewrite Hc. vm_compute in E. injection E as <-. split; reflexivity.
Defined.

(** A face with a stray line and a value that is no number: the stray line
    is stepped over, the bad y becomes 0.0, and the face is still complete. *)
Example face_with_malformed_lines :
  parse3DFaceFromLines stod_decimal
    ["stray"; "10"; "1.5"; "20"; "oops"; "11"; "2"; "12"; "3"; "0"; "EOF"] 0
  = (9, Some (Triangle.mk (Point3D.mk 1.5 0 0) (Point3D.mk 2 0 0) (Point3D.mk 3 0 0))%float).
Proof. vm_compute. reflexivity. Qed.

(** A face whose third vertex has no x is dropped; the index stops at the
    next [0] line. *)
Example face_missing_vertex :
  parse3DFaceFromLines stod_decimal
    ["10"; "1"; "11"; "2"; "22"; "5"; "32"; "6"; "0"; "EOF"] 0
  = (8, None).
Proof. vm_compute. reflexivity. Qed.

(** A complete face outside an ENTITIES section yields no triangle. *)
Example face_outside_section :
  let content :=
    file_of_lines (["0"; "3DFACE"; "10"; "0"; "11"; "1"; "12"; "0"] ++ entities_footer) in
  result (readFile stod_decimal newDXFReader (RegularFile (Some content)))
  = inl NoEntitiesFound.
Proof. vm_compute. reflexivity. Qed.

(** The triangle of the unit tests' single-triangle file. *)
Example single_triangle_read :
  let o := readFile stod_decimal (setProgressCallback newDXFReader)
             (RegularFile (Some single_triangle_dxf)) in
  result o
  = inr (MeshData.mk
           [Triangle.mk (Point3D.mk 0 0 0) (Point3D.mk 10 0 0)
              (Point3D.mk 5 (8660254 / 1000000) 0)]%float)
  /\ getLastEntityCount (reader_after o) = 1
  /\ progress_calls o = [1%float].
Proof. vm_compute. repeat split; reflexivity. Qed.

(** * Further properties of the code *)

Local Open Scope Z_scope.

(** ** More on the order of doubles *)

Lemma key_lt_irrefl (k : Z * Z * Z) : ~ key_lt k k.
Proof. unfold key_lt. lia. Qed.

Lemma key_lt_asym (k k' : Z * Z * Z) : key_lt k k' -> ~ key_lt k' k.
Proof. unfold key_lt. lia. Qed.

Lemma key_leb (a b : float) :
  Prim2SF a <> S754_nan -> Prim2SF b <> S754_nan ->
  key_le (SF_key (Prim2SF a)) (SF_key (Prim2SF b)) -> (a <=? b)%float = true.
Proof.
  intros Ha Hb Hle. rewrite FloatAxioms.leb_spec. unfold SFleb.
  pose proof (SFcompare_key _ _ Ha Hb) as Hk.
  destruct (SFcompare (Prim2SF a) (Prim2SF b)) as [[]|]; try reflexivity;
    [|contradiction].
  exfalso. destruct Hle as [Hlt|Heq].
  - exact (key_lt_asym _ _ Hlt Hk).
  - rewrite Heq in Hk. exact (key_lt_irrefl _ Hk).
Qed.

Lemma leb_trans (a b c : float) :
  (a <=? b)%float = true -> (b <=? c)%float = true -> (a <=? c)%float = true.
Proof.
  intros H1 H2. apply leb_key in H1 as (Ha & Hb & H1).
  apply leb_key in H2 as (_ & Hc & H2). apply key_leb; auto.
  unfold key_le, key_lt in *.
  destruct (SF_key (Prim2SF a)) as [[? ?] ?], (SF_key (Prim2SF b)) as [[? ?] ?],
    (SF_key (Prim2SF c)) as [[? ?] ?]; cbn [fst snd] in *.
  destruct H1 as [H1|[= -> -> ->]], H2 as [H2|[= -> -> ->]]; auto; left; lia.
Qed.

(** Two doubles that are not NaN are comparable. *)
Lemma not_ltb_leb (a b : float) :
  is_nan a = false -> is_nan b = false ->
  (b <? a)%float = false -> (a <=? b)%float = true.
Proof.
  intros Ha Hb Hlt. apply is_nan_SF in Ha, Hb.
  rewrite FloatAxioms.ltb_spec in Hlt. unfold SFltb in Hlt.
  pose proof (SFcompare_key _ _ Hb Ha) as Hk.
  apply key_leb; auto. unfold key_le.
  destruct (SFcompare (Prim2SF b) (Prim2SF a)) as [[]|]; try discriminate; auto.
  contradiction.
Qed.

Lemma leb_not_ltb (a b : float) :
  (a <=? b)%float = true -> (b <? a)%float = false.
Proof.
  intros H. destruct (b <? a)%float eqn:E; [|reflexivity].
  apply leb_key in H as (_ & _ & H). apply ltb_key in E as (_ & _ & E).
  exfalso. destruct H as [H|H].
  - exact (key_lt_asym _ _ H E).
  - rewrite H in E. exact (key_lt_irrefl _ E).
Qed.

Lemma leb_not_nan (a b : float) :
  (a <=? b)%float = true -> is_nan a = false /\ is_nan b = false.
Proof.
  intros H. unfold is_nan. apply leb_key in H as (Ha & Hb & _).
  rewrite !FloatAxioms.eqb_spec. unfold SFeqb.
  rewrite !SFcompare_refl by assumption. auto.
Qed.

Lemma is_finite_not_nan (a : float) : is_finite a = true -> is_nan a = false.
Proof. unfold is_finite. now destruct (is_nan a). Qed.

(** [std::min] and [std::max] against a value that is not NaN. *)
Lemma std_min_spec (a p : float) :
  is_nan a = false ->
  is_nan (std_min a p) = false
  /\ (std_min a p <=? a)%float = true
  /\ (is_nan p = false -> (std_min a p <=? p)%float = true).
Proof.
  intros Ha. unfold std_min. destruct (p <? a)%float eqn:E.
  - pose proof (ltb_leb _ _ E) as Hle. destruct (leb_not_nan _ _ Hle) as [Hp _].
    repeat split; auto. intros _. now apply leb_refl.
  - repeat split; auto using leb_refl. intros Hp. now apply not_ltb_leb.
Qed.

Lemma std_max_spec (a p : float) :
  is_nan a = false ->
  is_nan (std_max a p) = false
  /\ (a <=? std_max a p)%float = true
  /\ (is_nan p = false -> (p <=? std_max a p)%float = true).
Proof.
  intros Ha. unfold std_max. destruct (a <? p)%float eqn:E.
  - pose proof (ltb_leb _ _ E) as Hle. destruct (leb_not_nan _ _ Hle) as [_ Hp].
    repeat split; auto. intros _. now apply leb_refl.
  - repeat split; auto using leb_refl. intros Hp. now apply not_ltb_leb.
Qed.

(** ** The quotient of the progress reports *)

Lemma double_of_size_t_zero : Prim2SF (double_of_size_t 0) = S754_zero false.
Proof. reflexivity. Qed.

(** The quotient of [parseFile] does not decrease with the index: the
    conversions of [size_t] and the division all round to nearest. *)
Lemma progress_fraction_monotone (n a b : nat) :
  (a <= b)%nat -> 0 < Z.of_nat n < 2 ^ 64 -> Z.of_nat b < 2 ^ 64 ->
  (progress_fraction n a <=? progress_fraction n b)%float = true.
Proof.
  intros Hab Hn Hb. unfold progress_fraction.
  destruct (double_of_size_t_spec n Hn) as (Mn & Kn & En & HKn & HRn).
  assert (0 < Z.of_nat b \/ b = 0%nat) as [Hb0| ->] by lia.
  2:{ assert (a = 0%nat) as -> by lia.
      rewrite FloatAxioms.leb_spec, !div_spec, double_of_size_t_zero, En. reflexivity. }
  destruct (double_of_size_t_spec b ltac:(lia)) as (Mb & Kb & Eb & HKb & HRb).
  destruct (SFdiv_normal_spec Mb Mn (Kb - 53) (Kn - 53)) as (Rb & kb & Edb & Hkb & HQb);
    [apply HRb|apply HRn|lia|].
  assert (0 < Z.of_nat a \/ a = 0%nat) as [Ha0| ->] by lia.
  2:{ rewrite FloatAxioms.leb_spec, !div_spec, double_of_size_t_zero, En, Eb, Edb.
      reflexivity. }
  destruct (double_of_size_t_spec a ltac:(lia)) as (Ma & Ka & Ea & HKa & HRa).
  destruct (SFdiv_normal_spec Ma Mn (Ka - 53) (Kn - 53)) as (Ra & ka & Eda & Hka & HQa);
    [apply HRa|apply HRn|lia|].
  apply key_leb.
  - rewrite div_spec, Ea, En, Eda. discriminate.
  - rewrite div_spec, Eb, En, Edb. discriminate.
  - rewrite !div_spec, Ea, Eb, En, Eda, Edb. cbn [SF_key].
    assert (Ka < Kb \/ (Ka = Kb /\ Z.pos Ma <= Z.pos Mb)) as Hconv.
    { apply (RoundsQ_monotone (Z.of_nat a * 2 ^ 53) (Z.of_nat b * 2 ^ 53) 1);
        try assumption; lia. }
    assert (ka < kb + (Kb - Ka) \/ (ka = kb + (Kb - Ka) /\ Z.pos Ra <= Z.pos Rb)) as Hdiv.
    { apply (RoundsQ_monotone (Z.pos Ma * 2 ^ 53) (Z.pos Mb * 2 ^ 53 * 2 ^ (Kb - Ka))
               (Z.pos Mn)); try lia; try assumption.
      - destruct Hconv as [Hlt|[-> Hle]].
        + assert (2 <= 2 ^ (Kb - Ka)).
          { change 2 with (2 ^ 1) at 1. apply Z.pow_le_mono_r; lia. }
          destruct HRa as [HMa _], HRb as [HMb _]. nia.
        + rewrite Z.sub_diag, Z.mul_1_r. lia.
      - apply RoundsQ_scale; [lia|lia|assumption]. }
    unfold key_le, key_lt. cbn [fst snd].
    destruct Hdiv as [Hlt|[Heq Hle]].
    + left. right. split; [reflexivity|]. left. lia.
    + destruct (Z.eq_dec (Z.pos Ra) (Z.pos Rb)) as [E|Hne].
      * right. injection E as ->.
        replace (Ka - 53 - (Kn - 53) - 53 + ka) with (Kb - 53 - (Kn - 53) - 53 + kb) by lia.
        reflexivity.
      * left. right. split; [reflexivity|]. right. split; lia.
Qed.

(** ** Bounding boxes *)

Lemma point_has_no_nan_iff (p : Point3D.t) :
  point_has_no_nan p = true
  <-> is_nan (Point3D.x p) = false /\ is_nan (Point3D.y p) = false
      /\ is_nan (Point3D.z p) = false.
Proof.
  unfold point_has_no_nan. rewrite !andb_true_iff, !negb_true_iff. tauto.
Qed.

Lemma box_contains_iff (b : BoundingBox.t) (p : Point3D.t) :
  box_contains b p = true
  <-> ((Point3D.x (BoundingBox.min b) <=? Point3D.x p)%float = true
       /\ (Point3D.x p <=? Point3D.x (BoundingBox.max b))%float = true)
      /\ ((Point3D.y (BoundingBox.min b) <=? Point3D.y p)%float = true
          /\ (Point3D.y p <=? Point3D.y (BoundingBox.max b))%float = true)
      /\ ((Point3D.z (BoundingBox.min b) <=? Point3D.z p)%float = true
          /\ (Point3D.z p <=? Point3D.z (BoundingBox.max b))%float = true).
Proof. unfold box_contains. rewrite !andb_true_iff. tauto. Qed.

Lemma std_min_absorbs (m p : float) : (m <=? p)%float = true -> std_min m p = m.
Proof. intros H. unfold std_min. now rewrite (leb_not_ltb _ _ H). Qed.

Lemma std_max_absorbs (m p : float) : (p <=? m)%float = true -> std_max m p = m.
Proof. intros H. unfold std_max. now rewrite (leb_not_ltb _ _ H). Qed.

(** A point inside the box does not change it. *)
Lemma expand_absorbs (b : BoundingBox.t) (p : Point3D.t) :
  box_contains b p = true -> BoundingBox.expand b p = b.
Proof.
  rewrite box_contains_iff. intros ([X1 X2] & [Y1 Y2] & [Z1 Z2]).
  destruct b as [[] []]. unfold BoundingBox.expand.
  cbn [BoundingBox.min BoundingBox.max Point3D.x Point3D.y Point3D.z] in *.
  now rewrite !std_min_absorbs, !std_max_absorbs by assumption.
Qed.

(** Expanding keeps the bounds free of NaN, takes the point in, and keeps
    every point that was inside. *)
Lemma expand_grows (b : BoundingBox.t) (p : Point3D.t) :
  box_has_no_nan b = true ->
  box_has_no_nan (BoundingBox.expand b p) = true
  /\ (point_has_no_nan p = true -> box_contains (BoundingBox.expand b p) p = true)
  /\ (forall q, box_contains b q = true ->
                box_contains (BoundingBox.expand b p) q = true).
Proof.
  intros Hb. unfold box_has_no_nan in Hb. apply andb_true_iff in Hb as [Hmin Hmax].
  apply point_has_no_nan_iff in Hmin as (Nx & Ny & Nz).
  apply point_has_no_nan_iff in Hmax as (Mx & My & Mz).
  destruct (std_min_spec _ (Point3D.x p) Nx) as (A1 & A2 & A3).
  destruct (std_min_spec _ (Point3D.y p) Ny) as (B1 & B2 & B3).
  destruct (std_min_spec _ (Point3D.z p) Nz) as (C1 & C2 & C3).
  destruct (std_max_spec _ (Point3D.x p) Mx) as (D1 & D2 & D3).
  destruct (std_max_spec _ (Point3D.y p) My) as (E1 & E2 & E3).
  destruct (std_max_spec _ (Point3D.z p) Mz) as (F1 & F2 & F3).
  repeat apply conj.
  - unfold box_has_no_nan. rewrite andb_true_iff, !point_has_no_nan_iff. cbn. auto 10.
  - rewrite point_has_no_nan_iff, box_contains_iff. cbn. intros (? & ? & ?). auto 10.
  - intros q. rewrite !box_contains_iff. cbn.
    intros ([X1 X2] & [Y1 Y2] & [Z1 Z2]).
    repeat apply conj; eauto using leb_trans.
Qed.

Lemma fold_expand_grows (points : list Point3D.t) (b : BoundingBox.t) :
  box_has_no_nan b = true ->
  let b' := fold_left BoundingBox.expand points b in
  box_has_no_nan b' = true
  /\ (forall q, box_contains b q = true -> box_contains b' q = true)
  /\ (forall p, p ∈ points -> point_has_no_nan p = true -> box_contains b' p = true).
Proof.
  revert b. induction points as [|p points IH]; intros b Hb; cbn [fold_left].
  - repeat apply conj; auto. intros p Hp. now apply elem_of_nil in Hp.
  - destruct (expand_grows b p Hb) as (H1 & H2 & H3).
    destruct (IH _ H1) as (I1 & I2 & I3). cbv zeta in *.
    repeat apply conj; auto.
    intros q Hq Hn. apply elem_of_cons in Hq as [->|Hq]; auto.
Qed.

(** [getBoundingBox] visits the vertices of the triangles in order. *)
Lemma getBoundingBox_fold (m : MeshData.t) :
  MeshData.getBoundingBox m
  = fold_left BoundingBox.expand
      (concat (map Triangle.vertices (MeshData.triangles m))) BoundingBox.default.
Proof.
  unfold MeshData.getBoundingBox. generalize BoundingBox.default.
  induction (MeshData.triangles m) as [|t ts IH]; intros b; [reflexivity|].
  cbn [fold_left map concat]. now rewrite IH, fold_left_app.
Qed.

(** X1. The bounding box of a mesh contains every vertex of the mesh that has no
    NaN coordinate; with such a vertex the box is not empty, and expanding
    it again with that vertex changes nothing. *)
Theorem getBoundingBox_contains_vertices (m : MeshData.t)
    (triangle : Triangle.t) (v : Point3D.t) :
  triangle ∈ MeshData.triangles m ->
  v ∈ Triangle.vertices triangle ->
  point_has_no_nan v = true ->
  box_contains (MeshData.getBoundingBox m) v = true
  /\ BoundingBox.isEmpty (MeshData.getBoundingBox m) = false
  /\ BoundingBox.expand (MeshData.getBoundingBox m) v = MeshData.getBoundingBox m.
Proof.
  intros Ht Hv Hn. rewrite getBoundingBox_fold.
  destruct (fold_expand_grows (concat (map Triangle.vertices (MeshData.triangles m)))
              BoundingBox.default eq_refl) as (_ & _ & H).
  cbv zeta in H.
  assert (box_contains
            (fold_left BoundingBox.expand
               (concat (map Triangle.vertices (MeshData.triangles m)))
               BoundingBox.default) v = true) as Hc.
  { apply H; [|exact Hn]. apply list_elem_of_In, in_concat.
    exists (Triangle.vertices triangle). split; [|now apply list_elem_of_In].
    apply in_map. now apply list_elem_of_In. }
  repeat apply conj; [exact Hc| |now apply expand_absorbs].
  apply box_contains_iff in Hc as ([X1 X2] & [Y1 Y2] & [Z1 Z2]).
  unfold BoundingBox.isEmpty.
  now rewrite (leb_not_ltb _ _ (leb_trans _ _ _ X1 X2)),
    (leb_not_ltb _ _ (leb_trans _ _ _ Y1 Y2)),
    (leb_not_ltb _ _ (leb_trans _ _ _ Z1 Z2)).
Qed.

Lemma getBoundingBox_contains_vertices_witness :
  let t := (Triangle.mk (Point3D.mk (-1) (-2) (-3)) (Point3D.mk 4 5 6)
              (Point3D.mk 0 1 2))%float in
  MeshData.getBoundingBox (MeshData.mk [t])
  = BoundingBox.mk (Point3D.mk (-1) (-2) (-3))%float (Point3D.mk 4 5 6)%float
  /\ box_contains (MeshData.getBoundingBox (MeshData.mk [t])) (Triangle.v2 t) = true.
Proof.
  cbv zeta. split; [vm_compute; reflexivity|].
  eapply getBoundingBox_contains_vertices.
  - apply list_elem_of_singleton. reflexivity.
  - cbn. apply elem_of_cons. right. apply elem_of_cons. right.
    apply list_elem_of_singleton. reflexivity.
  - vm_compute. reflexivity.
Defined.

(** Expanding twice with the same point is expanding once, for every
    double, NaN included. *)
Lemma std_min_idempotent (a p : float) : std_min (std_min a p) p = std_min a p.
Proof.
  unfold std_min. destruct (p <? a)%float eqn:E.
  - now rewrite ltb_irrefl.
  - now rewrite E.
Qed.

Lemma std_max_idempotent (a p : float) : std_max (std_max a p) p = std_max a p.
Proof.
  unfold std_max. destruct (a <? p)%float eqn:E.
  - now rewrite ltb_irrefl.
  - now rewrite E.
Qed.

(** X2. Expanding a box twice with the same point is expanding it once,
    whatever the point (NaN coordinates included). *)
Theorem expand_idempotent (b : BoundingBox.t) (p : Point3D.t) :
  BoundingBox.expand (BoundingBox.expand b p) p = BoundingBox.expand b p.
Proof.
  unfold BoundingBox.expand. cbn [BoundingBox.min BoundingBox.max Point3D.x Point3D.y Point3D.z].
  now rewrite !std_min_idempotent, !std_max_idempotent.
Qed.

(** ** Point3D and Triangle *)

Lemma binary_round_aux_nonneg (m e : Z) (l : location) :
  SF_nan_or_nonneg (binary_round_aux prec emax false m e l).
Proof.
  unfold binary_round_aux.
  destruct (shr_fexp prec emax m e l) as [mrs e1].
  destruct (shr_fexp prec emax _ e1 loc_Exact) as [mrs' e2].
  destruct (shr_m mrs'); cbn; auto.
  now destruct (e2 <=? emax - prec)%Z.
Qed.

Lemma SFsqrt_nonneg (f : spec_float) : SF_nan_or_nonneg (SF64sqrt f).
Proof.
  unfold SF64sqrt, SFsqrt. destruct f as [s|[]| |[] m e]; cbn; auto.
  destruct (SFsqrt_core_binary prec emax (Z.pos m) e) as [[mz ez] lz].
  apply binary_round_aux_nonneg.
Qed.

Lemma SF_nan_or_nonneg_leb (a : float) :
  SF_nan_or_nonneg (Prim2SF a) -> is_nan a = true \/ (0 <=? a)%float = true.
Proof.
  unfold is_nan. rewrite FloatAxioms.eqb_spec, FloatAxioms.leb_spec.
  change (Prim2SF 0) with (S754_zero false).
  destruct (Prim2SF a) as [s|s| |s m e]; cbn; intros H; subst; auto.
Qed.

Lemma area_nonneg (tr : Triangle.t) : SF_nan_or_nonneg (Prim2SF (Triangle.area tr)).
Proof.
  unfold Triangle.area, Point3D.magnitude. rewrite mul_spec, sqrt_spec.
  pose proof (SFsqrt_nonneg
                (Prim2SF (let n := Triangle.normal tr in
                          Point3D.x n * Point3D.x n + Point3D.y n * Point3D.y n
                          + Point3D.z n * Point3D.z n)%float)) as H.
  cbv zeta in H. change (Prim2SF 0.5) with (S754_finite false 4503599627370496 (-53)).
  destruct (SF64sqrt _) as [s|s| |s m e]; cbn in *; subst; auto.
  apply binary_round_aux_nonneg.
Qed.

(** X3. [magnitude] and [area] are never negative: each is NaN (after an
    overflow, or from a NaN coordinate) or at least zero. *)
Theorem area_never_negative (tr : Triangle.t) (a : Point3D.t) :
  (is_nan (Point3D.magnitude a) = true \/ (0 <=? Point3D.magnitude a)%float = true)
  /\ (is_nan (Triangle.area tr) = true \/ (0 <=? Triangle.area tr)%float = true).
Proof.
  split.
  - apply SF_nan_or_nonneg_leb. unfold Point3D.magnitude. rewrite sqrt_spec.
    apply SFsqrt_nonneg.
  - apply SF_nan_or_nonneg_leb, area_nonneg.
Qed.

Lemma SFabs_opp (f : spec_float) : SFabs (SFopp f) = SFabs f.
Proof. now destruct f. Qed.

Lemma abs_sub_swap (a b : float) : abs (a - b) = abs (b - a).
Proof.
  apply Prim2SF_inj. rewrite !abs_spec, !sub_spec.
  destruct (SFsub_antisym (Prim2SF a) (Prim2SF b)) as [E|[Z1 Z2]].
  - now rewrite E, SFabs_opp.
  - destruct (SF64sub (Prim2SF a) (Prim2SF b)), (SF64sub (Prim2SF b) (Prim2SF a));
      try discriminate; reflexivity.
Qed.

Lemma not_finite_SF (a : float) :
  is_finite a = false ->
  Prim2SF a = S754_nan \/ exists s, Prim2SF a = S754_infinity s.
Proof.
  unfold is_finite, is_nan, is_infinity.
  rewrite !FloatAxioms.eqb_spec, abs_spec.
  change (Prim2SF infinity) with (S754_infinity false).
  pose proof (SFcompare_refl (Prim2SF a)) as Hr. unfold SFeqb at 1.
  destruct (Prim2SF a) as [s|s| |s m e]; eauto;
    rewrite Hr by discriminate; cbn; discriminate.
Qed.

Lemma abs_sub_diag (a : float) :
  (abs (a - a) <? Point3D.epsilon)%float = is_finite a.
Proof.
  destruct (is_finite a) eqn:E.
  - apply abs_zero_below_epsilon. rewrite sub_spec. apply SFsub_diag_zero.
    destruct (is_finite_SF a E) as [[s ->]|(s & m & e & ->)]; exact I.
  - rewrite FloatAxioms.ltb_spec, abs_spec, sub_spec, Prim2SF_epsilon.
    destruct (not_finite_SF a E) as [->|[s ->]]; [reflexivity|].
    now destruct s.
Qed.

(** X4. [Point3D::operator==] is symmetric, and a point equals itself exactly
    when its three coordinates are finite: a point with an infinite or NaN
    coordinate is not equal to itself. *)
Theorem point_eq_symmetric (a b : Point3D.t) :
  Point3D.eq a b = Point3D.eq b a
  /\ Point3D.eq a a = Point3D.is_finite a.
Proof.
  unfold Point3D.eq, Point3D.is_finite. split.
  - now rewrite (abs_sub_swap (Point3D.x a)), (abs_sub_swap (Point3D.y a)),
      (abs_sub_swap (Point3D.z a)).
  - now rewrite !abs_sub_diag.
Qed.

Lemma SFadd_comm (f g : spec_float) : SF64add f g = SF64add g f.
Proof.
  unfold SF64add, SFadd.
  destruct f as [s|s| |s m e], g as [s'|s'| |s' m' e'];
    try reflexivity; try (destruct s, s'; reflexivity).
  now rewrite (Z.min_comm e e'), Z.add_comm.
Qed.

Lemma add_comm (a b : float) : (a + b)%float = (b + a)%float.
Proof. apply Prim2SF_inj. rewrite !add_spec. apply SFadd_comm. Qed.

(** X5. The sum and the dot product do not depend on the order of their
    operands: a + b and b + a, and a.dot(b) and b.dot(a), are the same
    double, or NaN both. The doubles of the model have one NaN, so that
    nothing is said of the sign and the payload of a NaN. *)
Theorem add_dot_commutative (a b : Point3D.t) :
  Point3D.add a b = Point3D.add b a /\ Point3D.dot a b = Point3D.dot b a.
Proof.
  unfold Point3D.add, Point3D.dot. split.
  - now rewrite (add_comm (Point3D.x a)), (add_comm (Point3D.y a)),
      (add_comm (Point3D.z a)).
  - now rewrite (mul_comm (Point3D.x a)), (mul_comm (Point3D.y a)),
      (mul_comm (Point3D.z a)).
Qed.

Local Open Scope string_scope.
Local Open Scope list_scope.
Local Open Scope nat_scope.

(** ** Lines *)

Lemma all_in_cons (set : string) (c : ascii) (w : string) :
  all_in set (String c w) = char_in set c && all_in set w.
Proof. reflexivity. Qed.

Lemma erase_trailing_cons (set : string) (c : ascii) (s : string) :
  erase_trailing set (String c s)
  = match erase_trailing set s with
    | "" => if char_in set c then "" else String c ""
    | kept => String c kept
    end.
Proof. reflexivity. Qed.

Lemma erase_trailing_all (set w : string) :
  all_in set w = true -> erase_trailing set w = "".
Proof.
  induction w as [|c w IH]; [reflexivity|]. rewrite all_in_cons, andb_true_iff.
  intros [Hc Hw]. now rewrite erase_trailing_cons, IH, Hc.
Qed.

Lemma erase_trailing_app (set s w : string) :
  all_in set w = true ->
  erase_trailing set (String.append s w) = erase_trailing set s.
Proof.
  intros Hw. induction s as [|c s IH].
  - now apply erase_trailing_all.
  - change (String.append (String c s) w) with (String c (String.append s w)).
    now rewrite !erase_trailing_cons, IH.
Qed.

Lemma erase_trailing_fixpoint (set s : string) :
  erase_trailing set (erase_trailing set s) = erase_trailing set s.
Proof.
  induction s as [|c s IH]; [reflexivity|]. rewrite erase_trailing_cons.
  destruct (erase_trailing set s) as [|c' kept] eqn:E.
  - destruct (char_in set c) eqn:Ec; [reflexivity|].
    rewrite erase_trailing_cons. cbn. now rewrite Ec.
  - now rewrite erase_trailing_cons, IH.
Qed.

Lemma erase_leading_fixpoint (set s : string) :
  erase_leading set (erase_leading set s) = erase_leading set s.
Proof.
  induction s as [|c s IH]; [reflexivity|]. cbn [erase_leading].
  destruct (char_in set c) eqn:Ec; [exact IH|]. cbn [erase_leading]. now rewrite Ec.
Qed.

(** A string that [erase_trailing] leaves alone has tails that it leaves
    alone. *)
Lemma erase_trailing_tail (set : string) (c : ascii) (s : string) :
  erase_trailing set (String c s) = String c s -> erase_trailing set s = s.
Proof.
  rewrite erase_trailing_cons. destruct (erase_trailing set s) as [|c' kept].
  - destruct (char_in set c); [discriminate|]. now intros [= <-].
  - now intros [= <-].
Qed.

Lemma erase_trailing_leading (set set' s : string) :
  erase_trailing set s = s ->
  erase_trailing set (erase_leading set' s) = erase_leading set' s.
Proof.
  induction s as [|c s IH]; [reflexivity|]. intros H. cbn [erase_leading].
  destruct (char_in set' c); [|exact H].
  apply IH. now apply erase_trailing_tail in H.
Qed.

Lemma char_in_leading_trailing (c : ascii) :
  char_in leading_set c = true -> char_in trailing_set c = true.
Proof.
  unfold char_in, leading_set, trailing_set. cbn. rewrite !orb_false_r.
  intros H. apply orb_true_iff in H as [->| ->]; cbn; rewrite ?orb_true_r; reflexivity.
Qed.

Lemma trim_leading_char (c : ascii) (s : string) :
  char_in leading_set c = true -> trim (String c s) = trim s.
Proof.
  intros Hc. unfold trim. rewrite erase_trailing_cons.
  rewrite (char_in_leading_trailing c Hc).
  destruct (erase_trailing trailing_set s) as [|c' kept]; [reflexivity|].
  cbn [erase_leading]. now rewrite Hc.
Qed.

Lemma trim_fixpoints (s : string) :
  erase_leading leading_set (trim s) = trim s
  /\ erase_trailing trailing_set (trim s) = trim s.
Proof.
  split; [apply erase_leading_fixpoint|].
  apply erase_trailing_leading, erase_trailing_fixpoint.
Qed.

(** X8. The two [erase] calls leave a line that neither starts with a blank
    or a tab nor ends with white space (blank, tab, CR, LF): doing them
    again changes nothing. *)
Theorem trim_idempotent (s : string) :
  erase_leading leading_set (trim s) = trim s
  /\ erase_trailing trailing_set (trim s) = trim s
  /\ trim (trim s) = trim s.
Proof.
  destruct (trim_fixpoints s) as [H1 H2]. repeat apply conj; [exact H1|exact H2|].
  unfold trim at 1. now rewrite H2, H1.
Qed.

(** X9. Blanks and tabs put before a line, and white space put after it,
    are not seen: the trimmed line is the same. *)
Theorem trim_ignores_blanks (s before after : string) :
  all_in leading_set before = true ->
  all_in trailing_set after = true ->
  trim (String.append before (String.append s after)) = trim s.
Proof.
  intros Hb Ha. induction before as [|c before IH].
  - change (String.append "" (String.append s after)) with (String.append s after).
    unfold trim. now rewrite erase_trailing_app.
  - rewrite all_in_cons, andb_true_iff in Hb. destruct Hb as [Hc Hb].
    change (String.append (String c before) (String.append s after))
      with (String c (String.append before (String.append s after))).
    rewrite trim_leading_char by exact Hc. auto.
Qed.

Lemma trim_ignores_blanks_witness :
  trim (String.append (String " " (String tab ""))
          (String.append "3DFACE" (String " " (String carriage_return ""))))
  = "3DFACE".
Proof. now rewrite trim_ignores_blanks. Defined.

Lemma append_cons (c : ascii) (s t : string) :
  String.append (String c s) t = String c (String.append s t).
Proof. reflexivity. Qed.

Lemma append_empty_r (s : string) : String.append s "" = s.
Proof. induction s as [|c s IH]; [reflexivity|]. now rewrite append_cons, IH. Qed.

Lemma append_assoc (a b c : string) :
  String.append (String.append a b) c = String.append a (String.append b c).
Proof. induction a as [|x a IH]; [reflexivity|]. now rewrite !append_cons, IH. Qed.

Lemma char_in_app (a b : string) (c : ascii) :
  char_in (String.append a b) c = char_in a c || char_in b c.
Proof.
  unfold char_in. induction a as [|x a IH]; [reflexivity|].
  rewrite append_cons. cbn [list_ascii_of_string existsb]. now rewrite IH, orb_assoc.
Qed.

(** [getlines] on a line without a newline character, followed by one. *)
Lemma getlines_line (line rest cur : string) :
  char_in line newline = false ->
  getlines (String.append line (String newline rest)) cur
  = String.append cur line :: getlines rest "".
Proof.
  revert cur. induction line as [|c line IH]; intros cur Hn.
  - rewrite append_empty_r. reflexivity.
  - unfold char_in in Hn. cbn [list_ascii_of_string existsb] in Hn.
    apply orb_false_iff in Hn as [Hc Hn].
    rewrite append_cons. cbn [getlines]. rewrite Ascii.eqb_sym, Hc.
    rewrite IH by exact Hn. now rewrite append_assoc, append_cons.
Qed.

Lemma getlines_file_of_lines (lines : list string) :
  Forall (fun line => char_in line newline = false) lines ->
  getlines (file_of_lines lines) "" = lines.
Proof.
  induction 1 as [|line lines Hn _ IH]; [reflexivity|].
  unfold file_of_lines in *. cbn [fold_right].
  rewrite getlines_line by exact Hn. now rewrite IH.
Qed.

Lemma getlines_file_of_lines_crlf (lines : list string) :
  Forall (fun line => char_in line newline = false) lines ->
  getlines (file_of_lines_crlf lines) ""
  = map (fun line => String.append line (String carriage_return "")) lines.
Proof.
  induction 1 as [|line lines Hn _ IH]; [reflexivity|].
  unfold file_of_lines_crlf in *. cbn [fold_right map].
  change (String.append line (String carriage_return (String newline ?r)))
    with (String.append line (String.append (String carriage_return "") (String newline r))).
  rewrite <- append_assoc, getlines_line.
  - now rewrite IH.
  - now rewrite char_in_app, Hn.
Qed.

(** ** Reads that differ in what does not matter *)

Section ReaderInvariance.
Variable stod : string -> option double.

(** An iteration does the same to cursor, flag, mesh and counter whether or
    not a callback is registered, and whatever was reported so far. *)
Lemma scan_body_outcome (callback callback' : bool) (fileSize fileSize' : nat)
    (lines : list string) (st st' : Scan) :
  scan_outcome st = scan_outcome st' ->
  scan_outcome (scan_body stod callback fileSize lines st)
  = scan_outcome (scan_body stod callback' fileSize' lines st').
Proof.
  destruct st as [i flag mesh count reported], st' as [i' flag' mesh' count' reported'].
  unfold scan_outcome. cbn [scan_i inEntitiesSection meshData entityCount].
  intros [= <- <- <- <-]. unfold scan_body.
  cbn [scan_i inEntitiesSection meshData entityCount calls].
  repeat match goal with
         | |- context [if ?b then _ else _] =>
             lazymatch b with
             | context [fileSize] => fail
             | context [fileSize'] => fail
             | _ => destruct b
             end
         | |- context [match parse3DFaceFromLines ?s ?l ?k with _ => _ end] =>
             destruct (parse3DFaceFromLines s l k) as [next [t|]]
         end; reflexivity.
Qed.

Lemma scan_loop_outcome (fuel : nat) (callback callback' : bool)
    (fileSize fileSize' : nat) (lines : list string) (st st' : Scan) :
  scan_outcome st = scan_outcome st' ->
  scan_outcome (scan_loop stod fuel callback fileSize lines st)
  = scan_outcome (scan_loop stod fuel callback' fileSize' lines st').
Proof.
  revert st st'. induction fuel as [|fuel IH]; intros st st' H; cbn [scan_loop]; [exact H|].
  assert (scan_i st = scan_i st') as <- by (unfold scan_outcome in H; congruence).
  destruct (scan_i st <? length lines); [|exact H].
  apply IH. now apply scan_body_outcome.
Qed.

Lemma append_length_pos (a b : string) (c : ascii) :
  0 < String.length (String.append a (String c b)).
Proof.
  destruct a as [|d a]; [change (String.append "" (String c b)) with (String c b)
                        |rewrite append_cons]; cbn [String.length]; lia.
Qed.

Lemma file_of_lines_length (lines : list string) :
  (0 <? String.length (file_of_lines lines)) = (0 <? length lines)
  /\ (0 <? String.length (file_of_lines_crlf lines)) = (0 <? length lines).
Proof.
  destruct lines as [|line lines]; [split; reflexivity|].
  unfold file_of_lines, file_of_lines_crlf. cbn [fold_right length].
  split; (transitivity true; [apply Nat.ltb_lt, append_length_pos|
                              symmetry; apply Nat.ltb_lt; lia]).
Qed.

Lemma scan_loop_fileSize (fuel : nat) (callback : bool) (fileSize fileSize' : nat)
    (lines : list string) (st : Scan) :
  (0 <? fileSize) = (0 <? fileSize') ->
  scan_loop stod fuel callback fileSize lines st
  = scan_loop stod fuel callback fileSize' lines st.
Proof.
  intros H. revert st. induction fuel as [|fuel IH]; intros st; cbn [scan_loop];
    [reflexivity|].
  destruct (scan_i st <? length lines); [|reflexivity].
  rewrite IH. f_equal. unfold scan_body. now rewrite H.
Qed.

(** X10. A file whose lines end with CR LF is read exactly as the same file with
    LF line ends: the same trimmed lines, hence the same mesh or error, the
    same count and the same progress reports. *)
Theorem crlf_reads_as_lf (reader : DXFReader) (lines : list string) :
  Forall (fun line => char_in line newline = false) lines ->
  read_lines (file_of_lines lines) = map trim lines
  /\ read_lines (file_of_lines_crlf lines) = map trim lines
  /\ readFile stod reader (RegularFile (Some (file_of_lines_crlf lines)))
     = readFile stod reader (RegularFile (Some (file_of_lines lines))).
Proof.
  intros Hn.
  assert (read_lines (file_of_lines lines) = map trim lines) as Hlf.
  { unfold read_lines. now rewrite getlines_file_of_lines. }
  assert (read_lines (file_of_lines_crlf lines) = map trim lines) as Hcrlf.
  { unfold read_lines. rewrite getlines_file_of_lines_crlf by exact Hn.
    rewrite map_map. apply map_ext. intros line.
    unfold trim. now rewrite erase_trailing_app. }
  repeat apply conj; [exact Hlf|exact Hcrlf|].
  cbn [readFile]. rewrite !parseFile_unfold. unfold final_scan.
  rewrite Hlf, Hcrlf.
  destruct (file_of_lines_length lines) as [L1 L2].
  now rewrite (scan_loop_fileSize _ _ (String.length (file_of_lines_crlf lines))
                 (String.length (file_of_lines lines))) by congruence.
Qed.
End ReaderInvariance.

Lemma crlf_reads_as_lf_witness :
  let lines := ["  0"; "SECTION"; "  2"; "ENTITIES"; "  0"; "3DFACE";
                " 10"; "0.0"; " 11"; "1.0"; " 12"; "0.0"; " 22"; "1.0";
                "  0"; "ENDSEC"] in
  Forall (fun line => char_in line newline = false) lines
  /\ readFile stod_decimal newDXFReader (RegularFile (Some (file_of_lines_crlf lines)))
     = readFile stod_decimal newDXFReader (RegularFile (Some (file_of_lines lines))).
Proof.
  cbv zeta.
  match goal with |- ?P /\ _ => assert P as H by (repeat constructor) end.
  split; [exact H|].
  exact (proj2 (proj2 (crlf_reads_as_lf stod_decimal newDXFReader _ H))).
Defined.

(** ** What a face costs and what it keeps *)

Section ReaderFurther.
Variable stod : string -> option double.

(** Every pair passed to the [switch] took two lines. *)
Lemma face_loop_consumes (fuel : nat) (lines : list string) (st : FaceScan) :
  index st + 2 * length (face_pairs fuel lines (index st))
  <= index (face_loop stod fuel lines st).
Proof.
  revert st. induction fuel as [|fuel IH]; intros st; cbn [face_loop face_pairs];
    [cbn; lia|].
  destruct (index st <? length lines); [|cbn; lia].
  unfold face_body.
  destruct (String.eqb (lines !!! index st) "0"); [cbn; lia|].
  destruct (stoi (lines !!! index st)) as [code|].
  - destruct (length lines <=? index st + 1); [cbn; lia|].
    destruct (switch_code stod code _ _ _) as [vs hv].
    specialize (IH (mkFaceScan (index st + 2) vs hv)). cbn [index] in IH.
    cbn [length]. lia.
  - specialize (IH (mkFaceScan (index st + 1) (vertices st) (hasVertex st))).
    cbn [index] in IH. lia.
Qed.

(** A face that parses has passed three x codes to the [switch], so it took
    six lines at least. *)
Lemma parse3DFaceFromLines_consumes (lines : list string) (index0 : nat)
    (triangle : Triangle.t) :
  (parse3DFaceFromLines stod lines index0).2 = Some triangle ->
  index0 + 6 <= (parse3DFaceFromLines stod lines index0).1.
Proof.
  intros H. rewrite parse3DFaceFromLines_buffer in H. cbv zeta in H.
  unfold face_result in H.
  set (buffer := switch_all stod _ _) in H.
  destruct (buffer.2 !!! 0) eqn:H0; [|discriminate H].
  destruct (buffer.2 !!! 1) eqn:H1; [|discriminate H].
  destruct (buffer.2 !!! 2) eqn:H2; [|discriminate H].
  clear H. subst buffer. cbn [face_init vertices hasVertex] in H0, H1, H2.
  apply switch_all_flag in H0 as [H0|(x0 & H0 & _)]; [discriminate H0| |reflexivity|lia].
  apply switch_all_flag in H1 as [H1|(x1 & H1 & _)]; [discriminate H1| |reflexivity|lia].
  apply switch_all_flag in H2 as [H2|(x2 & H2 & _)]; [discriminate H2| |reflexivity|lia].
  assert (3 <= length (consumed_pairs lines index0)) as Hlen.
  { change 3 with (length [((10 + Z.of_nat 0)%Z, x0); ((10 + Z.of_nat 1)%Z, x1);
                           ((10 + Z.of_nat 2)%Z, x2)]).
    apply submseteq_length, NoDup_submseteq.
    - repeat (apply NoDup_cons; split;
              [rewrite ?elem_of_cons, elem_of_nil; intros Hin;
               repeat destruct Hin as [Hin|Hin]; try discriminate Hin; exact Hin|]).
      apply NoDup_nil_2.
    - intros p Hp. rewrite !elem_of_cons, elem_of_nil in Hp.
      destruct Hp as [->|[->|[->|[]]]]; assumption. }
  pose proof (face_loop_consumes (length lines - index0) lines (face_init index0)) as Hc.
  unfold parse3DFaceFromLines, consumed_pairs in *. cbn [fst index face_init] in *. lia.
Qed.

Lemma last_value_snoc (code : Z) (pairs : list (Z * string)) (pair : Z * string) :
  last_value code (pairs ++ [pair])
  = if (pair.1 =? code)%Z then Some pair.2 else last_value code pairs.
Proof. unfold last_value. now rewrite fold_left_app. Qed.

Lemma switch_all_snoc (pairs : list (Z * string)) (pair : Z * string)
    (buffer : list Point3D.t * list bool) :
  switch_all stod (pairs ++ [pair]) buffer
  = switch_code stod pair.1 pair.2
      (switch_all stod pairs buffer).1 (switch_all stod pairs buffer).2.
Proof. unfold switch_all. now rewrite fold_left_app. Qed.

Ltac split_code code :=
  unfold switch_code, code_in;
  repeat match goal with
         | |- context [(code =? ?n)%Z] => destruct (Z.eqb_spec code n) as [->|]
         end;
  cbn [orb].

(** The buffer holds, for each coordinate, what the last pair of its group
    code left there. *)
Lemma switch_all_last (pairs : list (Z * string)) (hv : list bool) :
  (switch_all stod pairs ([Point3D.origin; Point3D.origin; Point3D.origin], hv)).1
  = [last_vertex stod pairs 0; last_vertex stod pairs 1; last_vertex stod pairs 2].
Proof.
  induction pairs as [|[code value] pairs IH] using rev_ind; [reflexivity|].
  rewrite switch_all_snoc, IH. clear IH. cbn [fst snd].
  generalize (switch_all stod pairs
                ([Point3D.origin; Point3D.origin; Point3D.origin], hv)).2.
  intros hv'. unfold last_vertex. rewrite !last_value_snoc. cbn [fst snd].
  change (10 + 0)%Z with 10%Z. change (10 + 1)%Z with 11%Z. change (10 + 2)%Z with 12%Z.
  change (20 + 0)%Z with 20%Z. change (20 + 1)%Z with 21%Z. change (20 + 2)%Z with 22%Z.
  change (30 + 0)%Z with 30%Z. change (30 + 1)%Z with 31%Z. change (30 + 2)%Z with 32%Z.
  split_code code; try lia; cbn; try destruct (stod value); reflexivity.
Qed.

Lemma valid_x_flag (pairs : list (Z * string)) (k : nat) :
  k < 3 ->
  (switch_all stod pairs
     ([Point3D.origin; Point3D.origin; Point3D.origin], [false; false; false])).2 !!! k
  = valid_x stod pairs (Z.of_nat k).
Proof.
  intros Hk. apply Bool.eq_iff_eq_true.
  rewrite switch_all_flag by (reflexivity || exact Hk).
  unfold valid_x. rewrite existsb_exists. split.
  - intros [H|(value & Hin & Hv)].
    + exfalso. assert (k = 0 \/ k = 1 \/ k = 2) as [->|[->| ->]] by lia; discriminate H.
    + exists ((10 + Z.of_nat k)%Z, value). split; [now apply list_elem_of_In|].
      cbn [fst snd]. rewrite Z.eqb_refl. now destruct Hv as [d ->].
  - intros ([code value] & Hin & Hv). cbn [fst snd] in Hv.
    apply andb_true_iff in Hv as [Hc Hv]. apply Z.eqb_eq in Hc as ->.
    right. exists value. split; [now apply list_elem_of_In|].
    destruct (stod value); [eauto|discriminate Hv].
Qed.

(** X14. What [parse3DFaceFromLines] makes of the pairs it read. It
    returns a triangle exactly when each of the codes 10, 11, 12 came with a
    value that converts; each coordinate of the triangle is then the value of
    the last pair of its code, and 0.0 when that value does not convert or
    the code never came. *)
Theorem face_keeps_last_values (lines : list string) (index0 : nat) :
  let pairs := consumed_pairs lines index0 in
  (parse3DFaceFromLines stod lines index0).2
  = if valid_x stod pairs 0 && valid_x stod pairs 1 && valid_x stod pairs 2
    then Some (Triangle.mk (last_vertex stod pairs 0) (last_vertex stod pairs 1)
                 (last_vertex stod pairs 2))
    else None.
Proof.
  cbv zeta. rewrite parse3DFaceFromLines_buffer. cbv zeta.
  unfold face_result. cbn [face_init vertices hasVertex].
  rewrite switch_all_last.
  rewrite (valid_x_flag _ 0), (valid_x_flag _ 1), (valid_x_flag _ 2) by lia.
  reflexivity.
Qed.

End ReaderFurther.

(** ** The statistics of a mesh *)

Local Open Scope Z_scope.

Lemma SFadd_nonneg (x y : spec_float) :
  SF_nan_or_nonneg x -> SF_nan_or_nonneg y -> SF_nan_or_nonneg (SF64add x y).
Proof.
  destruct x as [sx|sx| |sx mx ex], y as [sy|sy| |sy my ey];
    intros Hx Hy; cbn in Hx, Hy; subst; try exact I; try reflexivity.
  - now destruct sx, sy.
  - unfold SF64add, SFadd, cond_Zopp.
    destruct (shl_align mx ex _) as [mx' ex'], (shl_align my ey _) as [my' ey'].
    cbn [fst]. change (Z.pos mx' + Z.pos my') with (Z.pos (mx' + my')).
    unfold binary_normalize, binary_round.
    match goal with |- context [shl_align ?m ?e ?f] => destruct (shl_align m e f) end.
    apply binary_round_aux_nonneg.
Qed.

Lemma fold_area_range (triangles : list Triangle.t) (range : float * float) :
  is_nan range.1 = false -> is_nan range.2 = false ->
  let range' := fold_left
                  (fun range triangle =>
                     (std_min range.1 (Triangle.area triangle),
                      std_max range.2 (Triangle.area triangle)))
                  triangles range in
  is_nan range'.1 = false /\ is_nan range'.2 = false
  /\ (range'.1 <=? range.1)%float = true /\ (range.2 <=? range'.2)%float = true
  /\ (forall tr, tr ∈ triangles -> is_nan (Triangle.area tr) = false ->
                 (range'.1 <=? Triangle.area tr)%float = true
                 /\ (Triangle.area tr <=? range'.2)%float = true).
Proof.
  revert range. induction triangles as [|t ts IH]; intros [mn mx] Hmn Hmx; cbn [fst snd] in *.
  - cbn. repeat apply conj; auto using leb_refl.
    intros tr Hin. now apply elem_of_nil in Hin.
  - cbn [fold_left fst snd].
    destruct (std_min_spec mn (Triangle.area t) Hmn) as (N1 & L1 & P1).
    destruct (std_max_spec mx (Triangle.area t) Hmx) as (N2 & L2 & P2).
    specialize (IH (std_min mn (Triangle.area t), std_max mx (Triangle.area t)) N1 N2).
    cbv zeta in IH. cbn [fst snd] in IH.
    destruct IH as (M1 & M2 & K1 & K2 & IH).
    repeat apply conj; auto.
    + exact (leb_trans _ _ _ K1 L1).
    + exact (leb_trans _ _ _ L2 K2).
    + intros tr Hin Hn. apply elem_of_cons in Hin as [->|Hin]; [|now apply IH].
      split; [exact (leb_trans _ _ _ K1 (P1 Hn))|exact (leb_trans _ _ _ (P2 Hn) K2)].
Qed.

(** X6. The area range of a mesh bounds the area of each of its triangles
    (those whose area is not NaN, which [std::min] and [std::max] pass
    over). *)
Theorem area_range_bounds (m : MeshData.t) (tr : Triangle.t) :
  tr ∈ MeshData.triangles m ->
  is_nan (Triangle.area tr) = false ->
  let range := DetailedMeshSummarizer.getTriangleAreaRange m in
  (range.1 <=? Triangle.area tr)%float = true
  /\ (Triangle.area tr <=? range.2)%float = true.
Proof.
  intros Hin Hn. cbv zeta. unfold DetailedMeshSummarizer.getTriangleAreaRange.
  unfold MeshData.isEmpty.
  destruct (MeshData.triangles m) as [|t ts] eqn:E; [now apply elem_of_nil in Hin|].
  pose proof (fold_area_range (t :: ts) (DBL_MAX, DBL_LOWEST) eq_refl eq_refl) as H.
  cbv zeta in H. destruct H as (_ & _ & _ & _ & H). now apply H.
Qed.

Lemma area_range_bounds_witness :
  let small := (Triangle.mk (Point3D.mk 0 0 0) (Point3D.mk 1 0 0)
                  (Point3D.mk 0 1 0))%float in
  let large := (Triangle.mk (Point3D.mk 0 0 0) (Point3D.mk 4 0 0)
                  (Point3D.mk 0 3 0))%float in
  let m := MeshData.mk [large; small] in
  DetailedMeshSummarizer.getTriangleAreaRange m = (0.5, 6)%float
  /\ ((DetailedMeshSummarizer.getTriangleAreaRange m).1 <=? Triangle.area small)%float
     = true
  /\ (Triangle.area small <=? (DetailedMeshSummarizer.getTriangleAreaRange m).2)%float
     = true.
Proof.
  cbv zeta. split; [reflexivity|].
  apply area_range_bounds; [|reflexivity].
  cbn [MeshData.triangles]. rewrite !elem_of_cons. auto.
Defined.

Lemma fold_area_min_nonneg (triangles : list Triangle.t) (range : float * float) :
  (0 <=? range.1)%float = true ->
  (0 <=? (fold_left
            (fun range triangle =>
               (std_min range.1 (Triangle.area triangle),
                std_max range.2 (Triangle.area triangle)))
            triangles range).1)%float = true.
Proof.
  revert range. induction triangles as [|t ts IH]; intros [mn mx] H; [exact H|].
  cbn [fold_left fst snd] in *. apply IH. cbn [fst]. unfold std_min.
  destruct (Triangle.area t <? mn)%float eqn:E; [|exact H].
  destruct (SF_nan_or_nonneg_leb _ (area_nonneg t)) as [Hn|Hp]; [|exact Hp].
  apply ltb_leb, leb_not_nan in E as [E _]. congruence.
Qed.

Lemma fold_area_total_nonneg (triangles : list Triangle.t) (total : float) :
  SF_nan_or_nonneg (Prim2SF total) ->
  SF_nan_or_nonneg
    (Prim2SF (fold_left (fun totalArea triangle => totalArea + Triangle.area triangle)%float
                triangles total)).
Proof.
  revert total. induction triangles as [|t ts IH]; intros total H; [exact H|].
  cbn [fold_left]. apply IH. rewrite add_spec. apply SFadd_nonneg; [exact H|].
  apply area_nonneg.
Qed.

(** X7. The total surface area and the volume estimate of a mesh are
    never negative (each is NaN or at least zero), and its least triangle
    area is at least zero. *)
Theorem statistics_never_negative (m : MeshData.t) :
  (is_nan (MeshData.getTotalSurfaceArea m) = true
   \/ (0 <=? MeshData.getTotalSurfaceArea m)%float = true)
  /\ (is_nan (DetailedMeshSummarizer.calculateVolume m) = true
      \/ (0 <=? DetailedMeshSummarizer.calculateVolume m)%float = true)
  /\ (0 <=? (DetailedMeshSummarizer.getTriangleAreaRange m).1)%float = true.
Proof.
  repeat apply conj.
  - apply SF_nan_or_nonneg_leb, fold_area_total_nonneg. exact I.
  - apply SF_nan_or_nonneg_leb. unfold DetailedMeshSummarizer.calculateVolume.
    destruct (MeshData.isEmpty m); [exact I|].
    rewrite abs_spec. now destruct (Prim2SF _).
  - unfold DetailedMeshSummarizer.getTriangleAreaRange.
    destruct (MeshData.isEmpty m); [reflexivity|].
    now apply fold_area_min_nonneg.
Qed.

(** ** How often progress is reported *)

Local Open Scope nat_scope.

Lemma div_100_succ (c : nat) :
  S c / 100 = if Nat.eqb (S c mod 100) 0 then c / 100 + 1 else c / 100.
Proof.
  pose proof (Nat.div_mod_eq c 100) as H1.
  pose proof (Nat.div_mod_eq (S c) 100) as H2.
  pose proof (Nat.mod_upper_bound c 100) as B1.
  pose proof (Nat.mod_upper_bound (S c) 100) as B2.
  destruct (Nat.eqb_spec (S c mod 100) 0); lia.
Qed.

Section ProgressCount.
Variable stod : string -> option double.

Lemma scan_body_calls_count (callback : bool) (fileSize : nat) (lines : list string)
    (st : Scan) :
  0 < fileSize ->
  length (calls st) = (if callback then entityCount st / 100 else 0) ->
  let st' := scan_body stod callback fileSize lines st in
  length (calls st') = (if callback then entityCount st' / 100 else 0).
Proof.
  intros Hsize H. cbv zeta. unfold scan_body.
  apply Nat.ltb_lt in Hsize. rewrite Hsize, andb_true_r.
  repeat match goal with
         | |- context [if (?a && ?b)%bool then _ else _] => destruct (a && b)%bool
         | |- context [if String.eqb ?a ?b then _ else _] => destruct (String.eqb a b)
         | |- context [match parse3DFaceFromLines ?s ?l ?k with _ => _ end] =>
             destruct (parse3DFaceFromLines s l k) as [next [t|]]
         end; cbn [calls entityCount scan_goto scan_section]; try exact H.
  rewrite div_100_succ.
  destruct (Nat.eqb (S (entityCount st) mod 100) 0); [|exact H].
  unfold reportProgress. destruct callback; [|exact H].
  rewrite length_app, H. reflexivity.
Qed.

End ProgressCount.

(** ** Reading from the middle of the lines *)

Local Open Scope nat_scope.

Lemma lookup_total_shift (pre lines : list string) (i : nat) :
  (pre ++ lines) !!! (length pre + i) = lines !!! i.
Proof.
  rewrite lookup_total_app_r by lia. f_equal. lia.
Qed.

Lemma ltb_shift (n a b : nat) : (n + a <? n + b) = (a <? b).
Proof. destruct (Nat.ltb_spec a b), (Nat.ltb_spec (n + a) (n + b)); lia || reflexivity. Qed.

Lemma leb_shift (n a b : nat) : (n + a <=? n + b) = (a <=? b).
Proof. destruct (Nat.leb_spec a b), (Nat.leb_spec (n + a) (n + b)); lia || reflexivity. Qed.

Section Shift.
Variable stod : string -> option double.

(** The face loop does the same on the lines and on the lines behind a
    prefix, the index apart. *)
Lemma face_body_shift (pre lines : list string) (st : FaceScan) :
  face_body stod (pre ++ lines) (shift_face (length pre) st)
  = ((face_body stod lines st).1, shift_face (length pre) (face_body stod lines st).2).
Proof.
  unfold face_body, shift_face. cbn [index vertices hasVertex].
  rewrite length_app, <- !Nat.add_assoc, !lookup_total_shift, leb_shift.
  destruct (String.eqb (lines !!! index st) "0"); [reflexivity|].
  destruct (stoi (lines !!! index st)) as [code|]; [|reflexivity].
  destruct (length lines <=? index st + 1); [reflexivity|].
  now destruct (switch_code stod code _ _ _).
Qed.

Lemma face_loop_shift (fuel : nat) (pre lines : list string) (st : FaceScan) :
  face_loop stod fuel (pre ++ lines) (shift_face (length pre) st)
  = shift_face (length pre) (face_loop stod fuel lines st).
Proof.
  revert st. induction fuel as [|fuel IH]; intros st; [reflexivity|].
  cbn [face_loop]. rewrite face_body_shift.
  unfold shift_face at 1. cbn [index]. rewrite length_app, ltb_shift.
  destruct (index st <? length lines); [|reflexivity].
  destruct (face_body stod lines st) as [[|] st']; cbn [fst snd]; [reflexivity|].
  apply IH.
Qed.

Lemma parse3DFaceFromLines_shift (pre lines : list string) (index0 : nat) :
  parse3DFaceFromLines stod (pre ++ lines) (length pre + index0)
  = (length pre + (parse3DFaceFromLines stod lines index0).1,
     (parse3DFaceFromLines stod lines index0).2).
Proof.
  unfold parse3DFaceFromLines.
  replace (length (pre ++ lines) - (length pre + index0)) with (length lines - index0)
    by (rewrite length_app; lia).
  change (face_init (length pre + index0)) with (shift_face (length pre) (face_init index0)).
  now rewrite face_loop_shift.
Qed.

(** So does the scanning loop, the reports to the callback apart. *)
Lemma scan_body_shift (callback callback' : bool) (fileSize fileSize' : nat)
    (pre lines : list string) (st st' : Scan) :
  scan_outcome st' = scan_outcome (shift_scan (length pre) st) ->
  scan_outcome (scan_body stod callback' fileSize' (pre ++ lines) st')
  = scan_outcome (shift_scan (length pre)
                    (scan_body stod callback fileSize lines st)).
Proof.
  intros H.
  rewrite (scan_body_outcome stod callback' callback fileSize' fileSize (pre ++ lines)
             st' (shift_scan (length pre) st) H).
  clear H st'. destruct st as [i flag mesh count reported].
  unfold scan_body, shift_scan.
  cbn [scan_i inEntitiesSection meshData entityCount calls].
  rewrite length_app, <- !Nat.add_assoc, !lookup_total_shift, !ltb_shift,
    parse3DFaceFromLines_shift.
  repeat match goal with
         | |- context [if (?a && ?b)%bool then _ else _] => destruct (a && b)%bool
         | |- context [if String.eqb ?a ?b then _ else _] => destruct (String.eqb a b)
         | |- context [match parse3DFaceFromLines ?s ?l ?k with _ => _ end] =>
             destruct (parse3DFaceFromLines s l k) as [next [t|]]
         end; reflexivity.
Qed.

Lemma scan_loop_shift (fuel : nat) (callback callback' : bool)
    (fileSize fileSize' : nat) (pre lines : list string) (st st' : Scan) :
  scan_outcome st' = scan_outcome (shift_scan (length pre) st) ->
  scan_outcome (scan_loop stod fuel callback' fileSize' (pre ++ lines) st')
  = scan_outcome (shift_scan (length pre)
                    (scan_loop stod fuel callback fileSize lines st)).
Proof.
  revert st st'. induction fuel as [|fuel IH]; intros st st' H; [exact H|].
  cbn [scan_loop].
  assert (scan_i st' = length pre + scan_i st) as ->
      by (unfold scan_outcome, shift_scan in H; cbn in H; congruence).
  rewrite length_app, ltb_shift.
  destruct (scan_i st <? length lines); [|exact H].
  apply IH. now apply scan_body_shift.
Qed.

(** The loop run for [a + b] iterations is the loop run for [a] and then
    for [b] iterations. *)
Lemma scan_loop_add (a b : nat) (callback : bool) (fileSize : nat)
    (lines : list string) (st : Scan) :
  scan_loop stod (a + b) callback fileSize lines st
  = scan_loop stod b callback fileSize lines
      (scan_loop stod a callback fileSize lines st).
Proof.
  revert st. induction a as [|a IH]; intros st; [reflexivity|].
  cbn [Nat.add scan_loop].
  destruct (scan_i st <? length lines) eqn:E; [apply IH|].
  destruct b; cbn [scan_loop]; [reflexivity|now rewrite E].
Qed.
End Shift.

(** ** A well-formed file *)

Section RoundTrip.
Variable stod : string -> option double.

Lemma face_loop_stop (fuel : nat) (lines : list string) (st : FaceScan) :
  index (face_loop stod fuel lines st) = face_stop fuel lines (index st).
Proof.
  revert st. induction fuel as [|fuel IH]; intros st; cbn [face_loop face_stop];
    [reflexivity|].
  destruct (index st <? length lines); [|reflexivity].
  unfold face_body.
  destruct (String.eqb (lines !!! index st) "0"); [reflexivity|].
  destruct (stoi (lines !!! index st)) as [code|]; [|now rewrite IH].
  destruct (length lines <=? index st + 1); [reflexivity|].
  destruct (switch_code stod code _ _ _) as [vs hv]. now rewrite IH.
Qed.

(** The face parser on the lines of a face, the next entity behind them. *)
Lemma parse3DFaceFromLines_face (f : face_text) (tail : list string) :
  parse3DFaceFromLines stod (face_text_lines f ++ "0" :: tail) 2
  = (28, if face_converts stod f then Some (triangle_of stod f) else None).
Proof.
  apply injective_projections.
  - unfold parse3DFaceFromLines. cbn [fst]. rewrite face_loop_stop.
    destruct f as [[[[a0 b0] c0] [[a1 b1] c1]] [[a2 b2] c2]]. cbv. reflexivity.
  - rewrite parse3DFaceFromLines_buffer. cbv zeta. unfold face_result.
    cbn [face_init vertices hasVertex snd].
    rewrite switch_all_last, (valid_x_flag _ _ 0), (valid_x_flag _ _ 1),
      (valid_x_flag _ _ 2) by lia.
    destruct f as [[[[a0 b0] c0] [[a1 b1] c1]] [[a2 b2] c2]].
    match goal with
    | |- context [consumed_pairs ?lines 2] =>
        assert (consumed_pairs lines 2
                = [(8, "0"); (10, a0); (20, b0); (30, c0); (11, a1); (21, b1);
                   (31, c1); (12, a2); (22, b2); (32, c2); (13, a2); (23, b2);
                   (33, c2)]%Z) as -> by (cbv; reflexivity)
    end.
    cbv. destruct (stod a0), (stod a1), (stod a2); reflexivity.
Qed.

Lemma face_text_lines_length (f : face_text) : length (face_text_lines f) = 28.
Proof. now destruct f as [[[[a0 b0] c0] [[a1 b1] c1]] [[a2 b2] c2]]. Qed.

Lemma faces_lines_head (faces : list face_text) :
  exists tail, concat (map face_text_lines faces) ++ entities_footer = "0" :: tail.
Proof.
  destruct faces as [|[[[[a0 b0] c0] [[a1 b1] c1]] [[a2 b2] c2]] faces];
    cbn; eexists; reflexivity.
Qed.

Lemma triangles_of_cons (f : face_text) (faces : list face_text) :
  triangles_of stod (f :: faces)
  = if face_converts stod f then triangle_of stod f :: triangles_of stod faces
    else triangles_of stod faces.
Proof.
  unfold triangles_of. rewrite filter_cons.
  destruct (face_converts stod f); [rewrite decide_True|rewrite decide_False];
    auto; discriminate.
Qed.

(** One iteration of the scanning loop at the head of a face. *)
Lemma scan_body_face (callback : bool) (fileSize : nat) (f : face_text)
    (rest tail : list string) (st : Scan) :
  rest = "0" :: tail ->
  scan_i st = 0 -> inEntitiesSection st = true ->
  scan_outcome (scan_body stod callback fileSize (face_text_lines f ++ rest) st)
  = (28, true,
     if face_converts stod f
     then MeshData.addTriangle (meshData st) (triangle_of stod f) else meshData st,
     if face_converts stod f then S (entityCount st) else entityCount st).
Proof.
  intros -> Hi Hflag. destruct st as [i flag mesh count reported].
  cbn [scan_i inEntitiesSection meshData entityCount] in *. subst i flag.
  unfold scan_body. cbn [scan_i inEntitiesSection meshData entityCount calls].
  change (0 + 2) with 2. rewrite parse3DFaceFromLines_face.
  generalize (triangle_of stod f). intros t.
  destruct (face_converts stod f);
    destruct f as [[[[a0 b0] c0] [[a1 b1] c1]] [[a2 b2] c2]]; lazy; reflexivity.
Qed.

(** The scanning loop over the faces and the footer, entered inside the
    ENTITIES section. *)
Lemma scan_faces (callback : bool) (fileSize : nat) (faces : list face_text)
    (st : Scan) :
  scan_i st = 0 -> inEntitiesSection st = true ->
  let lines := concat (map face_text_lines faces) ++ entities_footer in
  scan_outcome (scan_loop stod (length lines) callback fileSize lines st)
  = (length lines, false,
     MeshData.mk (MeshData.triangles (meshData st) ++ triangles_of stod faces),
     entityCount st + length (triangles_of stod faces)).
Proof.
  revert st. induction faces as [|f faces IH]; intros st Hi Hflag; cbv zeta.
  - destruct st as [i flag [triangles] count reported].
    cbn [scan_i inEntitiesSection meshData entityCount] in *. subst i flag.
    change (triangles_of stod []) with (@nil Triangle.t).
    cbn [MeshData.triangles length]. rewrite app_nil_r, Nat.add_0_r.
    lazy. reflexivity.
  - cbn [map concat]. rewrite <- app_assoc.
    set (rest := concat (map face_text_lines faces) ++ entities_footer) in *.
    destruct (faces_lines_head faces) as [tail Htail]. fold rest in Htail.
    rewrite length_app, face_text_lines_length.
    change (28 + length rest) with (S (27 + length rest)). cbn [scan_loop].
    assert ((scan_i st <? length (face_text_lines f ++ rest)) = true) as ->
        by (apply Nat.ltb_lt; rewrite length_app, face_text_lines_length; lia).
    pose proof (scan_body_face callback fileSize f rest tail st Htail Hi Hflag) as Hbody.
    set (st1 := scan_body stod callback fileSize (face_text_lines f ++ rest) st) in *.
    set (mesh' := if face_converts stod f
                  then MeshData.addTriangle (meshData st) (triangle_of stod f)
                  else meshData st) in *.
    set (count' := if face_converts stod f then S (entityCount st) else entityCount st)
      in *.
    rewrite (scan_loop_shift stod (27 + length rest) callback callback fileSize fileSize
               (face_text_lines f) rest (mkScan 0 true mesh' count' []) st1)
      by (rewrite Hbody; unfold scan_outcome, shift_scan;
          cbn [scan_i inEntitiesSection meshData entityCount];
          now rewrite face_text_lines_length).
    rewrite (scan_loop_fuel stod (27 + length rest) (length rest))
      by (cbn [scan_i]; lia).
    specialize (IH (mkScan 0 true mesh' count' []) eq_refl eq_refl). cbv zeta in IH.
    fold rest in IH. unfold scan_outcome in IH |- *. unfold shift_scan.
    cbn [scan_i inEntitiesSection meshData entityCount] in IH |- *.
    injection IH as -> -> -> ->. rewrite face_text_lines_length.
    rewrite triangles_of_cons. subst mesh' count'.
    destruct (face_converts stod f); [|reflexivity].
    unfold MeshData.addTriangle. cbn [MeshData.triangles length].
    rewrite <- app_assoc. cbn [app]. f_equal. lia.
Qed.

(** X17. A file whose trimmed lines are the ENTITIES header, the lines of
    a list of faces and the footer gives the triangles of these faces, in
    their order: every face whose three x coordinates convert becomes one
    triangle, with the converted coordinates (0.0 for a y or z that does
    not convert) and without its fourth vertex; the other faces are left
    out. The count is the number of triangles, and the read fails for want
    of faces exactly when there is none. *)
Theorem well_formed_file_round_trip (reader : DXFReader) (content : string)
    (faces : list face_text) :
  read_lines content
  = entities_header ++ concat (map face_text_lines faces) ++ entities_footer ->
  let outcome := readFile stod reader (RegularFile (Some content)) in
  result outcome
  = match triangles_of stod faces with
    | [] => inl NoEntitiesFound
    | triangles => inr (MeshData.mk triangles)
    end
  /\ getLastEntityCount (reader_after outcome) = length (triangles_of stod faces).
Proof.
  intros Hlines. cbv zeta. cbn [readFile]. rewrite parseFile_unfold. cbv zeta.
  cbn [result reader_after getLastEntityCount lastEntityCount_].
  set (callback := progressCallback_ reader).
  assert (scan_outcome (final_scan stod callback content)
          = (length (read_lines content), false,
             MeshData.mk (triangles_of stod faces),
             length (triangles_of stod faces))) as H.
  { unfold final_scan. rewrite Hlines.
    set (body := concat (map face_text_lines faces) ++ entities_footer).
    rewrite length_app. change (length entities_header + length body)
      with (S (3 + length body)).
    cbn [scan_loop].
    assert ((scan_i scan_init <? length (entities_header ++ body)) = true) as ->
        by (apply Nat.ltb_lt; rewrite length_app; cbn; lia).
    rewrite (scan_loop_shift stod (3 + length body) callback callback
               (String.length content) (String.length content)
               entities_header body (mkScan 0 true MeshData.empty 0 []))
      by (lazy; reflexivity).
    rewrite (scan_loop_fuel stod (3 + length body) (length body))
      by (cbn [scan_i]; lia).
    pose proof (scan_faces callback (String.length content) faces
                  (mkScan 0 true MeshData.empty 0 []) eq_refl eq_refl) as Hf.
    cbv zeta in Hf. fold body in Hf. unfold scan_outcome in Hf |- *. unfold shift_scan.
    cbn [scan_i inEntitiesSection meshData entityCount] in Hf |- *.
    injection Hf as -> -> -> ->. reflexivity. }
  unfold scan_outcome in H. injection H as _ _ Hm Hc. rewrite Hm, Hc.
  split; [|reflexivity].
  unfold MeshData.isEmpty. cbn [MeshData.triangles].
  now destruct (triangles_of stod faces).
Qed.
End RoundTrip.

Lemma well_formed_file_round_trip_witness :
  let faces := [(("0.0", "0.0", "0.0"), ("1.0", "0.0", "0.0"), ("0.0", "1.0", "0.0"));
                (("2.0", "0.0", "0.0"), ("3.0", "0.0", "0.0"), ("2.0", "1.0", "0.0"))] in
  read_lines two_triangles_dxf
  = entities_header ++ concat (map face_text_lines faces) ++ entities_footer
  /\ result (readFile stod_decimal newDXFReader (RegularFile (Some two_triangles_dxf)))
     = inr (MeshData.mk
              [Triangle.mk (Point3D.mk 0 0 0) (Point3D.mk 1 0 0) (Point3D.mk 0 1 0);
               Triangle.mk (Point3D.mk 2 0 0) (Point3D.mk 3 0 0) (Point3D.mk 2 1 0)]%float).
Proof.
  cbv zeta.
  match goal with |- ?P /\ _ => assert P as H by (vm_compute; reflexivity) end.
  split; [exact H|].
  rewrite (proj1 (well_formed_file_round_trip stod_decimal newDXFReader _ _ H)).
  vm_compute. reflexivity.
Defined.

(** ** Lines before the first entity *)

Section LeadingLines.
Variable stod : string -> option double.

Lemma scan_loop_leading (callback : bool) (fileSize : nat) (junk lines : list string) :
  Forall (fun line => line <> "0") junk ->
  forall fuel st,
    scan_i st + fuel = length junk ->
    scan_outcome (scan_loop stod fuel callback fileSize (junk ++ lines) st)
    = (length junk, inEntitiesSection st, meshData st, entityCount st).
Proof.
  intros Hjunk. induction fuel as [|fuel IH]; intros st Hst; cbn [scan_loop].
  - unfold scan_outcome. repeat f_equal. lia.
  - assert ((scan_i st <? length (junk ++ lines)) = true) as ->
        by (apply Nat.ltb_lt; rewrite length_app; lia).
    assert (scan_body stod callback fileSize (junk ++ lines) st
            = scan_goto st (scan_i st + 1)) as ->.
    { unfold scan_body. rewrite lookup_total_app_l by lia.
      assert (junk !!! scan_i st <> "0") as Hne.
      { rewrite Forall_forall in Hjunk. apply Hjunk, list_elem_of_lookup_total_2. lia. }
      apply String.eqb_neq in Hne. now rewrite Hne. }
    rewrite IH by (cbn [scan_goto scan_i]; lia). reflexivity.
Qed.

(** X16. Lines put before the lines of a file are skipped when none of
    them is the line [0]: the read gives the same mesh or error and the
    same count as without them. *)
Theorem leading_lines_are_skipped (reader : DXFReader) (content content' : string)
    (junk : list string) :
  Forall (fun line => line <> "0") junk ->
  read_lines content' = junk ++ read_lines content ->
  let outcome := readFile stod reader (RegularFile (Some content)) in
  let outcome' := readFile stod reader (RegularFile (Some content')) in
  result outcome' = result outcome
  /\ getLastEntityCount (reader_after outcome')
     = getLastEntityCount (reader_after outcome).
Proof.
  intros Hjunk Hlines. cbv zeta. cbn [readFile]. rewrite !parseFile_unfold. cbv zeta.
  cbn [result reader_after getLastEntityCount lastEntityCount_].
  set (callback := progressCallback_ reader).
  assert (scan_outcome (final_scan stod callback content')
          = scan_outcome (shift_scan (length junk) (final_scan stod callback content)))
    as H.
  { unfold final_scan. rewrite Hlines, length_app, scan_loop_add.
    apply scan_loop_shift.
    rewrite (scan_loop_leading callback (String.length content') junk
               (read_lines content) Hjunk (length junk) scan_init eq_refl).
    unfold scan_outcome, shift_scan. cbn [scan_i scan_init]. now rewrite Nat.add_0_r. }
  unfold scan_outcome, shift_scan in H.
  cbn [scan_i inEntitiesSection meshData entityCount] in H.
  injection H as _ _ Hm Hc. now rewrite Hm, Hc.
Qed.
End LeadingLines.

Lemma leading_lines_are_skipped_witness :
  let junk := ["999"; "drawn by hand"; ""] in
  let content' := String.append (file_of_lines junk) single_triangle_dxf in
  Forall (fun line => line <> "0") junk
  /\ read_lines content' = junk ++ read_lines single_triangle_dxf
  /\ result (readFile stod_decimal newDXFReader (RegularFile (Some content')))
     = result (readFile stod_decimal newDXFReader (RegularFile (Some single_triangle_dxf))).
Proof.
  cbv zeta.
  match goal with
  | |- ?P /\ ?Q /\ _ =>
      assert P as HP by (repeat constructor; discriminate);
      assert Q as HQ by (vm_compute; reflexivity)
  end.
  repeat apply conj; [exact HP|exact HQ|].
  exact (proj1 (leading_lines_are_skipped stod_decimal newDXFReader _ _ _ HP HQ)).
Defined.

(** ** The reader with a callback that may throw *)

Local Open Scope nat_scope.

Lemma all_returned_nil (behaviour : ProgressCallback) : all_returned behaviour [].
Proof. intros k value H. now rewrite lookup_nil in H. Qed.

Lemma all_returned_snoc (behaviour : ProgressCallback) (calls : list double)
    (value : double) :
  all_returned behaviour calls -> behaviour calls value = Returns ->
  all_returned behaviour (calls ++ [value]).
Proof.
  intros Hall Hlast k v Hk.
  destruct (Nat.lt_ge_cases k (length calls)) as [Hlt|Hge].
  - rewrite lookup_app_l in Hk by exact Hlt.
    rewrite take_app_le by lia. now apply Hall.
  - rewrite lookup_app_r in Hk by exact Hge.
    apply list_lookup_singleton_Some in Hk as [Hk <-].
    assert (k = length calls) as -> by lia.
    now rewrite take_app_length.
Qed.

(** The values reported in a state that satisfies [calls_invariant] lie in
    [0, 1]. *)
Lemma calls_invariant_range (lines : list string) (st : Scan) :
  calls_invariant lines st -> Forall in_unit_interval (calls st).
Proof.
  intros (_ & positions & -> & _). apply Forall_forall. intros v Hv.
  apply list_elem_of_fmap in Hv as (i & -> & _). apply clamp_range.
Qed.

Section CallingProperties.
Variable stod : string -> option double.
Variable behaviour : ProgressCallback.

(** An iteration with the callback called is the iteration of
    [scan_body] when the call returns; when it throws, it leaves the
    state of [scan_body] with the cursor where it was. *)
Lemma scan_body_calling_spec (callback : bool) (fileSize : nat)
    (lines : list string) (st : Scan) :
  let r := scan_body_calling stod behaviour callback fileSize lines st in
  let s1 := scan_body stod callback fileSize lines st in
  (r = (s1, Returns)
   /\ (calls s1 = calls st
       \/ exists value, calls s1 = calls st ++ [value]
                        /\ behaviour (calls st) value = Returns))
  \/ (callback = true /\ r.2 <> Returns
      /\ r.1 = scan_goto s1 (scan_i st)
      /\ (exists value, calls s1 = calls st ++ [value]
                        /\ behaviour (calls st) value = r.2)
      /\ entityCount s1 = S (entityCount st)
      /\ entityCount s1 mod 100 = 0).
Proof.
  cbv zeta. unfold scan_body_calling, scan_body.
  repeat match goal with
         | |- context [if (?a && ?b)%bool then _ else _] =>
             lazymatch a with
             | context [Nat.eqb] => fail
             | _ => destruct (a && b)%bool
             end
         | |- context [if String.eqb ?a ?b then _ else _] => destruct (String.eqb a b)
         | |- context [match parse3DFaceFromLines ?s ?l ?k with _ => _ end] =>
             destruct (parse3DFaceFromLines s l k) as [next [t|]]
         end; cbn [calls scan_goto scan_section fst snd]; auto.
  destruct (Nat.eqb_spec (S (entityCount st) mod 100) 0) as [Hmod|Hmod];
    cbn [andb]; [|auto].
  destruct (0 <? fileSize); [|auto].
  unfold reportProgress_calling, reportProgress.
  destruct callback; [|auto].
  destruct (behaviour (calls st) _) eqn:E; cbn [calls scan_goto fst snd entityCount scan_i];
    [left; split; [reflexivity|right; eauto]
    |right; repeat apply conj; try reflexivity; try discriminate; eauto..].
Qed.

(** The loop with the callback called: it ends as [scan_loop] when every
    call returns, and otherwise in an iteration whose call throws, reached
    by iterations of [scan_body]. *)
Lemma scan_loop_calling_spec (P : Scan -> Prop) (callback : bool) (fileSize : nat)
    (lines : list string) :
  (forall st, scan_i st < length lines -> P st ->
              P (scan_body stod callback fileSize lines st)) ->
  forall fuel st,
    P st -> all_returned behaviour (calls st) ->
    let r := scan_loop_calling stod behaviour fuel callback fileSize lines st in
    match r.2 with
    | Returns =>
        r.1 = scan_loop stod fuel callback fileSize lines st
        /\ all_returned behaviour (calls r.1)
    | thrown =>
        exists s,
          let s1 := scan_body stod callback fileSize lines s in
          P s /\ scan_i s < length lines /\ all_returned behaviour (calls s)
          /\ callback = true
          /\ r.1 = scan_goto s1 (scan_i s)
          /\ (exists value, calls s1 = calls s ++ [value]
                            /\ behaviour (calls s) value = thrown)
          /\ entityCount s1 = S (entityCount s)
          /\ entityCount s1 mod 100 = 0
    end.
Proof.
  intros Hstep. induction fuel as [|fuel IH]; intros st HP Hall;
    cbn [scan_loop_calling scan_loop]; [cbn; auto|].
  destruct (scan_i st <? length lines) eqn:Hlt; [|cbn; auto].
  apply Nat.ltb_lt in Hlt.
  destruct (scan_body_calling_spec callback fileSize lines st)
    as [[E Hcalls]|(Hcb & Hthrown & Hst & Hvalue & Hcount & Hmod)].
  - rewrite E. apply IH; [now apply Hstep|].
    destruct Hcalls as [->|(value & -> & Hvalue)]; [exact Hall|].
    now apply all_returned_snoc.
  - destruct (scan_body_calling stod behaviour callback fileSize lines st)
      as [s' thrown] eqn:E. cbn [fst snd] in *.
    destruct thrown; [now contradict Hthrown|..];
      cbn [fst snd]; exists st; cbv zeta; repeat apply conj; auto.
Qed.
End CallingProperties.

(** The values reported in a state that satisfies [calls_invariant] do not
    decrease, in a file whose lines a [size_t] can count. *)
Lemma calls_invariant_nondecreasing (lines : list string) (st : Scan) :
  (Z.of_nat (length lines) < 2 ^ 64)%Z ->
  calls_invariant lines st -> nondecreasing (calls st).
Proof.
  intros Hsize (Hle & positions & Hcalls & Hbound & Hsorted) i j a b Hij Ha Hb.
  rewrite Hcalls in Ha, Hb. rewrite list_lookup_fmap in Ha, Hb.
  destruct (positions !! i) as [pa|] eqn:Ea; [|discriminate].
  destruct (positions !! j) as [pb|] eqn:Eb; [|discriminate].
  injection Ha as <-. injection Hb as <-.
  assert (pa <= pb) as Hab by eauto.
  apply list_elem_of_lookup_2 in Eb. apply Hbound in Eb.
  destruct (Nat.eq_dec (length lines) 0) as [Hnil|Hpos].
  - assert (pa = pb) as -> by lia.
    apply leb_refl. destruct (clamp_range (progress_fraction (length lines) pb)) as [H _].
    now apply leb_not_nan in H as [_ H].
  - apply clamp_monotone, progress_fraction_monotone; lia.
Qed.

(** Calling the callback with 1.0 after values between 0 and 1 that do not
    decrease gives values that do not decrease. *)
Lemma nondecreasing_snoc_one (values : list double) :
  Forall in_unit_interval values -> nondecreasing values ->
  nondecreasing (values ++ [1%float]).
Proof.
  intros Hrange Hnd i j a b Hij Ha Hb.
  destruct (Nat.lt_ge_cases j (length values)) as [Hj|Hj].
  - assert (i < length values) as Hi by lia.
    rewrite lookup_app_l in Ha by exact Hi.
    rewrite lookup_app_l in Hb by exact Hj. eauto.
  - rewrite lookup_app_r in Hb by exact Hj.
    apply list_lookup_singleton_Some in Hb as [_ <-].
    destruct (Nat.lt_ge_cases i (length values)) as [Hi|Hi].
    + rewrite lookup_app_l in Ha by exact Hi.
      apply list_elem_of_lookup_2 in Ha.
      rewrite Forall_forall in Hrange. now apply Hrange in Ha as [_ Ha].
    + rewrite lookup_app_r in Ha by exact Hi.
      now apply list_lookup_singleton_Some in Ha as [_ <-].
Qed.

Section CallingInvariant.
Variable stod : string -> option double.

Lemma scan_invariant_init (callback : bool) (lines : list string) :
  scan_invariant callback lines scan_init.
Proof.
  unfold scan_invariant, calls_invariant. cbn.
  split; [discriminate|]. split; [now left|]. split; [reflexivity|].
  split; [|now destruct callback].
  split; [lia|]. exists []. repeat apply conj; [reflexivity| |].
  - intros i Hi. now apply elem_of_nil in Hi.
  - intros i j a b _ Ha. now rewrite lookup_nil in Ha.
Qed.

(** An iteration of the scanning loop keeps [scan_invariant]. *)
Lemma scan_body_invariant (callback : bool) (fileSize : nat) (lines : list string)
    (st : Scan) :
  0 < fileSize -> scan_i st < length lines ->
  scan_invariant callback lines st ->
  scan_invariant callback lines (scan_body stod callback fileSize lines st).
Proof.
  intros Hsize Hlt (Hflag & Hcount & Hmeshcount & Hcalls & Hlen).
  pose proof (calls_invariant_step stod callback fileSize lines st Hlt Hcalls) as Hcalls'.
  pose proof (scan_body_calls_count stod callback fileSize lines st Hsize Hlen) as Hlen'.
  pose proof (scan_body_cursor stod callback fileSize lines st) as Hcur.
  pose proof (scan_body_mesh stod callback fileSize lines st) as Hmesh.
  cbv zeta in Hcur, Hmesh, Hlen'.
  set (st' := scan_body stod callback fileSize lines st) in *. clearbody st'.
  pose proof (parse3DFaceFromLines_index stod lines (scan_i st + 2)) as [Hp1 Hp2].
  enough ((inEntitiesSection st' = true -> 4 <= scan_i st')
          /\ (entityCount st' = 0 \/ 8 * entityCount st' + 4 <= scan_i st')
          /\ entityCount st' = MeshData.getTriangleCount (meshData st'))
    as (? & ? & ?) by (unfold scan_invariant; auto).
  destruct Hmesh as [(Hm & Hc & _)|(t & Hin & _ & _ & Hlt1 & Hparse & Hm & Hc & Hin')].
  - rewrite Hm, Hc.
    destruct Hcur as [(Hs & Hi & _)|[(Hs & Hi & Hf)|(_ & _ & Hf & [Hi|(_ & _ & _ & Hlt1 & Hi)])]].
    + rewrite Hi.
      split; [lia|split; [destruct Hcount; [now left|right; lia]|assumption]].
    + rewrite Hi, Hf.
      split; [discriminate|split; [destruct Hcount; [now left|right; lia]|assumption]].
    + rewrite Hf, Hi.
      split; [intros Ht; specialize (Hflag Ht); lia
             |split; [destruct Hcount; [now left|right; lia]|assumption]].
    + rewrite Hf, Hi.
      split; [intros Ht; specialize (Hflag Ht); lia
             |split; [destruct Hcount; [now left|right; lia]|assumption]].
  - pose proof (parse3DFaceFromLines_consumes stod lines (scan_i st + 2) t) as Hcons.
    rewrite Hparse in Hcons, Hp1, Hp2. cbn [fst snd] in Hcons, Hp1, Hp2.
    specialize (Hcons eq_refl). specialize (Hflag Hin).
    rewrite Hm, Hc. unfold MeshData.getTriangleCount, MeshData.addTriangle in *.
    cbn [MeshData.triangles] in *. rewrite length_app. cbn [length].
    split; [lia|split; [right; lia|lia]].
Qed.
End CallingInvariant.

Section CallingReads.
Variable stod : string -> option double.
Variable behaviour : ProgressCallback.

(** Where the scanning loop of [parseFile] ends: in the state of
    [final_scan] when every call returned, and otherwise with the call
    for a hundredth face, the last of the calls, that threw. The counter,
    the mesh and the calls are those of a state that iterations of
    [scan_body] reach. *)
Lemma scan_loop_calling_final (callback : bool) (content : string) :
  let lines := read_lines content in
  let r := scan_loop_calling stod behaviour (length lines) callback
             (String.length content) lines scan_init in
  exists s1,
    scan_invariant callback lines s1
    /\ calls r.1 = calls s1 /\ entityCount r.1 = entityCount s1
    /\ meshData r.1 = meshData s1
    /\ match r.2 with
       | Returns =>
           r.1 = final_scan stod callback content
           /\ all_returned behaviour (calls r.1)
       | thrown =>
           callback = true
           /\ 0 < entityCount r.1 /\ entityCount r.1 mod 100 = 0
           /\ exists earlier value,
                calls r.1 = earlier ++ [value]
                /\ all_returned behaviour earlier
                /\ behaviour earlier value = thrown
       end.
Proof.
  cbv zeta. destruct content as [|c rest].
  - exists scan_init. cbn.
    split; [apply scan_invariant_init|].
    repeat (split; [reflexivity|]). apply all_returned_nil.
  - set (content := String c rest). set (lines := read_lines content).
    set (fileSize := String.length content).
    assert (0 < fileSize) as Hsize by (cbn; lia).
    assert (forall st, scan_i st < length lines -> scan_invariant callback lines st ->
                       scan_invariant callback lines
                         (scan_body stod callback fileSize lines st)) as Hstep.
    { intros st Hlt Hst. now apply scan_body_invariant. }
    pose proof (scan_loop_calling_spec stod behaviour (scan_invariant callback lines)
                  callback fileSize lines Hstep (length lines) scan_init
                  (scan_invariant_init callback lines) (all_returned_nil behaviour))
      as H.
    cbv zeta in H.
    destruct (scan_loop_calling stod behaviour (length lines) callback fileSize lines
                scan_init) as [st thrown].
    cbn [fst snd] in *.
    assert (forall t, t = thrown -> t <> Returns ->
              match t with
              | Returns => True
              | _ =>
                  exists s,
                    scan_invariant callback lines s /\ scan_i s < length lines
                    /\ all_returned behaviour (calls s) /\ callback = true
                    /\ st = scan_goto (scan_body stod callback fileSize lines s) (scan_i s)
                    /\ (exists value,
                           calls (scan_body stod callback fileSize lines s)
                           = calls s ++ [value]
                           /\ behaviour (calls s) value = t)
                    /\ entityCount (scan_body stod callback fileSize lines s)
                       = S (entityCount s)
                    /\ entityCount (scan_body stod callback fileSize lines s) mod 100 = 0
              end ->
              exists s1,
                scan_invariant callback lines s1
                /\ calls st = calls s1 /\ entityCount st = entityCount s1
                /\ meshData st = meshData s1
                /\ callback = true
                /\ 0 < entityCount st /\ entityCount st mod 100 = 0
                /\ exists earlier value,
                     calls st = earlier ++ [value]
                     /\ all_returned behaviour earlier
                     /\ behaviour earlier value = t) as Hthrown.
    { intros t _ Ht Hs. destruct t; [now contradict Ht|..];
        destruct Hs as (s & Hs & Hlt & Hall & Hcb & -> & (value & Hcalls & Hvalue)
                        & Hcount & Hmod);
        exists (scan_body stod callback fileSize lines s);
        cbn [scan_goto calls entityCount meshData];
        (split; [now apply Hstep|]);
        (repeat (split; [reflexivity|]));
        (split; [exact Hcb|]); (split; [lia|]); (split; [exact Hmod|]);
        exists (calls s), value; auto. }
    destruct thrown.
    + destruct H as [-> Hall]. exists (scan_loop stod (length lines) callback fileSize lines scan_init).
      split; [apply scan_loop_invariant; [exact Hstep|apply scan_invariant_init]|].
      repeat (split; [reflexivity|]). exact Hall.
    + destruct (Hthrown ThrowsStdException eq_refl ltac:(discriminate) H)
        as (s1 & ? & ? & ? & ? & ?). exists s1. auto.
    + destruct (Hthrown ThrowsOther eq_refl ltac:(discriminate) H)
        as (s1 & ? & ? & ? & ? & ?). exists s1. auto.
Qed.

(** With no callback registered, or with one that returns, an iteration
    is the one of [scan_body]. *)
Lemma scan_body_calling_returning (callback : bool) (fileSize : nat)
    (lines : list string) (st : Scan) :
  callback = false \/ always_returns behaviour ->
  scan_body_calling stod behaviour callback fileSize lines st
  = (scan_body stod callback fileSize lines st, Returns).
Proof.
  intros H.
  destruct (scan_body_calling_spec stod behaviour callback fileSize lines st)
    as [[E _]|(Hcb & Hthrown & _ & (value & _ & Hvalue) & _)]; [exact E|].
  destruct H as [H|H]; [congruence|]. rewrite H in Hvalue. congruence.
Qed.

Lemma scan_loop_calling_returning (fuel : nat) (callback : bool) (fileSize : nat)
    (lines : list string) (st : Scan) :
  callback = false \/ always_returns behaviour ->
  scan_loop_calling stod behaviour fuel callback fileSize lines st
  = (scan_loop stod fuel callback fileSize lines st, Returns).
Proof.
  intros H. revert st. induction fuel as [|fuel IH]; intros st;
    cbn [scan_loop_calling scan_loop]; [reflexivity|].
  destruct (scan_i st <? length lines); [|reflexivity].
  rewrite scan_body_calling_returning by exact H. apply IH.
Qed.

(** A read whose callback returns, or that has none, is the read that
    [readFile] describes. *)
Lemma readFile_calling_returning (reader : DXFReader) (path : path_status) :
  progressCallback_ reader = false \/ always_returns behaviour ->
  readFile_calling stod behaviour reader path
  = let outcome := readFile stod reader path in
    mkRun (reader_after outcome) (progress_calls outcome) (ending_of (result outcome)).
Proof.
  intros H. destruct path as [| |[content|]]; try reflexivity.
  cbn [readFile_calling readFile parseFile_calling parseFile]. cbv zeta.
  rewrite scan_loop_calling_returning by exact H.
  unfold reportProgress_calling, reportProgress.
  cbn [reader_after progress_calls result].
  destruct (progressCallback_ reader) eqn:Hcb.
  - destruct H as [H|H]; [discriminate H|]. rewrite H.
    now destruct (MeshData.isEmpty _).
  - now destruct (MeshData.isEmpty _).
Qed.
End CallingReads.

Section CallingTheorems.
Variable stod : string -> option double.
Variable behaviour : ProgressCallback.

Lemma parseFile_calling_unfold (reader : DXFReader) (content : string) :
  parseFile_calling stod behaviour reader (Some content)
  = let callback := progressCallback_ reader in
    let r := scan_loop_calling stod behaviour (length (read_lines content)) callback
               (String.length content) (read_lines content) scan_init in
    let reader := mkDXFReader callback (entityCount r.1) in
    match r.2 with
    | ThrowsStdException => mkRun reader (calls r.1) (Failed ParseError)
    | ThrowsOther => mkRun reader (calls r.1) Escaped
    | Returns =>
        match reportProgress_calling behaviour callback 1%float (calls r.1) with
        | (calls, Returns) =>
            mkRun reader calls
              (if MeshData.isEmpty (meshData r.1) then Failed NoEntitiesFound
               else Returned (meshData r.1))
        | (calls, _) => mkRun reader calls Escaped
        end
    end.
Proof.
  unfold parseFile_calling. cbv zeta.
  now destruct (scan_loop_calling _ _ _ _ _ _ _) as [st thrown].
Qed.

(** C5. The values passed to the progress callback during a parse all lie
    in [0, 1], and without a callback nothing is reported. When the scan
    reaches the end of the file, as it does when no call of the callback
    throws, and in every parse that returns a mesh or fails with
    NoEntitiesFound, the last value is exactly 1.0, also for a file
    without lines. The values do not decrease, in a file whose lines a
    64-bit [size_t] can count: the values before the last are the clamped
    quotients [double(index) / double(lines.size())] at increasing
    indices, and conversion and division round monotonically. *)
Theorem progress_reports_monotone (reader : DXFReader) (content : string) :
  let run := parseFile_calling stod behaviour reader (Some content) in
  Forall in_unit_interval (run_calls run)
  /\ (progressCallback_ reader = false -> run_calls run = [])
  /\ (progressCallback_ reader = true ->
      scans_entire_file stod behaviour reader content ->
      last (run_calls run) = Some 1%float)
  /\ (always_returns behaviour
      \/ (exists mesh, run_ending run = Returned mesh)
      \/ run_ending run = Failed NoEntitiesFound ->
      scans_entire_file stod behaviour reader content)
  /\ ((Z.of_nat (length (read_lines content)) < 2 ^ 64)%Z ->
      nondecreasing (run_calls run)).
Proof.
  cbv zeta. rewrite parseFile_calling_unfold. cbv zeta. unfold scans_entire_file.
  destruct (scan_loop_calling_final stod behaviour (progressCallback_ reader) content)
    as (s1 & (_ & _ & _ & Hcalls & Hlen) & Hc & _ & _ & Hcase).
  cbv zeta in Hc, Hcase.
  destruct (scan_loop_calling stod behaviour _ _ _ _ _) as [st thrown].
  cbn [fst snd] in *. rewrite <- Hc in Hlen.
  assert (Forall in_unit_interval (calls st)) as Hrange
    by (rewrite Hc; now apply calls_invariant_range with (read_lines content)).
  assert ((Z.of_nat (length (read_lines content)) < 2 ^ 64)%Z -> nondecreasing (calls st))
    as Hnd by (intros Hsize; rewrite Hc; now apply calls_invariant_nondecreasing
                                             with (read_lines content)).
  clear Hcalls Hc. destruct thrown.
  - unfold reportProgress_calling. destruct (progressCallback_ reader).
    + change (std_max 0 (std_min 1 1))%float with 1%float.
      assert (let reported := calls st ++ [1%float] in
              Forall in_unit_interval reported
              /\ last reported = Some 1%float
              /\ ((Z.of_nat (length (read_lines content)) < 2 ^ 64)%Z ->
                  nondecreasing reported)) as (H1 & H2 & H3).
      { cbv zeta. split; [|split].
        - apply Forall_app. split; [exact Hrange|].
          apply Forall_singleton. split; reflexivity.
        - apply last_snoc.
        - intros Hsize. apply nondecreasing_snoc_one; auto. }
      destruct (behaviour (calls st) 1%float); cbn [run_calls run_ending];
        (split; [exact H1|]); (split; [discriminate|]); auto.
    + apply length_zero_iff_nil in Hlen. rewrite Hlen. cbn [run_calls run_ending].
      split; [constructor|]. split; [reflexivity|]. split; [discriminate|].
      split; [reflexivity|]. intros _ i j a b _ Ha. now rewrite lookup_nil in Ha.
  - destruct Hcase as (Hcb & _ & _ & earlier & value & _ & _ & Hvalue).
    cbn [run_calls run_ending]. rewrite Hcb.
    split; [exact Hrange|]. split; [discriminate|]. split; [discriminate|].
    split; [|exact Hnd].
    intros [H|[[mesh H]|H]]; [|discriminate H..]. now rewrite H in Hvalue.
  - destruct Hcase as (Hcb & _ & _ & earlier & value & _ & _ & Hvalue).
    cbn [run_calls run_ending]. rewrite Hcb.
    split; [exact Hrange|]. split; [discriminate|]. split; [discriminate|].
    split; [|exact Hnd].
    intros [H|[[mesh H]|H]]; [|discriminate H..]. now rewrite H in Hvalue.
Qed.

(** X12. How a read can end. A path that is not there, is no regular file
    or does not open fails with its own error, leaves the reader as it was
    and reports nothing. A file that opens gives a mesh and a count that
    agree, or fails for want of faces with the count at zero, in both
    cases after calls that all returned; or the call for a hundredth face
    threw: the read fails with the parse error when that was a
    [std::exception], and the exception leaves [readFile] otherwise, as
    does whatever the last call, with 1.0, throws. *)
Theorem readFile_outcomes (reader : DXFReader) (path : path_status) :
  let run := readFile_calling stod behaviour reader path in
  let count := getLastEntityCount (run_reader run) in
  match run_ending run with
  | Failed FileNotFound =>
      path = NoSuchPath /\ run_reader run = reader /\ run_calls run = []
  | Failed NotARegularFile =>
      path = NotRegular /\ run_reader run = reader /\ run_calls run = []
  | Failed CannotOpenFile =>
      path = RegularFile None /\ run_reader run = reader /\ run_calls run = []
  | Failed NoEntitiesFound =>
      (exists content, path = RegularFile (Some content))
      /\ count = 0 /\ all_returned behaviour (run_calls run)
  | Returned mesh =>
      (exists content, path = RegularFile (Some content))
      /\ count = MeshData.getTriangleCount mesh
      /\ 0 < MeshData.getTriangleCount mesh
      /\ all_returned behaviour (run_calls run)
  | Failed ParseError =>
      (exists content, path = RegularFile (Some content))
      /\ progressCallback_ reader = true
      /\ 0 < count /\ count mod 100 = 0
      /\ exists earlier value,
           run_calls run = earlier ++ [value]
           /\ all_returned behaviour earlier
           /\ behaviour earlier value = ThrowsStdException
  | Escaped =>
      (exists content, path = RegularFile (Some content))
      /\ progressCallback_ reader = true
      /\ exists earlier value,
           run_calls run = earlier ++ [value]
           /\ all_returned behaviour earlier
           /\ ((0 < count /\ count mod 100 = 0
                /\ behaviour earlier value = ThrowsOther)
               \/ (value = 1%float /\ behaviour earlier value <> Returns))
  end.
Proof.
  cbv zeta. destruct path as [| |[content|]]; cbn [readFile_calling];
    try (cbn; now auto).
  rewrite parseFile_calling_unfold. cbv zeta.
  destruct (scan_loop_calling_final stod behaviour (progressCallback_ reader) content)
    as (s1 & (_ & _ & Hcount & _ & _) & Hc & He & Hm & Hcase).
  cbv zeta in Hc, He, Hm, Hcase.
  destruct (scan_loop_calling stod behaviour _ _ _ _ _) as [st thrown].
  cbn [fst snd] in *. rewrite <- He, <- Hm in Hcount. clear s1 Hc He Hm.
  assert (exists text, RegularFile (Some content) = RegularFile (Some text)) as Hpath
    by eauto.
  destruct thrown.
  - destruct Hcase as [_ Hall]. unfold reportProgress_calling.
    assert (match (if MeshData.isEmpty (meshData st) then Failed NoEntitiesFound
                   else Returned (meshData st)) with
            | Returned mesh =>
                entityCount st = MeshData.getTriangleCount mesh
                /\ 0 < MeshData.getTriangleCount mesh
            | Failed NoEntitiesFound => entityCount st = 0
            | _ => False
            end) as Hmesh.
    { rewrite Hcount. unfold MeshData.isEmpty, MeshData.getTriangleCount.
      destruct (MeshData.triangles (meshData st)) as [|t l] eqn:E; rewrite ?E;
        cbn [length]; [reflexivity|split; [reflexivity|lia]]. }
    destruct (progressCallback_ reader).
    + change (std_max 0 (std_min 1 1))%float with 1%float.
      destruct (behaviour (calls st) 1%float) eqn:Hlast;
        cbn [run_calls run_ending run_reader getLastEntityCount lastEntityCount_].
      * destruct (MeshData.isEmpty (meshData st)).
        -- repeat (split; [assumption|]). now apply all_returned_snoc.
        -- destruct Hmesh. repeat (split; [assumption|]). now apply all_returned_snoc.
      * split; [exact Hpath|]. split; [reflexivity|].
        exists (calls st), 1%float. split; [reflexivity|]. split; [exact Hall|].
        right. split; [reflexivity|]. rewrite Hlast. discriminate.
      * split; [exact Hpath|]. split; [reflexivity|].
        exists (calls st), 1%float. split; [reflexivity|]. split; [exact Hall|].
        right. split; [reflexivity|]. rewrite Hlast. discriminate.
    + cbn [run_calls run_ending run_reader getLastEntityCount lastEntityCount_].
      destruct (MeshData.isEmpty (meshData st)).
      * repeat (split; [assumption|]). exact Hall.
      * destruct Hmesh. repeat (split; [assumption|]). exact Hall.
  - destruct Hcase as (Hcb & Hpos & Hmod & earlier & value & Hcalls & Hall & Hvalue).
    cbn [run_calls run_ending run_reader getLastEntityCount lastEntityCount_].
    repeat (split; [assumption|]). eauto.
  - destruct Hcase as (Hcb & Hpos & Hmod & earlier & value & Hcalls & Hall & Hvalue).
    cbn [run_calls run_ending run_reader getLastEntityCount lastEntityCount_].
    repeat (split; [assumption|]). exists earlier, value.
    split; [exact Hcalls|]. split; [exact Hall|]. left. auto.
Qed.

(** X13. A read that counted n faces read them from 8 n + 4 lines at
    least: four lines open the ENTITIES section, and each face takes its
    two header lines and three pairs. So does the mesh of n triangles
    that a read returns. *)
Theorem triangles_need_lines (reader : DXFReader) (content : string) :
  let run := readFile_calling stod behaviour reader (RegularFile (Some content)) in
  let count := getLastEntityCount (run_reader run) in
  (count = 0 \/ 8 * count + 4 <= length (read_lines content))
  /\ match run_ending run with
     | Returned mesh =>
         8 * MeshData.getTriangleCount mesh + 4 <= length (read_lines content)
     | _ => True
     end.
Proof.
  cbv zeta. cbn [readFile_calling]. rewrite parseFile_calling_unfold. cbv zeta.
  destruct (scan_loop_calling_final stod behaviour (progressCallback_ reader) content)
    as (s1 & (_ & Hbound & Hcount & (Hle & _) & _) & _ & He & Hm & _).
  cbv zeta in He, Hm.
  destruct (scan_loop_calling stod behaviour _ _ _ _ _) as [st thrown].
  cbn [fst snd] in *. rewrite <- He in Hbound, Hcount. rewrite <- Hm in Hcount.
  assert (entityCount st = 0 \/ 8 * entityCount st + 4 <= length (read_lines content))
    as H by (destruct Hbound; [now left|right; lia]).
  clear s1 Hbound Hle He Hm.
  assert (match (if MeshData.isEmpty (meshData st) then Failed NoEntitiesFound
                 else Returned (meshData st)) with
          | Returned mesh =>
              8 * MeshData.getTriangleCount mesh + 4 <= length (read_lines content)
          | _ => True
          end) as Hmesh.
  { unfold MeshData.isEmpty.
    destruct (MeshData.triangles (meshData st)) as [|t l] eqn:E; [exact I|].
    rewrite <- Hcount. destruct H as [H|H]; [|exact H].
    rewrite Hcount in H. unfold MeshData.getTriangleCount in H.
    rewrite E in H. discriminate H. }
  destruct thrown; [|now split..].
  unfold reportProgress_calling.
  destruct (progressCallback_ reader); [destruct (behaviour _ _)|];
    cbn [run_reader run_ending getLastEntityCount lastEntityCount_]; now split.
Qed.

(** X15. With a callback registered, a read of a file that opens calls it
    once for every hundredth face and once at the end, n / 100 + 1 times
    for n faces counted, when it returns a mesh or fails for want of
    faces. A read that ends in the parse error stopped at the call for
    face n, a multiple of 100, which is the last of n / 100 calls. Without
    a callback nothing is reported. *)
Theorem progress_report_count (reader : DXFReader) (content : string) :
  let run := readFile_calling stod behaviour reader (RegularFile (Some content)) in
  let count := getLastEntityCount (run_reader run) in
  let reported := length (run_calls run) in
  if progressCallback_ reader then
    match run_ending run with
    | Returned _ | Failed NoEntitiesFound => reported = count / 100 + 1
    | Failed ParseError => reported = count / 100 /\ 0 < count /\ count mod 100 = 0
    | Escaped =>
        reported = count / 100 + 1
        \/ (reported = count / 100 /\ 0 < count /\ count mod 100 = 0)
    | Failed _ => False
    end
  else reported = 0.
Proof.
  cbv zeta. cbn [readFile_calling]. rewrite parseFile_calling_unfold. cbv zeta.
  destruct (scan_loop_calling_final stod behaviour (progressCallback_ reader) content)
    as (s1 & (_ & _ & _ & _ & Hlen) & Hc & He & _ & Hcase).
  cbv zeta in Hc, He, Hcase.
  destruct (scan_loop_calling stod behaviour _ _ _ _ _) as [st thrown].
  cbn [fst snd] in *. rewrite <- Hc, <- He in Hlen. clear s1 Hc He.
  destruct thrown.
  - unfold reportProgress_calling. destruct (progressCallback_ reader).
    + assert (length (calls st ++ [std_max 0 (std_min 1 1)])%float
              = entityCount st / 100 + 1) as H
        by (rewrite length_app, Hlen; reflexivity).
      destruct (behaviour _ _);
        cbn [run_calls run_ending run_reader getLastEntityCount lastEntityCount_];
        [destruct (MeshData.isEmpty _); exact H|now left..].
    + cbn [run_calls]. exact Hlen.
  - destruct Hcase as (Hcb & Hpos & Hmod & _).
    cbn [run_calls run_ending run_reader getLastEntityCount lastEntityCount_].
    rewrite Hcb in *. auto.
  - destruct Hcase as (Hcb & Hpos & Hmod & _).
    cbn [run_calls run_ending run_reader getLastEntityCount lastEntityCount_].
    rewrite Hcb in *. auto.
Qed.
End CallingTheorems.

Section CallingInvariance.
Variable stod : string -> option double.

(** X11. The mesh or the error of a read, and the count it leaves, depend
    on the file alone, as long as no call of a callback throws: not on a
    callback being registered, nor on which one, nor on what the reader
    counted before. *)
Theorem read_depends_on_file_only (behaviour behaviour' : ProgressCallback)
    (reader reader' : DXFReader) (path : path_status) (content : string) :
  progressCallback_ reader = false \/ always_returns behaviour ->
  progressCallback_ reader' = false \/ always_returns behaviour' ->
  run_ending (readFile_calling stod behaviour reader path)
  = run_ending (readFile_calling stod behaviour' reader' path)
  /\ getLastEntityCount
       (run_reader (readFile_calling stod behaviour reader (RegularFile (Some content))))
     = getLastEntityCount
         (run_reader
            (readFile_calling stod behaviour' reader' (RegularFile (Some content)))).
Proof.
  intros Hr Hr'. rewrite !readFile_calling_returning by assumption. cbv zeta.
  cbn [run_ending run_reader].
  assert (forall text,
             scan_outcome (final_scan stod (progressCallback_ reader) text)
             = scan_outcome (final_scan stod (progressCallback_ reader') text)) as H.
  { intros text. now apply scan_loop_outcome. }
  split.
  - destruct path as [| |[text|]]; cbn [readFile]; try reflexivity.
    rewrite !parseFile_unfold. cbv zeta. cbn [result].
    specialize (H text). unfold scan_outcome in H. injection H as _ _ Hm _.
    now rewrite Hm.
  - cbn [readFile]. rewrite !parseFile_unfold. cbv zeta.
    cbn [reader_after getLastEntityCount lastEntityCount_].
    specialize (H content). unfold scan_outcome in H. now injection H.
Qed.
End CallingInvariance.

Lemma progress_reports_monotone_witness :
  let reader := setProgressCallback newDXFReader in
  let content := compact_faces_dxf 250 in
  let run := parseFile_calling stod_decimal (fun _ _ => Returns) reader (Some content) in
  length (run_calls run) = 3
  /\ (Z.of_nat (length (read_lines content)) < 2 ^ 64)%Z
  /\ nondecreasing (run_calls run)
  /\ last (run_calls run) = Some 1%float.
Proof.
  cbv zeta. split; [vm_compute; reflexivity|].
  assert (Z.of_nat (length (read_lines (compact_faces_dxf 250))) < 2 ^ 64)%Z as Hsize
    by (vm_compute; reflexivity).
  split; [exact Hsize|].
  destruct (progress_reports_monotone stod_decimal (fun _ _ => Returns)
              (setProgressCallback newDXFReader) (compact_faces_dxf 250))
    as (_ & _ & Hlast & Hscan & Hnd).
  split; [exact (Hnd Hsize)|].
  apply Hlast; [reflexivity|]. apply Hscan. left. intros earlier progress. reflexivity.
Defined.

Lemma read_depends_on_file_only_witness :
  let stod := stod_decimal in
  let silent := newDXFReader in
  let listening := setProgressCallback newDXFReader in
  let throwing := throws_at 0 ThrowsStdException in
  let returning := fun (_ : list double) (_ : double) => Returns in
  let file := RegularFile (Some single_triangle_dxf) in
  (progressCallback_ silent = false \/ always_returns throwing)
  /\ (progressCallback_ listening = false \/ always_returns returning)
  /\ run_ending (readFile_calling stod throwing silent file)
     = run_ending (readFile_calling stod returning listening file)
  /\ getLastEntityCount (run_reader (readFile_calling stod throwing silent file))
     = getLastEntityCount (run_reader (readFile_calling stod returning listening file)).
Proof.
  cbv zeta.
  assert (progressCallback_ newDXFReader = false
          \/ always_returns (throws_at 0 ThrowsStdException)) as H1
    by (left; reflexivity).
  assert (progressCallback_ (setProgressCallback newDXFReader) = false
          \/ always_returns (fun _ _ => Returns)) as H2
    by (right; intros earlier progress; reflexivity).
  split; [exact H1|]. split; [exact H2|].
  exact (read_depends_on_file_only stod_decimal _ _ _ _
           (RegularFile (Some single_triangle_dxf)) single_triangle_dxf H1 H2).
Defined.


(** A file without lines: the one call is the one with 1.0. *)
Example empty_file_reports_one (stod : string -> option double) :
  parseFile_calling stod (fun _ _ => Returns) (setProgressCallback newDXFReader) (Some "")
  = mkRun (setProgressCallback newDXFReader) [1%float] (Failed NoEntitiesFound).
Proof. reflexivity. Qed.
